(** * TrustLayer escrow lifecycle engine

    A shallow embedding of the two escrow back ends of the repository and
    the properties of their lifecycle state machine:

    - [Clock]: the two textual timestamp formats the internal ledger stores
      and compares, [Date.prototype.toISOString] and SQLite's [datetime];
    - [Spec]: the state machine of section 4.1 of the specification;
    - [Offchain]: the internal ledger of [src/services/escrow/escrow.js],
      two SQLite tables driven through better-sqlite3, with the cron job of
      [src/index.js];
    - [ClawVault]: the Solidity contract [contracts/ClawVault.sol] that is
      the source of truth in trustless mode.

    The facts about each part follow in [ClockFacts], [OffchainFacts] and
    [ClawVaultFacts], then the properties C1 to C10 of the lifecycle.  The
    file closes with the accounts of the contract ([VaultAccounts],
    [VaultProperties], X1 to X14) and the records of the internal ledger
    ([LedgerRecords], [LedgerProperties], X15 to X19). *)

From Stdlib Require Import ZArith List String Ascii Bool Lia.
From Stdlib Require Import Permutation Sorted.
Import ListNotations.
Open Scope Z_scope.

(* ================================================================== *)
(** * Timestamps as text *)
(* ================================================================== *)

Module Clock.

(** A point in time is a JavaScript time value: milliseconds since
    1970-01-01T00:00:00Z, as returned by [Date.now()]. *)
Definition instant := Z.

Definition MS_PER_SECOND : Z := 1000.
Definition MS_PER_HOUR   : Z := 3600 * 1000.
Definition MS_PER_DAY    : Z := 86400000.

(** Proleptic Gregorian calendar, counted in 400-year eras of 146097 days
    that start on March 1st.  [year_of_era] splits a day of the era into
    the (March-based) year of the era and the day of that year: an era is
    four centuries of 36524 days (the last one has a day more), a century
    is twenty-five four-year cycles of 1461 days (the last one may lack a
    day), a cycle is four years of 365 days (the last one may have a day
    more). *)
Definition year_of_era (doe : Z) : Z * Z :=
  let c   := Z.min (doe / 36524) 3 in
  let doc := doe - c * 36524 in
  let q   := doc / 1461 in
  let doq := doc - q * 1461 in
  let yq  := Z.min (doq / 365) 3 in
  (c * 100 + q * 4 + yq, doq - yq * 365).

(** Day of a March-based year to (month counted from March, day of the
    month). *)
Definition month_of_year (doy : Z) : Z * Z :=
  let mp := (5 * doy + 2) / 153 in
  (mp, doy - (153 * mp + 2) / 5 + 1).

(** Days since 1970-01-01 to (year, month, day). *)
Definition civil_from_days (z : Z) : Z * Z * Z :=
  let z'  := z + 719468 in
  let era := z' / 146097 in
  let doe := z' mod 146097 in
  let '(yoe, doy) := year_of_era doe in
  let '(mp, d) := month_of_year doy in
  let m := if mp <? 10 then mp + 3 else mp - 9 in
  (era * 400 + yoe + (if m <=? 2 then 1 else 0), m, d).

(** Decimal digits, most significant first, in a field of fixed width. *)
Definition digit (n : Z) : ascii := ascii_of_N (Z.to_N (48 + n mod 10)).

Fixpoint pad (w : nat) (n : Z) : string :=
  match w with
  | O => EmptyString
  | S w' => String (digit (n / 10 ^ Z.of_nat w')) (pad w' n)
  end.

(** The year field of [toISOString]: four digits for the years 0 to 9999,
    a sign and six digits otherwise. *)
Definition iso_year (y : Z) : string :=
  if (0 <=? y) && (y <=? 9999) then pad 4 y
  else ((if (y <? 0)%Z then "-" else "+") ++ pad 6 (Z.abs y))%string.

Definition iso_text (tv : instant) : string :=
  let days := tv / MS_PER_DAY in
  let msod := tv mod MS_PER_DAY in
  let '(y, m, d) := civil_from_days days in
  (iso_year y ++ "-" ++ pad 2 m ++ "-" ++ pad 2 d ++ "T"
   ++ pad 2 (msod / 3600000) ++ ":" ++ pad 2 (msod / 60000 mod 60)
   ++ ":" ++ pad 2 (msod / 1000 mod 60)
   ++ "." ++ pad 3 (msod mod 1000) ++ "Z")%string.

(** [new Date(tv).toISOString()]: [YYYY-MM-DDTHH:mm:ss.sssZ].  A time value
    beyond 8.64e15 ms is an invalid date and raises a RangeError, which
    is [None] here. *)
Definition MAX_TIME_VALUE : Z := 8640000000000000.

Definition toISOString (tv : instant) : option string :=
  if Z.abs tv <=? MAX_TIME_VALUE then Some (iso_text tv) else None.

(** SQLite's [datetime(t)]: [YYYY-MM-DD HH:MM:SS], the instant truncated
    to whole seconds.  SQLite defines it for the years 0000 to 9999, the
    range in which the system clock lies. *)
Definition datetime (tv : instant) : string :=
  let secs := tv / MS_PER_SECOND in
  let days := secs / 86400 in
  let sod  := secs mod 86400 in
  let '(y, m, d) := civil_from_days days in
  (pad 4 y ++ "-" ++ pad 2 m ++ "-" ++ pad 2 d ++ " "
   ++ pad 2 (sod / 3600) ++ ":" ++ pad 2 (sod / 60 mod 60)
   ++ ":" ++ pad 2 (sod mod 60))%string.

(** [datetime('now', '-1 day')]. *)
Definition datetime_minus_1_day (now : instant) : string :=
  datetime (now - MS_PER_DAY).

(** The instants whose year has four digits: 0000-01-01T00:00:00.000Z up
    to 9999-12-31T23:59:59.999Z. *)
Definition MIN_TEXT_INSTANT : Z := -62167219200000.
Definition MAX_TEXT_INSTANT : Z := 253402300799999.

Definition four_digit_year (tv : instant) : Prop :=
  MIN_TEXT_INSTANT <= tv <= MAX_TEXT_INSTANT.

(** SQL [<] on two TEXT values under the BINARY collation: byte-wise
    comparison, a proper prefix being smaller. *)
Definition text_lt (a b : string) : bool := String.ltb a b.

(** Lexicographic order on calendar dates. *)
Definition date_compare (a b : Z * Z * Z) : comparison :=
  let '(y1, m1, d1) := a in
  let '(y2, m2, d2) := b in
  match y1 ?= y2 with
  | Eq => match m1 ?= m2 with
          | Eq => d1 ?= d2
          | c => c
          end
  | c => c
  end.

End Clock.

(* ================================================================== *)
(** * The state machine of the specification, section 4.1 *)
(* ================================================================== *)

Module Spec.

Inductive state :=
  Created | Funded | Delivered | Disputed | Completed | Refunded | Resolved.

(** The transition table: fund, deliver, accept and claimByTimeout,
    dispute, resolve, reclaimExpired. *)
Definition edge (a b : state) : bool :=
  match a, b with
  | Created, Funded
  | Funded, Delivered
  | Delivered, Completed
  | Delivered, Disputed
  | Disputed, Resolved
  | Created, Refunded
  | Funded, Refunded => true
  | _, _ => false
  end.

End Spec.


(* ================================================================== *)
(** * The internal ledger: src/services/escrow/escrow.js *)
(* ================================================================== *)

Module Offchain.
Import Clock.

(** ** Tables *)

(** The texts the code writes into [escrows.status]. *)
Inductive escrow_status :=
  created | funded | delivered | completed | disputed | refunded.

Definition status_text (s : escrow_status) : string :=
  match s with
  | created => "created"
  | funded => "funded"
  | delivered => "delivered"
  | completed => "completed"
  | disputed => "disputed"
  | refunded => "refunded"
  end.

Definition status_eqb (a b : escrow_status) : bool :=
  match a, b with
  | created, created | funded, funded | delivered, delivered
  | completed, completed | disputed, disputed | refunded, refunded => true
  | _, _ => false
  end.

(** A row of table [escrows].  The timestamps are TEXT columns. *)
Record escrow := mkEscrow {
  id : string;
  buyer_address : string;
  seller_address : string;
  amount_usdc : string;
  service_description : string;
  acceptance_criteria : option string;
  deadline : string;
  status : escrow_status;
  deposit_tx : option string;
  release_tx : option string;
  refund_tx : option string;
  dispute_reason : option string;
  dispute_evidence : option string;
  resolution : option string;
  created_at : string;
  updated_at : string
}.

Inductive event_type :=
| ev_created | ev_funded | ev_delivered | ev_completed | ev_disputed
| ev_resolved | ev_auto_completed | ev_auto_refunded.

(** The object that [logEvent] serialises into column [data]. *)
Inductive event_data :=
| DataCreated (amountUsdc deadline : string)
| DataFunded (depositTxHash : string)
| DataDelivered (proof : string)
| DataCompleted (released_to : string)
| DataDisputed (reason : string) (evidence : option string)
| DataResolved (resolution winner : string)
| DataReason (reason : string).

(** A row of table [escrow_events]; [event_id] is the AUTOINCREMENT key. *)
Record escrow_event := mkEvent {
  event_id : Z;
  escrow_id : string;
  etype : event_type;
  actor : string;
  data : event_data;
  event_created_at : string
}.

(** The database: both tables in insertion (rowid) order. *)
Record db := mkDb {
  escrows : list escrow;
  escrow_events : list escrow_event
}.

Definition empty_db : db := mkDb [] [].

(** ** Exceptions and the statement monad

    Every statement runs in autocommit mode: a [throw] leaves in place
    what earlier statements of the same call have written. *)

Inductive error :=
| EscrowNotFound
| CannotFund (s : escrow_status)
| CannotDeliver (s : escrow_status)
| CannotAccept (s : escrow_status)
| CannotDispute (s : escrow_status)
| CannotResolve (s : escrow_status)
| InvalidTimeValue      (* RangeError of toISOString *)
| UniqueConstraint      (* SqliteError: escrows.id is the primary key *)
| CannotBind.           (* TypeError of better-sqlite3 *)

Definition error_message (e : error) : string :=
  match e with
  | EscrowNotFound => "Escrow not found"
  | CannotFund s => ("Cannot fund: status is " ++ status_text s)%string
  | CannotDeliver s => ("Cannot deliver: status is " ++ status_text s)%string
  | CannotAccept s => ("Cannot accept: status is " ++ status_text s)%string
  | CannotDispute s => ("Cannot dispute: status is " ++ status_text s)%string
  | CannotResolve s => ("Cannot resolve: status is " ++ status_text s)%string
  | InvalidTimeValue => "Invalid time value"
  | UniqueConstraint => "UNIQUE constraint failed: escrows.id"
  | CannotBind => "SQLite3 can only bind numbers, strings, bigints, buffers, and null"
  end.

(** The classes of section 7 of the specification. *)
Inductive error_class := NotFound | InvalidState | InvalidArgument | StoreError.

Definition classify (e : error) : error_class :=
  match e with
  | EscrowNotFound => NotFound
  | CannotFund _ | CannotDeliver _ | CannotAccept _
  | CannotDispute _ | CannotResolve _ => InvalidState
  | InvalidTimeValue | CannotBind => InvalidArgument
  | UniqueConstraint => StoreError
  end.

Inductive outcome (A : Type) :=
| Return (a : A)
| Throw (e : error).
Arguments Return {A} a.
Arguments Throw {A} e.

Definition M (A : Type) : Type := db -> db * outcome A.

Definition ret {A} (a : A) : M A := fun d => (d, Return a).
Definition throw {A} (e : error) : M A := fun d => (d, Throw e).
Definition bind {A B} (c : M A) (k : A -> M B) : M B :=
  fun d => match c d with
           | (d', Return a) => k a d'
           | (d', Throw e) => (d', Throw e)
           end.

Notation "x <- c ;; k" := (bind c (fun x => k))
  (at level 61, c at next level, right associativity).
Notation "c ;;; k" := (bind c (fun _ => k))
  (at level 61, right associativity).

Fixpoint for_each {A} (l : list A) (body : A -> M unit) : M unit :=
  match l with
  | [] => ret tt
  | a :: l' => body a ;;; for_each l' body
  end.

(** ** SQL statements *)

(** [SELECT * FROM escrows WHERE id = ?], first row or nothing. *)
Definition select_by_id (escrowId : string) : M (option escrow) :=
  fun d => (d, Return (find (fun r => String.eqb (id r) escrowId) (escrows d))).

(** [SELECT * FROM escrows WHERE ...], all rows. *)
Definition select_where (p : escrow -> bool) : M (list escrow) :=
  fun d => (d, Return (filter p (escrows d))).

(** [INSERT INTO escrows ...]; [id] is the primary key. *)
Definition insert_escrow (row : escrow) : M unit :=
  fun d =>
    if existsb (fun r => String.eqb (id r) (id row)) (escrows d)
    then (d, Throw UniqueConstraint)
    else (mkDb (escrows d ++ [row]) (escrow_events d), Return tt).

(** [UPDATE escrows SET ... WHERE id = ?]. *)
Definition update_by_id (escrowId : string) (set : escrow -> escrow) : M unit :=
  fun d =>
    (mkDb (map (fun r => if String.eqb (id r) escrowId then set r else r)
               (escrows d))
          (escrow_events d), Return tt).

Definition set_funded (now : instant) (depositTxHash : string) (r : escrow) : escrow :=
  mkEscrow (id r) (buyer_address r) (seller_address r) (amount_usdc r)
    (service_description r) (acceptance_criteria r) (deadline r)
    funded (Some depositTxHash) (release_tx r) (refund_tx r)
    (dispute_reason r) (dispute_evidence r) (resolution r)
    (created_at r) (datetime now).

Definition set_status (now : instant) (s : escrow_status) (r : escrow) : escrow :=
  mkEscrow (id r) (buyer_address r) (seller_address r) (amount_usdc r)
    (service_description r) (acceptance_criteria r) (deadline r)
    s (deposit_tx r) (release_tx r) (refund_tx r)
    (dispute_reason r) (dispute_evidence r) (resolution r)
    (created_at r) (datetime now).

Definition set_disputed (now : instant) (reason : string)
    (evidence : option string) (r : escrow) : escrow :=
  mkEscrow (id r) (buyer_address r) (seller_address r) (amount_usdc r)
    (service_description r) (acceptance_criteria r) (deadline r)
    disputed (deposit_tx r) (release_tx r) (refund_tx r)
    (Some reason) evidence (resolution r)
    (created_at r) (datetime now).

Definition set_resolved (now : instant) (newStatus : escrow_status)
    (res : string) (r : escrow) : escrow :=
  mkEscrow (id r) (buyer_address r) (seller_address r) (amount_usdc r)
    (service_description r) (acceptance_criteria r) (deadline r)
    newStatus (deposit_tx r) (release_tx r) (refund_tx r)
    (dispute_reason r) (dispute_evidence r) (Some res)
    (created_at r) (datetime now).

(** The JavaScript value that [logEvent] is handed as the actor.
    better-sqlite3 binds numbers, strings, bigints, buffers and null, and
    throws a TypeError for every other value.  [Bindable a] is a value
    that binds and that the TEXT column stores as [a]; [NotBindable] is
    undefined, a boolean, an array or an object.  (A null actor, stored
    as NULL, is left out.)

    Every other argument of the engine is either only serialised into
    the JSON text of an event, or first bound by a statement that comes
    before all writes of its call or is the first of them: the SELECT of
    [getEscrow], the INSERT of [createEscrow], the UPDATE.  A value that
    does not bind there makes the call throw with both tables as they
    were, and a value that binds is stored as text; those arguments are
    texts here.  The one exception is the address of [disputeEscrow],
    which only [logEvent] binds, after the UPDATE. *)
Inductive actor_value :=
| Bindable (a : string)
| NotBindable.

(** [logEvent]: [INSERT INTO escrow_events ...].  The engine only logs for
    ids it has just read or inserted, so the foreign key on [escrow_id]
    never fails. *)
Definition logEvent (now : instant) (escrowId : string) (eventType : event_type)
    (who : actor_value) (payload : event_data) : M unit :=
  match who with
  | NotBindable => throw CannotBind
  | Bindable a =>
      fun d =>
        (mkDb (escrows d)
              (escrow_events d ++
               [mkEvent (Z.of_nat (List.length (escrow_events d)) + 1) escrowId
                        eventType a payload (datetime now)]),
         Return tt)
  end.

(** ** Lifecycle operations

    Every operation takes [now], the reading of the system clock that both
    [Date.now()] and SQLite's ['now'] return during the call.

    A reply keeps the fields [id], [status] and [message] of the object
    the function returns; the others echo arguments or are fixed hints. *)

Record reply := mkReply {
  reply_id : string;
  reply_status : escrow_status;
  reply_message : option string
}.

Definition getEscrow (escrowId : string) : M (option escrow) :=
  select_by_id escrowId.

(** [rand_hex] is the hexadecimal text of [crypto.randomBytes(12)]. *)
Definition createEscrow (now : instant) (rand_hex : string)
    (buyerAddress sellerAddress amountUsdc serviceDescription : string)
    (acceptanceCriteria : option string) (deadlineHours : Z) : M reply :=
  let id := ("esc_" ++ rand_hex)%string in
  match toISOString (now + deadlineHours * 3600 * 1000) with
  | None => throw InvalidTimeValue
  | Some deadline =>
      insert_escrow
        (mkEscrow id buyerAddress sellerAddress amountUsdc serviceDescription
           acceptanceCriteria deadline created None None None None None None
           (datetime now) (datetime now)) ;;;
      logEvent now id ev_created (Bindable buyerAddress)
        (DataCreated amountUsdc deadline) ;;;
      ret (mkReply id created None)
  end.

Definition fundEscrow (now : instant) (escrowId depositTxHash : string) : M reply :=
  row <- getEscrow escrowId ;;
  match row with
  | None => throw EscrowNotFound
  | Some esc =>
      if negb (status_eqb (status esc) created)
      then throw (CannotFund (status esc))
      else
        update_by_id escrowId (set_funded now depositTxHash) ;;;
        logEvent now escrowId ev_funded (Bindable (buyer_address esc))
          (DataFunded depositTxHash) ;;;
        ret (mkReply escrowId funded
               (Some "Escrow funded. Seller can now perform the service."%string))
  end.

Definition deliverEscrow (now : instant) (escrowId deliveryProof : string) : M reply :=
  row <- getEscrow escrowId ;;
  match row with
  | None => throw EscrowNotFound
  | Some esc =>
      if negb (status_eqb (status esc) funded)
      then throw (CannotDeliver (status esc))
      else
        update_by_id escrowId (set_status now delivered) ;;;
        logEvent now escrowId ev_delivered (Bindable (seller_address esc))
          (DataDelivered deliveryProof) ;;;
        ret (mkReply escrowId delivered
               (Some "Delivery recorded. Buyer has 24h to accept or dispute."%string))
  end.

Definition release_message (esc : escrow) : string :=
  ("Payment of " ++ amount_usdc esc ++ " USDC released to seller.")%string.

Definition refund_message (esc : escrow) : string :=
  ("Refund of " ++ amount_usdc esc ++ " USDC to buyer.")%string.

Definition acceptEscrow (now : instant) (escrowId : string) : M reply :=
  row <- getEscrow escrowId ;;
  match row with
  | None => throw EscrowNotFound
  | Some esc =>
      if negb (status_eqb (status esc) delivered)
      then throw (CannotAccept (status esc))
      else
        update_by_id escrowId (set_status now completed) ;;;
        logEvent now escrowId ev_completed (Bindable (buyer_address esc))
          (DataCompleted (seller_address esc)) ;;;
        ret (mkReply escrowId completed (Some (release_message esc)))
  end.

Definition disputeEscrow (now : instant) (escrowId : string)
    (disputerAddress : actor_value) (reason : string)
    (evidence : option string) : M reply :=
  row <- getEscrow escrowId ;;
  match row with
  | None => throw EscrowNotFound
  | Some esc =>
      if negb (status_eqb (status esc) funded || status_eqb (status esc) delivered)
      then throw (CannotDispute (status esc))
      else
        update_by_id escrowId (set_disputed now reason evidence) ;;;
        logEvent now escrowId ev_disputed disputerAddress
          (DataDisputed reason evidence) ;;;
        ret (mkReply escrowId disputed
               (Some "Dispute filed. TrustLayer will review and resolve within 48h."%string))
  end.

Definition resolveDispute (now : instant) (escrowId res winner : string) : M reply :=
  row <- getEscrow escrowId ;;
  match row with
  | None => throw EscrowNotFound
  | Some esc =>
      if negb (status_eqb (status esc) disputed)
      then throw (CannotResolve (status esc))
      else
        let newStatus := if String.eqb winner "buyer" then refunded else completed in
        update_by_id escrowId (set_resolved now newStatus res) ;;;
        logEvent now escrowId ev_resolved (Bindable "trustlayer")
          (DataResolved res winner) ;;;
        ret (mkReply escrowId newStatus
               (Some (if String.eqb winner "buyer"
                      then refund_message esc else release_message esc)))
  end.

(** ** The expiry sweeper *)

Definition release_due (now : instant) (r : escrow) : bool :=
  status_eqb (status r) delivered
  && text_lt (updated_at r) (datetime_minus_1_day now).

Definition refund_due (now : instant) (r : escrow) : bool :=
  status_eqb (status r) funded && text_lt (deadline r) (datetime now).

Definition processExpiredEscrows (now : instant) : M (nat * nat) :=
  autoRelease <- select_where (release_due now) ;;
  for_each autoRelease (fun esc =>
    acceptEscrow now (id esc) ;;;
    logEvent now (id esc) ev_auto_completed (Bindable "system")
      (DataReason "24h acceptance window expired")) ;;;
  autoRefund <- select_where (refund_due now) ;;
  for_each autoRefund (fun esc =>
    update_by_id (id esc) (set_status now refunded) ;;;
    logEvent now (id esc) ev_auto_refunded (Bindable "system")
      (DataReason "Deadline passed without delivery")) ;;;
  ret (List.length autoRelease, List.length autoRefund).

(** [escrowJob] of [src/index.js]: the cron callback catches and logs
    whatever the sweep throws. *)
Definition escrowJob (now : instant) (d : db) : db :=
  fst (processExpiredEscrows now d).

(** ** Runs of the engine *)

(** The five operations that move an existing escrow. *)
Inductive lifecycle_op :=
| Fund (depositTxHash : string)
| Deliver (deliveryProof : string)
| Accept
| Dispute (disputerAddress : actor_value) (reason : string)
          (evidence : option string)
| Resolve (res winner : string).

Definition apply_op (now : instant) (o : lifecycle_op) (escrowId : string)
    : M reply :=
  match o with
  | Fund tx => fundEscrow now escrowId tx
  | Deliver p => deliverEscrow now escrowId p
  | Accept => acceptEscrow now escrowId
  | Dispute a r e => disputeEscrow now escrowId a r e
  | Resolve r w => resolveDispute now escrowId r w
  end.

(** The statuses each operation's guard lets through, and the exception
    it raises on the others. *)
Definition permitted_from (o : lifecycle_op) (s : escrow_status) : bool :=
  match o with
  | Fund _ => status_eqb s created
  | Deliver _ => status_eqb s funded
  | Accept => status_eqb s delivered
  | Dispute _ _ _ => status_eqb s funded || status_eqb s delivered
  | Resolve _ _ => status_eqb s disputed
  end.

Definition refusal (o : lifecycle_op) (s : escrow_status) : error :=
  match o with
  | Fund _ => CannotFund s
  | Deliver _ => CannotDeliver s
  | Accept => CannotAccept s
  | Dispute _ _ _ => CannotDispute s
  | Resolve _ _ => CannotResolve s
  end.

(** The status an operation leaves behind when it succeeds. *)
Definition target_status (o : lifecycle_op) : escrow_status :=
  match o with
  | Fund _ => funded
  | Deliver _ => delivered
  | Accept => completed
  | Dispute _ _ _ => disputed
  | Resolve _ w => if String.eqb w "buyer" then refunded else completed
  end.

Inductive call :=
| CreateEscrow (rand_hex buyerAddress sellerAddress amountUsdc
                serviceDescription : string)
               (acceptanceCriteria : option string) (deadlineHours : Z)
| Lifecycle (o : lifecycle_op) (escrowId : string)
| ProcessExpiredEscrows.

(** The database after a call, whether it returned or threw. *)
Definition perform (now : instant) (c : call) (d : db) : db :=
  match c with
  | CreateEscrow h b s a sd ac dh => fst (createEscrow now h b s a sd ac dh d)
  | Lifecycle o i => fst (apply_op now o i d)
  | ProcessExpiredEscrows => escrowJob now d
  end.

(** The databases a sequence of timed calls passes through. *)
Fixpoint history (cs : list (instant * call)) (d : db) : list db :=
  d :: match cs with
       | [] => []
       | (now, c) :: cs' => history cs' (perform now c d)
       end.

Definition status_of (escrowId : string) (d : db) : option escrow_status :=
  option_map status (find (fun r => String.eqb (id r) escrowId) (escrows d)).

Definition events_of (escrowId : string) (d : db) : list escrow_event :=
  filter (fun e => String.eqb (escrow_id e) escrowId) (escrow_events d).

(** The primary key: no two rows share an [id]. *)
Definition unique_ids (d : db) : Prop := NoDup (map id (escrows d)).


(** One call seen from one escrow id: nothing, creation, or an edge. *)
Definition status_step (E : escrow_status -> escrow_status -> bool)
    (a b : option escrow_status) : Prop :=
  match a, b with
  | None, None => True
  | None, Some s => s = created
  | Some s, Some s' => s = s' \/ E s s' = true
  | Some _, None => False
  end.

(** The states of section 4.1 that carry the same names. *)
Definition to_spec (s : escrow_status) : Spec.state :=
  match s with
  | created => Spec.Created
  | funded => Spec.Funded
  | delivered => Spec.Delivered
  | completed => Spec.Completed
  | disputed => Spec.Disputed
  | refunded => Spec.Refunded
  end.


(** Reading an escrow's status back from its events, oldest first:
    [Some None] before any event, [None] when the events fit no run of
    the engine. *)
Definition replay_event (cur : option escrow_status) (e : escrow_event)
    : option (option escrow_status) :=
  match cur, etype e, data e with
  | None, ev_created, _ => Some (Some created)
  | Some created, ev_funded, _ => Some (Some funded)
  | Some funded, ev_delivered, _ => Some (Some delivered)
  | Some delivered, ev_completed, _ => Some (Some completed)
  | Some completed, ev_auto_completed, _ => Some (Some completed)
  | Some funded, ev_disputed, _ => Some (Some disputed)
  | Some delivered, ev_disputed, _ => Some (Some disputed)
  | Some disputed, ev_resolved, DataResolved _ w =>
      Some (Some (if String.eqb w "buyer" then refunded else completed))
  | Some funded, ev_auto_refunded, _ => Some (Some refunded)
  | _, _, _ => None
  end.

Fixpoint replay (cur : option escrow_status) (es : list escrow_event)
    : option (option escrow_status) :=
  match es with
  | [] => Some cur
  | e :: es' =>
      match replay_event cur e with
      | Some next => replay next es'
      | None => None
      end
  end.

(** The effect of a permitted operation, collected from the five
    functions: the row it writes, the event it logs and what it
    returns. *)
Definition moved (now : instant) (o : lifecycle_op) (r : escrow) : escrow :=
  match o with
  | Fund tx => set_funded now tx r
  | Deliver _ => set_status now delivered r
  | Accept => set_status now completed r
  | Dispute _ reason evidence => set_disputed now reason evidence r
  | Resolve res w =>
      set_resolved now (if String.eqb w "buyer" then refunded else completed) res r
  end.

(** The event a permitted operation logs as the [n]-th of the table;
    none when the address of a dispute does not bind. *)
Definition logged (now : instant) (o : lifecycle_op) (escrowId : string)
    (esc : escrow) (n : nat) : option escrow_event :=
  let mk ty who payload :=
    Some (mkEvent (Z.of_nat n + 1) escrowId ty who payload (datetime now)) in
  match o with
  | Fund tx => mk ev_funded (buyer_address esc) (DataFunded tx)
  | Deliver p => mk ev_delivered (seller_address esc) (DataDelivered p)
  | Accept => mk ev_completed (buyer_address esc) (DataCompleted (seller_address esc))
  | Dispute (Bindable a) reason evidence =>
      mk ev_disputed a (DataDisputed reason evidence)
  | Dispute NotBindable _ _ => None
  | Resolve res w => mk ev_resolved "trustlayer"%string (DataResolved res w)
  end.

(** Whether every value a call hands to [logEvent] binds. *)
Definition binds (c : call) : bool :=
  match c with
  | Lifecycle (Dispute NotBindable _ _) _ => false
  | _ => true
  end.




Definition replied (o : lifecycle_op) (escrowId : string) (esc : escrow) : reply :=
  match o with
  | Fund _ =>
      mkReply escrowId funded
        (Some "Escrow funded. Seller can now perform the service."%string)
  | Deliver _ =>
      mkReply escrowId delivered
        (Some "Delivery recorded. Buyer has 24h to accept or dispute."%string)
  | Accept => mkReply escrowId completed (Some (release_message esc))
  | Dispute _ _ _ =>
      mkReply escrowId disputed
        (Some "Dispute filed. TrustLayer will review and resolve within 48h."%string)
  | Resolve _ w =>
      mkReply escrowId (if String.eqb w "buyer" then refunded else completed)
        (Some (if String.eqb w "buyer"
               then refund_message esc else release_message esc))
  end.


(** One table row after a sweep. *)
Definition sweep_row (now : instant) (r : escrow) : escrow :=
  if release_due now r then set_status now completed r
  else if refund_due now r then set_status now refunded r
  else r.

(** The row that [createEscrow] inserts. *)
Definition new_row (now : instant) (rand_hex b s a sd : string)
    (ac : option string) (dl : string) : escrow :=
  mkEscrow ("esc_" ++ rand_hex) b s a sd ac dl created
    None None None None None None (datetime now) (datetime now).

(** Rows whose id was selected are rewritten by [f]. *)
Definition touch (ids : list string) (f : escrow -> escrow) (r : escrow) : escrow :=
  if existsb (String.eqb (id r)) ids then f r else r.

(** ** Queries *)

(** [SUM(expr)] over the rows of a table; over no rows it is NULL. *)
Definition sql_sum (expr : escrow -> Z) (rows : list escrow) : option Z :=
  match rows with
  | [] => None
  | _ => Some (fold_right (fun r acc => expr r + acc) 0 rows)
  end.

(** [CASE WHEN cond THEN 1 ELSE 0 END]. *)
Definition case_when (cond : escrow -> bool) (r : escrow) : Z :=
  if cond r then 1 else 0.

(** The row that [getEscrowStats] returns, with the columns [total],
    [completed], [disputed], [refunded] and [active]. *)
Record stats := mkStats {
  stats_total : Z;
  stats_completed : option Z;
  stats_disputed : option Z;
  stats_refunded : option Z;
  stats_active : option Z
}.

Definition getEscrowStats : M stats :=
  fun d =>
    let rows := escrows d in
    (d, Return
          (mkStats
             (Z.of_nat (List.length rows))
             (sql_sum (case_when (fun r => status_eqb (status r) completed)) rows)
             (sql_sum (case_when (fun r => status_eqb (status r) disputed)) rows)
             (sql_sum (case_when (fun r => status_eqb (status r) refunded)) rows)
             (sql_sum (case_when (fun r => status_eqb (status r) created
                                           || status_eqb (status r) funded
                                           || status_eqb (status r) delivered))
                      rows))).

(** ** What the engine keeps *)

(** The columns that no statement of the engine updates. *)
Definition fixed_columns (r : escrow)
    : string * string * string * string * string * option string * string * string :=
  (id r, buyer_address r, seller_address r, amount_usdc r,
   service_description r, acceptance_criteria r, deadline r, created_at r).

(** [d'] has the rows of [d], in their order and with their fixed
    columns, possibly followed by new rows, and the events of [d]
    followed by new events. *)
Definition grows (d d' : db) : Prop :=
  exists rows evs,
    map fixed_columns (escrows d') = map fixed_columns (escrows d) ++ rows /\
    escrow_events d' = escrow_events d ++ evs.

(** A statement or a function keeps the records when the database it
    leaves grows out of the one it found, whether it returns or throws. *)
Definition keeps {A} (c : M A) : Prop := forall d, grows d (fst (c d)).




(** The database after a sequence of timed calls. *)
Fixpoint perform_all (cs : list (instant * call)) (d : db) : db :=
  match cs with
  | [] => d
  | (now, c) :: cs' => perform_all cs' (perform now c d)
  end.

End Offchain.

(* ================================================================== *)
(** * The contract of trustless mode: contracts/ClawVault.sol *)
(* ================================================================== *)

Module ClawVault.

Definition address := Z.
Definition uint256 := Z.
Definition bytes32 := Z.

Definition MAX_UINT256 : Z := 2 ^ 256 - 1.

Inductive Status :=
  Active | Delivered | Completed | Disputed | Refunded | Resolved.

Definition Status_eqb (a b : Status) : bool :=
  match a, b with
  | Active, Active | Delivered, Delivered | Completed, Completed
  | Disputed, Disputed | Refunded, Refunded | Resolved, Resolved => true
  | _, _ => false
  end.

Record Escrow := mkEscrow {
  buyer : address;
  seller : address;
  amount : uint256;
  fee : uint256;
  serviceHash : bytes32;
  deliveryHash : bytes32;
  deadline : uint256;
  deliveredAt : uint256;
  acceptanceWindow : uint256;
  status : Status;
  disputeReason : string
}.

(** The value of a mapping slot that was never written. *)
Definition zero_escrow : Escrow :=
  mkEscrow 0 0 0 0 0 0 0 0 0 Active "".

Inductive Event :=
| EscrowCreated (escrowId : uint256) (b s : address) (amt dl : uint256) (h : bytes32)
| DeliveryMarked (escrowId : uint256) (h : bytes32)
| DeliveryAccepted (escrowId amountToSeller : uint256)
| DisputeOpened (escrowId : uint256) (reason : string)
| DisputeResolved (escrowId : uint256) (winner : address) (amt : uint256)
| EscrowRefunded (escrowId amountToBuyer : uint256)
| EscrowClaimedByTimeout (escrowId amountToSeller : uint256)
| ArbiterUpdated (oldArbiter newArbiter : address)
| FeeUpdated (oldFee newFee : uint256).

(** The USDC token, an external ERC-20 contract, reduced to its ledger:
    balances and allowances.  SafeERC20 reverts whenever a transfer
    fails.  The ledger never calls back into the vault, so the
    [nonReentrant] modifier has nothing to exclude here and is left out. *)
Record token := mkToken {
  balanceOf : address -> Z;
  allowance : address -> address -> Z
}.

Record state := mkState {
  usdc : token;
  arbiter : address;
  feeRecipient : address;
  feeBps : uint256;
  nextEscrowId : uint256;
  escrows : uint256 -> Escrow;
  totalEscrowsCreated : uint256;
  totalVolumeUsdc : uint256;
  totalFeesCollected : uint256;
  logs : list Event
}.

(** What a transaction sees of its environment: [msg.sender],
    [block.timestamp] and [address(this)]. *)
Record env := mkEnv {
  msg_sender : address;
  block_timestamp : uint256;
  this : address
}.

Definition MAX_FEE : Z := 500.
Definition MIN_ACCEPTANCE_WINDOW : Z := 3600.          (* 1 hours *)
Definition MAX_ACCEPTANCE_WINDOW : Z := 7 * 86400.     (* 7 days *)
(** The bounds [1 hours] and [90 days] that [createEscrow] puts on
    [_deadlineSeconds]. *)
Definition MIN_DEADLINE : Z := 3600.
Definition MAX_DEADLINE : Z := 90 * 86400.

(** ** Transactions

    A transaction either succeeds with a new state and a value, or
    reverts with a reason and leaves the state as it was. *)

Inductive result (A : Type) :=
| Ok (s : state) (a : A)
| Revert (reason : string).
Arguments Ok {A} s a.
Arguments Revert {A} reason.

Definition C (A : Type) : Type := state -> result A.

Definition ret {A} (a : A) : C A := fun s => Ok s a.
Definition revert {A} (reason : string) : C A := fun _ => Revert reason.
Definition bind {A B} (c : C A) (k : A -> C B) : C B :=
  fun s => match c s with
           | Ok s' a => k a s'
           | Revert r => Revert r
           end.

Notation "x <- c ;; k" := (bind c (fun x => k))
  (at level 61, c at next level, right associativity).
Notation "c ;;; k" := (bind c (fun _ => k))
  (at level 61, right associativity).

Definition require (b : bool) (reason : string) : C unit :=
  if b then ret tt else revert reason.

Definition get {A} (f : state -> A) : C A := fun s => Ok s (f s).
Definition modify (f : state -> state) : C unit := fun s => Ok (f s) tt.

(** Checked arithmetic of Solidity 0.8: overflow is a panic. *)
Definition PANIC_OVERFLOW : string := "Panic(0x11)".

Definition add (a b : uint256) : C uint256 :=
  if a + b <=? MAX_UINT256 then ret (a + b) else revert PANIC_OVERFLOW.

Definition mul (a b : uint256) : C uint256 :=
  if a * b <=? MAX_UINT256 then ret (a * b) else revert PANIC_OVERFLOW.

(** State updates. *)
Definition upd {V} (m : Z -> V) (k : Z) (v : V) : Z -> V :=
  fun k' => if k' =? k then v else m k'.

Definition set_usdc (t : token) (s : state) : state :=
  mkState t (arbiter s) (feeRecipient s) (feeBps s) (nextEscrowId s)
    (escrows s) (totalEscrowsCreated s) (totalVolumeUsdc s)
    (totalFeesCollected s) (logs s).

Definition set_escrow (i : uint256) (e : Escrow) (s : state) : state :=
  mkState (usdc s) (arbiter s) (feeRecipient s) (feeBps s) (nextEscrowId s)
    (upd (escrows s) i e) (totalEscrowsCreated s) (totalVolumeUsdc s)
    (totalFeesCollected s) (logs s).

Definition set_nextEscrowId (n : uint256) (s : state) : state :=
  mkState (usdc s) (arbiter s) (feeRecipient s) (feeBps s) n
    (escrows s) (totalEscrowsCreated s) (totalVolumeUsdc s)
    (totalFeesCollected s) (logs s).

Definition set_totalEscrowsCreated (n : uint256) (s : state) : state :=
  mkState (usdc s) (arbiter s) (feeRecipient s) (feeBps s) (nextEscrowId s)
    (escrows s) n (totalVolumeUsdc s) (totalFeesCollected s) (logs s).

Definition set_totalVolumeUsdc (n : uint256) (s : state) : state :=
  mkState (usdc s) (arbiter s) (feeRecipient s) (feeBps s) (nextEscrowId s)
    (escrows s) (totalEscrowsCreated s) n (totalFeesCollected s) (logs s).

Definition set_totalFeesCollected (n : uint256) (s : state) : state :=
  mkState (usdc s) (arbiter s) (feeRecipient s) (feeBps s) (nextEscrowId s)
    (escrows s) (totalEscrowsCreated s) (totalVolumeUsdc s) n (logs s).

Definition set_admin (arb rcpt : address) (bps : uint256) (s : state) : state :=
  mkState (usdc s) arb rcpt bps (nextEscrowId s)
    (escrows s) (totalEscrowsCreated s) (totalVolumeUsdc s)
    (totalFeesCollected s) (logs s).

Definition push_log (ev : Event) (s : state) : state :=
  mkState (usdc s) (arbiter s) (feeRecipient s) (feeBps s) (nextEscrowId s)
    (escrows s) (totalEscrowsCreated s) (totalVolumeUsdc s)
    (totalFeesCollected s) (logs s ++ [ev]).

Definition emit (ev : Event) : C unit := modify (push_log ev).

Definition with_status (st : Status) (e : Escrow) : Escrow :=
  mkEscrow (buyer e) (seller e) (amount e) (fee e) (serviceHash e)
    (deliveryHash e) (deadline e) (deliveredAt e) (acceptanceWindow e)
    st (disputeReason e).

(** [e.deliveryHash = h; e.deliveredAt = t; e.status = Delivered]. *)
Definition with_delivery (h : bytes32) (t : uint256) (e : Escrow) : Escrow :=
  mkEscrow (buyer e) (seller e) (amount e) (fee e) (serviceHash e)
    h (deadline e) t (acceptanceWindow e) Delivered (disputeReason e).

(** [e.status = Disputed; e.disputeReason = r]. *)
Definition with_dispute (r : string) (e : Escrow) : Escrow :=
  mkEscrow (buyer e) (seller e) (amount e) (fee e) (serviceHash e)
    (deliveryHash e) (deadline e) (deliveredAt e) (acceptanceWindow e)
    Disputed r.

(** Token calls. *)
Definition move (t : token) (from to : address) (n : Z) : token :=
  let b1 := upd (balanceOf t) from (balanceOf t from - n) in
  mkToken (upd b1 to (b1 to + n)) (allowance t).

Definition safeTransferFrom (E : env) (from to : address) (n : uint256) : C unit :=
  t <- get usdc ;;
  require (n <=? allowance t from (this E)) "ERC20: insufficient allowance" ;;;
  require (n <=? balanceOf t from) "ERC20: transfer amount exceeds balance" ;;;
  let t' := move t from to n in
  modify (set_usdc
    (mkToken (balanceOf t')
       (fun o sp => if (o =? from) && (sp =? this E)
                    then allowance t o sp - n else allowance t o sp))).

Definition safeTransfer (E : env) (to : address) (n : uint256) : C unit :=
  t <- get usdc ;;
  require (n <=? balanceOf t (this E)) "ERC20: transfer amount exceeds balance" ;;;
  modify (set_usdc (move t (this E) to n)).

(** Modifiers. *)
Definition onlyBuyer (E : env) (i : uint256) : C unit :=
  e <- get (fun s => escrows s i) ;;
  require (msg_sender E =? buyer e) "Not buyer".

Definition onlySeller (E : env) (i : uint256) : C unit :=
  e <- get (fun s => escrows s i) ;;
  require (msg_sender E =? seller e) "Not seller".

Definition onlyArbiter (E : env) : C unit :=
  a <- get arbiter ;;
  require (msg_sender E =? a) "Not arbiter".

(** [constructor]. *)
Definition constructor (usdc0 : token) (_usdc _arbiter _feeRecipient : address)
    (_feeBps : uint256) : option state :=
  if negb (_usdc =? 0) && negb (_arbiter =? 0) && negb (_feeRecipient =? 0)
     && (_feeBps <=? MAX_FEE)
  then Some (mkState usdc0 _arbiter _feeRecipient _feeBps 0
               (fun _ => zero_escrow) 0 0 0 [])
  else None.

(** ** Core escrow lifecycle *)

Definition createEscrow (E : env) (_seller : address) (_amount : uint256)
    (_serviceHash : bytes32) (_deadlineSeconds _acceptanceWindowSeconds : uint256)
    : C uint256 :=
  require (negb (_seller =? 0) && negb (_seller =? msg_sender E)) "Invalid seller" ;;;
  require (0 <? _amount) "Amount must be > 0" ;;;
  require (MIN_DEADLINE <=? _deadlineSeconds) "Deadline too short" ;;;
  require (_deadlineSeconds <=? MAX_DEADLINE) "Deadline too long" ;;;
  require ((MIN_ACCEPTANCE_WINDOW <=? _acceptanceWindowSeconds)
           && (_acceptanceWindowSeconds <=? MAX_ACCEPTANCE_WINDOW))
          "Invalid acceptance window" ;;;
  bps <- get feeBps ;;
  scaled <- mul _amount bps ;;
  let fee := scaled / 10000 in
  total <- add _amount fee ;;
  safeTransferFrom E (msg_sender E) (this E) total ;;;
  escrowId <- get nextEscrowId ;;
  next <- add escrowId 1 ;;
  modify (set_nextEscrowId next) ;;;
  dl <- add (block_timestamp E) _deadlineSeconds ;;
  modify (set_escrow escrowId
    (mkEscrow (msg_sender E) _seller _amount fee _serviceHash 0 dl 0
       _acceptanceWindowSeconds Active "")) ;;;
  created <- get totalEscrowsCreated ;;
  created' <- add created 1 ;;
  modify (set_totalEscrowsCreated created') ;;;
  volume <- get totalVolumeUsdc ;;
  volume' <- add volume _amount ;;
  modify (set_totalVolumeUsdc volume') ;;;
  emit (EscrowCreated escrowId (msg_sender E) _seller _amount dl _serviceHash) ;;;
  ret escrowId.

Definition markDelivered (E : env) (_escrowId : uint256) (_deliveryHash : bytes32)
    : C unit :=
  onlySeller E _escrowId ;;;
  e <- get (fun s => escrows s _escrowId) ;;
  require (Status_eqb (status e) Active) "Not active" ;;;
  require (block_timestamp E <=? deadline e) "Deadline passed" ;;;
  require (negb (_deliveryHash =? 0)) "Empty proof" ;;;
  modify (set_escrow _escrowId (with_delivery _deliveryHash (block_timestamp E) e)) ;;;
  emit (DeliveryMarked _escrowId _deliveryHash).

(** Payment of the seller and of the protocol fee, as [acceptDelivery],
    [claimByTimeout] and [resolveDispute] each spell it out. *)
Definition pay_seller (E : env) (e : Escrow) : C unit :=
  safeTransfer E (seller e) (amount e) ;;;
  if 0 <? fee e then
    rcpt <- get feeRecipient ;;
    safeTransfer E rcpt (fee e) ;;;
    collected <- get totalFeesCollected ;;
    collected' <- add collected (fee e) ;;
    modify (set_totalFeesCollected collected')
  else ret tt.

Definition acceptDelivery (E : env) (_escrowId : uint256) : C unit :=
  onlyBuyer E _escrowId ;;;
  e <- get (fun s => escrows s _escrowId) ;;
  require (Status_eqb (status e) Delivered) "Not delivered" ;;;
  modify (set_escrow _escrowId (with_status Completed e)) ;;;
  pay_seller E e ;;;
  emit (DeliveryAccepted _escrowId (amount e)).

Definition openDispute (E : env) (_escrowId : uint256) (_reason : string) : C unit :=
  onlyBuyer E _escrowId ;;;
  e <- get (fun s => escrows s _escrowId) ;;
  require (Status_eqb (status e) Delivered) "Not delivered" ;;;
  limit <- add (deliveredAt e) (acceptanceWindow e) ;;
  require (block_timestamp E <=? limit) "Acceptance window expired" ;;;
  require (negb (String.eqb _reason "")) "Reason required" ;;;
  modify (set_escrow _escrowId (with_dispute _reason e)) ;;;
  emit (DisputeOpened _escrowId _reason).

Definition resolveDispute (E : env) (_escrowId : uint256) (_buyerWins : bool)
    : C unit :=
  onlyArbiter E ;;;
  e <- get (fun s => escrows s _escrowId) ;;
  require (Status_eqb (status e) Disputed) "Not disputed" ;;;
  modify (set_escrow _escrowId (with_status Resolved e)) ;;;
  if _buyerWins then
    refund <- add (amount e) (fee e) ;;
    safeTransfer E (buyer e) refund ;;;
    emit (DisputeResolved _escrowId (buyer e) refund)
  else
    pay_seller E e ;;;
    emit (DisputeResolved _escrowId (seller e) (amount e)).

(** ** Timeout claims *)

Definition reclaimExpired (E : env) (_escrowId : uint256) : C unit :=
  onlyBuyer E _escrowId ;;;
  e <- get (fun s => escrows s _escrowId) ;;
  require (Status_eqb (status e) Active) "Not active" ;;;
  require (deadline e <? block_timestamp E) "Deadline not passed" ;;;
  modify (set_escrow _escrowId (with_status Refunded e)) ;;;
  refund <- add (amount e) (fee e) ;;
  safeTransfer E (buyer e) refund ;;;
  emit (EscrowRefunded _escrowId refund).

Definition claimByTimeout (E : env) (_escrowId : uint256) : C unit :=
  onlySeller E _escrowId ;;;
  e <- get (fun s => escrows s _escrowId) ;;
  require (Status_eqb (status e) Delivered) "Not delivered" ;;;
  limit <- add (deliveredAt e) (acceptanceWindow e) ;;
  require (limit <? block_timestamp E) "Acceptance window not expired" ;;;
  modify (set_escrow _escrowId (with_status Completed e)) ;;;
  pay_seller E e ;;;
  emit (EscrowClaimedByTimeout _escrowId (amount e)).

(** ** Views *)

Definition getEscrow (_escrowId : uint256) : C Escrow :=
  get (fun s => escrows s _escrowId).

Definition getStats : C (uint256 * uint256 * uint256 * uint256) :=
  get (fun s => (totalEscrowsCreated s, totalVolumeUsdc s,
                 totalFeesCollected s, nextEscrowId s)).

Definition canReclaim (E : env) (_escrowId : uint256) : C bool :=
  e <- get (fun s => escrows s _escrowId) ;;
  ret (Status_eqb (status e) Active && (deadline e <? block_timestamp E)).

(** [&&] evaluates the checked sum only when the status is [Delivered]. *)
Definition canClaimByTimeout (E : env) (_escrowId : uint256) : C bool :=
  e <- get (fun s => escrows s _escrowId) ;;
  if Status_eqb (status e) Delivered then
    limit <- add (deliveredAt e) (acceptanceWindow e) ;;
    ret (limit <? block_timestamp E)
  else ret false.

(** ** Admin *)

Definition updateArbiter (E : env) (_newArbiter : address) : C unit :=
  onlyArbiter E ;;;
  require (negb (_newArbiter =? 0)) "Invalid" ;;;
  old <- get arbiter ;;
  emit (ArbiterUpdated old _newArbiter) ;;;
  modify (fun s => set_admin _newArbiter (feeRecipient s) (feeBps s) s).

Definition updateFee (E : env) (_newFeeBps : uint256) : C unit :=
  onlyArbiter E ;;;
  require (_newFeeBps <=? MAX_FEE) "Too high" ;;;
  old <- get feeBps ;;
  emit (FeeUpdated old _newFeeBps) ;;;
  modify (fun s => set_admin (arbiter s) (feeRecipient s) _newFeeBps s).

Definition updateFeeRecipient (E : env) (_newRecipient : address) : C unit :=
  onlyArbiter E ;;;
  require (negb (_newRecipient =? 0)) "Invalid" ;;;
  modify (fun s => set_admin (arbiter s) _newRecipient (feeBps s) s).

(** ** Runs of the contract *)

Inductive call :=
| CreateEscrow (_seller : address) (_amount : uint256) (_serviceHash : bytes32)
               (_deadlineSeconds _acceptanceWindowSeconds : uint256)
| MarkDelivered (_escrowId : uint256) (_deliveryHash : bytes32)
| AcceptDelivery (_escrowId : uint256)
| OpenDispute (_escrowId : uint256) (_reason : string)
| ResolveDispute (_escrowId : uint256) (_buyerWins : bool)
| ReclaimExpired (_escrowId : uint256)
| ClaimByTimeout (_escrowId : uint256)
| UpdateArbiter (_newArbiter : address)
| UpdateFee (_newFeeBps : uint256)
| UpdateFeeRecipient (_newRecipient : address).

Definition after {A} (r : result A) (s : state) : state :=
  match r with
  | Ok s' _ => s'
  | Revert _ => s
  end.

Definition succeeded {A} (r : result A) : bool :=
  match r with
  | Ok _ _ => true
  | Revert _ => false
  end.

Definition outcome_of {A} (r : result A) : result unit :=
  match r with
  | Ok s _ => Ok s tt
  | Revert m => Revert m
  end.

Definition run (E : env) (c : call) (s : state) : result unit :=
  match c with
  | CreateEscrow sl a h d w => outcome_of (createEscrow E sl a h d w s)
  | MarkDelivered i h => markDelivered E i h s
  | AcceptDelivery i => acceptDelivery E i s
  | OpenDispute i r => openDispute E i r s
  | ResolveDispute i b => resolveDispute E i b s
  | ReclaimExpired i => reclaimExpired E i s
  | ClaimByTimeout i => claimByTimeout E i s
  | UpdateArbiter a => updateArbiter E a s
  | UpdateFee f => updateFee E f s
  | UpdateFeeRecipient r => updateFeeRecipient E r s
  end.

(** The state after a transaction, reverted or not. *)
Definition perform (E : env) (c : call) (s : state) : state :=
  after (run E c s) s.

Fixpoint history (cs : list (env * call)) (s : state) : list state :=
  s :: match cs with
       | [] => []
       | (E, c) :: cs' => history cs' (perform E c s)
       end.

Fixpoint perform_all (cs : list (env * call)) (s : state) : state :=
  match cs with
  | [] => s
  | (E, c) :: cs' => perform_all cs' (perform E c s)
  end.

(** An escrow exists once its id has been handed out. *)
Definition status_of (i : uint256) (s : state) : option Status :=
  if (0 <=? i) && (i <? nextEscrowId s) then Some (status (escrows s i)) else None.

(** [Active] is the funded state of section 4.1: creation and funding
    are one transaction. *)
Definition to_spec (st : Status) : Spec.state :=
  match st with
  | Active => Spec.Funded
  | Delivered => Spec.Delivered
  | Completed => Spec.Completed
  | Disputed => Spec.Disputed
  | Refunded => Spec.Refunded
  | Resolved => Spec.Resolved
  end.

Definition status_step (a b : option Status) : Prop :=
  match a, b with
  | None, None => True
  | None, Some st => st = Active
  | Some st, Some st' => st = st' \/ Spec.edge (to_spec st) (to_spec st') = true
  | Some _, None => False
  end.

(** What a successful transaction writes to the mapping and to the id
    counter, and the status it requires of the escrow it names. *)
Definition written (E : env) (c : call) (s : state) : (uint256 -> Escrow) * uint256 :=
  match c with
  | CreateEscrow sl a h d w =>
      (upd (escrows s) (nextEscrowId s)
         (mkEscrow (msg_sender E) sl a (a * feeBps s / 10000) h 0
            (block_timestamp E + d) 0 w Active ""),
       nextEscrowId s + 1)
  | MarkDelivered i h =>
      (upd (escrows s) i (with_delivery h (block_timestamp E) (escrows s i)),
       nextEscrowId s)
  | AcceptDelivery i | ClaimByTimeout i =>
      (upd (escrows s) i (with_status Completed (escrows s i)), nextEscrowId s)
  | OpenDispute i r =>
      (upd (escrows s) i (with_dispute r (escrows s i)), nextEscrowId s)
  | ResolveDispute i _ =>
      (upd (escrows s) i (with_status Resolved (escrows s i)), nextEscrowId s)
  | ReclaimExpired i =>
      (upd (escrows s) i (with_status Refunded (escrows s i)), nextEscrowId s)
  | UpdateArbiter _ | UpdateFee _ | UpdateFeeRecipient _ =>
      (escrows s, nextEscrowId s)
  end.

Definition source (c : call) : option (uint256 * Status) :=
  match c with
  | MarkDelivered i _ | ReclaimExpired i => Some (i, Active)
  | AcceptDelivery i | OpenDispute i _ | ClaimByTimeout i => Some (i, Delivered)
  | ResolveDispute i _ => Some (i, Disputed)
  | _ => None
  end.

(** The conditions on caller, time and arguments that a successful
    transaction has passed. *)
Definition passed (E : env) (c : call) (s : state) : Prop :=
  match c with
  | CreateEscrow sl a h d w =>
      sl <> 0 /\ sl <> msg_sender E /\ 0 < a /\
      MIN_DEADLINE <= d <= MAX_DEADLINE /\
      MIN_ACCEPTANCE_WINDOW <= w <= MAX_ACCEPTANCE_WINDOW
  | MarkDelivered i h =>
      msg_sender E = seller (escrows s i) /\
      block_timestamp E <= deadline (escrows s i) /\ h <> 0
  | AcceptDelivery i => msg_sender E = buyer (escrows s i)
  | OpenDispute i r =>
      msg_sender E = buyer (escrows s i) /\
      block_timestamp E <= deliveredAt (escrows s i) + acceptanceWindow (escrows s i) /\
      r <> ""%string
  | ResolveDispute i _ => msg_sender E = arbiter s
  | ReclaimExpired i =>
      msg_sender E = buyer (escrows s i) /\
      deadline (escrows s i) < block_timestamp E
  | ClaimByTimeout i =>
      msg_sender E = seller (escrows s i) /\
      deliveredAt (escrows s i) + acceptanceWindow (escrows s i) < block_timestamp E
  | UpdateArbiter _ | UpdateFee _ | UpdateFeeRecipient _ =>
      msg_sender E = arbiter s
  end.

(** The token ledger after the payments of a resolution. *)
Definition refunded_to_buyer (E : env) (e : Escrow) (t : token) : token :=
  move t (this E) (buyer e) (amount e + fee e).

Definition paid_to_seller (E : env) (e : Escrow) (rcpt : address) (t : token) : token :=
  let t1 := move t (this E) (seller e) (amount e) in
  if 0 <? fee e then move t1 (this E) rcpt (fee e) else t1.

(** ** Accounting

    What the vault holds for its escrows, and what a successful
    transaction does to the token ledger, to the admin settings, to the
    counters and to the event log. *)

(** The statuses in which the funds of an escrow are still in the
    vault. *)
Definition holds_funds (st : Status) : bool :=
  match st with
  | Active | Delivered | Disputed => true
  | Completed | Refunded | Resolved => false
  end.

Definition held (e : Escrow) : Z :=
  if holds_funds (status e) then amount e + fee e else 0.

(** [g 0 + ... + g (n - 1)]. *)
Fixpoint sum_to (n : nat) (g : Z -> Z) : Z :=
  match n with
  | O => 0
  | S k => sum_to k g + g (Z.of_nat k)
  end.

(** The sum of [held] over the ids handed out so far. *)
Definition total_held (s : state) : Z :=
  sum_to (Z.to_nat (nextEscrowId s)) (fun i => held (escrows s i)).

(** The sum of the amounts of the escrows created so far. *)
Definition total_amount (s : state) : Z :=
  sum_to (Z.to_nat (nextEscrowId s)) (fun i => amount (escrows s i)).

(** The values of the ABI types [uint256], [address] and [bytes32]. *)
Definition is_uint256 (n : Z) : Prop := 0 <= n <= MAX_UINT256.
Definition is_address (a : Z) : Prop := 0 <= a < 2 ^ 160.
Definition is_bytes32 (h : Z) : Prop := 0 <= h < 2 ^ 256.

(** The arguments of a call are values of their types. *)
Definition abi_ok (c : call) : Prop :=
  match c with
  | CreateEscrow sl a h d w =>
      is_address sl /\ is_uint256 a /\ is_bytes32 h /\ is_uint256 d /\ is_uint256 w
  | MarkDelivered i h => is_uint256 i /\ is_bytes32 h
  | AcceptDelivery i | OpenDispute i _ | ResolveDispute i _
  | ReclaimExpired i | ClaimByTimeout i => is_uint256 i
  | UpdateArbiter a | UpdateFeeRecipient a => is_address a
  | UpdateFee f => is_uint256 f
  end.

(** The ledger after [safeTransferFrom from (this E) n]. *)
Definition pulled (E : env) (from : address) (n : Z) (t : token) : token :=
  mkToken (balanceOf (move t from (this E) n))
    (fun o sp => if (o =? from) && (sp =? this E)
                 then allowance t o sp - n else allowance t o sp).

(** The token ledger after a successful transaction. *)
Definition settled (E : env) (c : call) (s : state) : token :=
  match c with
  | CreateEscrow _ a _ _ _ =>
      pulled E (msg_sender E) (a + a * feeBps s / 10000) (usdc s)
  | AcceptDelivery i | ClaimByTimeout i =>
      paid_to_seller E (escrows s i) (feeRecipient s) (usdc s)
  | ResolveDispute i b =>
      if b then refunded_to_buyer E (escrows s i) (usdc s)
      else paid_to_seller E (escrows s i) (feeRecipient s) (usdc s)
  | ReclaimExpired i => refunded_to_buyer E (escrows s i) (usdc s)
  | MarkDelivered _ _ | OpenDispute _ _
  | UpdateArbiter _ | UpdateFee _ | UpdateFeeRecipient _ => usdc s
  end.

(** The admin settings [(arbiter, feeRecipient, feeBps)] after a
    successful transaction. *)
Definition administered (c : call) (s : state) : address * address * uint256 :=
  match c with
  | UpdateArbiter a => (a, feeRecipient s, feeBps s)
  | UpdateFee f => (arbiter s, feeRecipient s, f)
  | UpdateFeeRecipient r => (arbiter s, r, feeBps s)
  | _ => (arbiter s, feeRecipient s, feeBps s)
  end.

(** The events a successful transaction emits. *)
Definition emitted (E : env) (c : call) (s : state) : list Event :=
  match c with
  | CreateEscrow sl a h d w =>
      [EscrowCreated (nextEscrowId s) (msg_sender E) sl a (block_timestamp E + d) h]
  | MarkDelivered i h => [DeliveryMarked i h]
  | AcceptDelivery i => [DeliveryAccepted i (amount (escrows s i))]
  | OpenDispute i r => [DisputeOpened i r]
  | ResolveDispute i b =>
      [DisputeResolved i
         (if b then buyer (escrows s i) else seller (escrows s i))
         (if b then amount (escrows s i) + fee (escrows s i)
          else amount (escrows s i))]
  | ReclaimExpired i =>
      [EscrowRefunded i (amount (escrows s i) + fee (escrows s i))]
  | ClaimByTimeout i => [EscrowClaimedByTimeout i (amount (escrows s i))]
  | UpdateArbiter a => [ArbiterUpdated (arbiter s) a]
  | UpdateFee f => [FeeUpdated (feeBps s) f]
  | UpdateFeeRecipient _ => []
  end.

(** The fee that a successful transaction hands to the fee recipient. *)
Definition fee_paid (c : call) (s : state) : Z :=
  match c with
  | AcceptDelivery i | ClaimByTimeout i => Z.max 0 (fee (escrows s i))
  | ResolveDispute i false => Z.max 0 (fee (escrows s i))
  | _ => 0
  end.

(** The counters [(totalEscrowsCreated, totalVolumeUsdc,
    totalFeesCollected)] after a successful transaction. *)
Definition counted (c : call) (s : state) : uint256 * uint256 * uint256 :=
  match c with
  | CreateEscrow _ a _ _ _ =>
      (totalEscrowsCreated s + 1, totalVolumeUsdc s + a, totalFeesCollected s)
  | _ =>
      (totalEscrowsCreated s, totalVolumeUsdc s, totalFeesCollected s + fee_paid c s)
  end.

(** The vault can pay what its escrows hold: the fee rate, the amounts
    and the fees are not negative, an escrow's amount and fee add up
    without overflow, the slots of ids not handed out hold nothing, and
    the vault's token balance covers the total. *)
Definition solvent (vault : address) (s : state) : Prop :=
  0 <= nextEscrowId s /\ 0 <= feeBps s /\
  (forall i, 0 <= amount (escrows s i) /\ 0 <= fee (escrows s i) /\
     amount (escrows s i) + fee (escrows s i) <= MAX_UINT256) /\
  (forall i, ~ 0 <= i < nextEscrowId s ->
     amount (escrows s i) = 0 /\ fee (escrows s i) = 0) /\
  total_held s <= balanceOf (usdc s) vault.

(** A transaction of the vault at address [vault], sent by someone
    else. *)
Definition sent_to (vault : address) (Ec : env * call) : Prop :=
  this (fst Ec) = vault /\ msg_sender (fst Ec) <> vault /\ abi_ok (snd Ec).

(** The states a vault at address [vault] passes through.  Between its
    transactions the token ledger changes as other holders transfer and
    approve; the vault approves no spender, so its own balance does not
    drop there. *)
Inductive evolves (vault : address) : state -> state -> Prop :=
| evolves_refl s : evolves vault s s
| evolves_call s E c s' :
    sent_to vault (E, c) -> evolves vault (perform E c s) s' -> evolves vault s s'
| evolves_token s t s' :
    balanceOf (usdc s) vault <= balanceOf t vault ->
    evolves vault (set_usdc t s) s' -> evolves vault s s'.

(** The ids of the [EscrowCreated] events of a log, oldest first. *)
Definition created_ids (l : list Event) : list uint256 :=
  flat_map (fun ev => match ev with
                      | EscrowCreated i _ _ _ _ _ => [i]
                      | _ => []
                      end) l.

(** The ids [0, ..., n - 1]. *)
Definition ids_below (n : uint256) : list uint256 :=
  map Z.of_nat (seq 0 (Z.to_nat n)).

(** The addresses whose token balance a transaction may change. *)
Definition payees (E : env) (c : call) (s : state) : list address :=
  match c with
  | CreateEscrow _ _ _ _ _ => [msg_sender E; this E]
  | AcceptDelivery i | ClaimByTimeout i | ResolveDispute i false =>
      [this E; seller (escrows s i); feeRecipient s]
  | ResolveDispute i true | ReclaimExpired i => [this E; buyer (escrows s i)]
  | MarkDelivered _ _ | OpenDispute _ _
  | UpdateArbiter _ | UpdateFee _ | UpdateFeeRecipient _ => []
  end.

(** What the stored record says of an escrow's delivery. *)
Definition delivery_recorded (e : Escrow) : Prop :=
  match status e with
  | Active | Refunded => deliveredAt e = 0 /\ deliveryHash e = 0
  | Delivered | Completed | Disputed | Resolved =>
      deliveredAt e <= deadline e /\ deliveryHash e <> 0
  end.

(** The terms of an escrow that are fixed when it is created. *)
Definition terms (e : Escrow)
    : address * address * uint256 * uint256 * bytes32 * uint256 * uint256 :=
  (buyer e, seller e, amount e, fee e, serviceHash e, deadline e,
   acceptanceWindow e).

End ClawVault.

(* ================================================================== *)
(** * Scenarios *)
(* ================================================================== *)

(** One escrow of the internal ledger, created at the epoch with a deadline
    one hour later, then moved by the buyer ["0xB"] and the seller
    ["0xS"]. *)

Definition db_created : Offchain.db :=
  Offchain.perform 0
    (Offchain.CreateEscrow "aa" "0xB" "0xS" "100" "X" None 1) Offchain.empty_db.

Definition db_funded : Offchain.db :=
  Offchain.perform 1000 (Offchain.Lifecycle (Offchain.Fund "0xtx") "esc_aa") db_created.

Definition db_delivered : Offchain.db :=
  Offchain.perform 2000 (Offchain.Lifecycle (Offchain.Deliver "proof") "esc_aa") db_funded.

Definition db_completed : Offchain.db :=
  Offchain.perform 3000 (Offchain.Lifecycle Offchain.Accept "esc_aa") db_delivered.

Definition db_disputed : Offchain.db :=
  Offchain.perform 3000
    (Offchain.Lifecycle
       (Offchain.Dispute (Offchain.Bindable "0xB") "not as described" None)
       "esc_aa")
    db_delivered.

(** A vault with one escrow of 100 USDC (fee 1%) between buyer 11 and
    seller 12, arbiter 13, fee recipient 14, contract address 99. *)

Definition vault_token : ClawVault.token :=
  ClawVault.mkToken (fun a => if a =? 11 then 1000 else 0)
                    (fun o sp => if (o =? 11) && (sp =? 99) then 1000 else 0).

Definition vault_init : ClawVault.state :=
  ClawVault.mkState vault_token 13 14 100 0 (fun _ => ClawVault.zero_escrow) 0 0 0 [].

Definition at_time (sender t : Z) : ClawVault.env := ClawVault.mkEnv sender t 99.

Definition vault_active : ClawVault.state :=
  ClawVault.perform (at_time 11 1000)
    (ClawVault.CreateEscrow 12 100 77 3600 3600) vault_init.

Definition vault_delivered : ClawVault.state :=
  ClawVault.perform (at_time 12 2000) (ClawVault.MarkDelivered 0 88) vault_active.

Definition vault_completed : ClawVault.state :=
  ClawVault.perform (at_time 11 3000) (ClawVault.AcceptDelivery 0) vault_delivered.

Definition vault_disputed : ClawVault.state :=
  ClawVault.perform (at_time 11 3000) (ClawVault.OpenDispute 0 "bad") vault_delivered.





Definition vault_resolved : ClawVault.state :=
  ClawVault.perform (at_time 13 4000) (ClawVault.ResolveDispute 0 true) vault_disputed.

(** The rows of [db_delivered] and of [db_funded]. *)
Definition row_delivered : Offchain.escrow :=
  Offchain.mkEscrow "esc_aa" "0xB" "0xS" "100" "X" None "1970-01-01T01:00:00.000Z"
    Offchain.delivered (Some "0xtx"%string) None None None None None
    "1970-01-01 00:00:00" "1970-01-01 00:00:02".

Definition row_funded : Offchain.escrow :=
  Offchain.mkEscrow "esc_aa" "0xB" "0xS" "100" "X" None "1970-01-01T01:00:00.000Z"
    Offchain.funded (Some "0xtx"%string) None None None None None
    "1970-01-01 00:00:00" "1970-01-01 00:00:01".

(** An escrow whose deadline lies 100000000 hours after the epoch, funded
    one second after its creation. *)
Definition db_far_funded : Offchain.db :=
  Offchain.perform 1000 (Offchain.Lifecycle (Offchain.Fund "0xtx") "esc_bb")
    (Offchain.perform 0
       (Offchain.CreateEscrow "bb" "0xB" "0xS" "100" "X" None 100000000)
       Offchain.empty_db).

Module ClockFacts.
Import Clock.

Ltac div_lia := Z.div_mod_to_equations; lia.

Lemma year_of_era_range doe :
  0 <= doe < 146097 ->
  0 <= fst (year_of_era doe) < 400 /\ 0 <= snd (year_of_era doe) <= 365.
Proof. intros H. unfold year_of_era. cbn [fst snd]. div_lia. Qed.

Lemma year_of_era_mono a b :
  0 <= a -> a < b -> b < 146097 ->
  fst (year_of_era a) < fst (year_of_era b) \/
  (fst (year_of_era a) = fst (year_of_era b) /\
   snd (year_of_era a) < snd (year_of_era b)).
Proof. intros H1 H2 H3. unfold year_of_era. cbn [fst snd]. div_lia. Qed.

Lemma month_of_year_range doy :
  0 <= doy <= 365 ->
  0 <= fst (month_of_year doy) <= 11 /\ 1 <= snd (month_of_year doy) <= 31.
Proof. intros H. unfold month_of_year. cbn [fst snd]. div_lia. Qed.

Lemma month_of_year_mono a b :
  0 <= a -> a < b ->
  fst (month_of_year a) < fst (month_of_year b) \/
  (fst (month_of_year a) = fst (month_of_year b) /\
   snd (month_of_year a) < snd (month_of_year b)).
Proof. intros H1 H2. unfold month_of_year. cbn [fst snd]. div_lia. Qed.

Lemma date_compare_lt y1 m1 d1 y2 m2 d2 :
  date_compare (y1, m1, d1) (y2, m2, d2) = Lt <->
  y1 < y2 \/ (y1 = y2 /\ (m1 < m2 \/ (m1 = m2 /\ d1 < d2))).
Proof.
  unfold date_compare.
  destruct (Z.compare_spec y1 y2); destruct (Z.compare_spec m1 m2);
    destruct (Z.compare_spec d1 d2); split; intros; try discriminate;
    try reflexivity; lia.
Qed.

Lemma date_compare_refl c : date_compare c c = Eq.
Proof. destruct c as [[y m] d]. unfold date_compare. now rewrite !Z.compare_refl. Qed.

Lemma date_compare_antisym a b : date_compare b a = CompOpp (date_compare a b).
Proof.
  destruct a as [[y1 m1] d1], b as [[y2 m2] d2]. unfold date_compare.
  rewrite (Z.compare_antisym y1 y2), (Z.compare_antisym m1 m2),
    (Z.compare_antisym d1 d2).
  destruct (y1 ?= y2), (m1 ?= m2), (d1 ?= d2); reflexivity.
Qed.

Lemma civil_from_days_fields z :
  let '(y, m, d) := civil_from_days z in 1 <= m <= 12 /\ 1 <= d <= 31.
Proof.
  unfold civil_from_days.
  set (doe := (z + 719468) mod 146097).
  assert (Hdoe : 0 <= doe < 146097) by (subst doe; apply Z.mod_pos_bound; lia).
  pose proof (year_of_era_range doe Hdoe) as [_ Hdoy].
  destruct (year_of_era doe) as [yoe doy]. cbn [fst snd] in Hdoy.
  pose proof (month_of_year_range doy Hdoy) as [Hmp Hd].
  destruct (month_of_year doy) as [mp d]. cbn [fst snd] in Hmp, Hd.
  destruct (mp <? 10) eqn:E; split; lia.
Qed.

Lemma civil_from_days_lt a b :
  a < b -> date_compare (civil_from_days a) (civil_from_days b) = Lt.
Proof.
  intros Hab. unfold civil_from_days.
  set (ea := (a + 719468) / 146097). set (eb := (b + 719468) / 146097).
  set (da := (a + 719468) mod 146097). set (db := (b + 719468) mod 146097).
  assert (Hda : 0 <= da < 146097) by (subst da; apply Z.mod_pos_bound; lia).
  assert (Hdb : 0 <= db < 146097) by (subst db; apply Z.mod_pos_bound; lia).
  assert (Hera : ea < eb \/ (ea = eb /\ da < db)) by (subst ea eb da db; div_lia).
  pose proof (year_of_era_range da Hda) as [Hya Hdya].
  pose proof (year_of_era_range db Hdb) as [Hyb Hdyb].
  assert (Hy : ea < eb \/
               (ea = eb /\ (fst (year_of_era da) < fst (year_of_era db) \/
                (fst (year_of_era da) = fst (year_of_era db) /\
                 snd (year_of_era da) < snd (year_of_era db))))).
  { destruct Hera as [H|[H1 H2]]; [now left|right; split; [assumption|]].
    apply year_of_era_mono; lia. }
  clear Hera.
  destruct (year_of_era da) as [ya dya], (year_of_era db) as [yb dyb].
  cbn [fst snd] in *.
  pose proof (month_of_year_range dya Hdya) as [Hma Hdda].
  pose proof (month_of_year_range dyb Hdyb) as [Hmb Hddb].
  assert (Hm : ea < eb \/ (ea = eb /\ (ya < yb \/ (ya = yb /\
               (fst (month_of_year dya) < fst (month_of_year dyb) \/
                (fst (month_of_year dya) = fst (month_of_year dyb) /\
                 snd (month_of_year dya) < snd (month_of_year dyb))))))).
  { destruct Hy as [H|[H1 [H2|[H2 H3]]]]; [now left|right; split; [assumption|now left]|].
    right; split; [assumption|right; split; [assumption|]].
    apply month_of_year_mono; lia. }
  clear Hy.
  destruct (month_of_year dya) as [mpa dda], (month_of_year dyb) as [mpb ddb].
  cbn [fst snd] in *.
  apply date_compare_lt.
  destruct (mpa <? 10) eqn:Ea; destruct (mpb <? 10) eqn:Eb;
    repeat match goal with
           | |- context [?x <=? 2] => destruct (Z.leb_spec x 2)
           end; lia.
Qed.

Lemma civil_from_days_compare a b :
  date_compare (civil_from_days a) (civil_from_days b) = (a ?= b).
Proof.
  destruct (Z.compare_spec a b) as [->|H|H].
  - apply date_compare_refl.
  - now apply civil_from_days_lt.
  - rewrite date_compare_antisym, (civil_from_days_lt b a H). reflexivity.
Qed.

(** Years 0000 to 9999 are the days -719528 to 2932896. *)
Lemma civil_from_days_year z :
  -719528 <= z <= 2932896 ->
  let '(y, _, _) := civil_from_days z in 0 <= y <= 9999.
Proof.
  intros [Hlo Hhi].
  pose proof (civil_from_days_compare (-719528) z) as Hl.
  pose proof (civil_from_days_compare z 2932896) as Hh.
  change (civil_from_days (-719528)) with (0, 1, 1) in Hl.
  change (civil_from_days 2932896) with (9999, 12, 31) in Hh.
  pose proof (civil_from_days_fields z) as Hf.
  destruct (civil_from_days z) as [[y m] d].
  unfold date_compare in Hl, Hh.
  destruct (Z.compare_spec (-719528) z); destruct (Z.compare_spec z 2932896);
    try lia;
    destruct (Z.compare_spec 0 y); destruct (Z.compare_spec y 9999);
    try lia; try discriminate;
    destruct (Z.compare_spec 1 m); destruct (Z.compare_spec m 12);
    try lia; try discriminate.
Qed.


(** ** Fixed-width decimal fields compare like the numbers they show *)

Lemma N_of_digit n : N_of_ascii (digit n) = Z.to_N (48 + n mod 10).
Proof.
  unfold digit. apply N_ascii_embedding.
  pose proof (Z.mod_pos_bound n 10 ltac:(lia)). lia.
Qed.

Lemma digit_compare a b :
  Ascii.compare (digit a) (digit b) = (a mod 10 ?= b mod 10).
Proof.
  unfold Ascii.compare. rewrite !N_of_digit.
  pose proof (Z.mod_pos_bound a 10 ltac:(lia)).
  pose proof (Z.mod_pos_bound b 10 ltac:(lia)).
  rewrite Z2N.inj_compare by lia.
  apply Z.add_compare_mono_l.
Qed.

Lemma compare_same_head c s t :
  String.compare (String c s) (String c t) = String.compare s t.
Proof.
  cbn [String.compare].
  assert (H : Ascii.compare c c = Eq) by (unfold Ascii.compare; apply N.compare_refl).
  now rewrite H.
Qed.

Lemma pad_compare w a b s t :
  String.compare (pad w a ++ s) (pad w b ++ t) =
  match a mod 10 ^ Z.of_nat w ?= b mod 10 ^ Z.of_nat w with
  | Eq => String.compare s t
  | c => c
  end.
Proof.
  induction w as [|w IH].
  - cbn [pad append]. change (10 ^ Z.of_nat 0) with 1. now rewrite !Z.mod_1_r.
  - cbn [pad append String.compare]. rewrite digit_compare, IH.
    replace (10 ^ Z.of_nat (S w)) with (10 ^ Z.of_nat w * 10)
      by (rewrite Nat2Z.inj_succ, Z.pow_succ_r by lia; ring).
    set (P := 10 ^ Z.of_nat w).
    assert (HP : 0 < P) by (subst P; apply Z.pow_pos_nonneg; lia).
    rewrite !(Z.rem_mul_r _ P 10) by lia.
    pose proof (Z.mod_pos_bound a P HP). pose proof (Z.mod_pos_bound b P HP).
    pose proof (Z.mod_pos_bound (a / P) 10 ltac:(lia)).
    pose proof (Z.mod_pos_bound (b / P) 10 ltac:(lia)).
    set (la := a mod P) in *. set (lb := b mod P) in *.
    set (ha := (a / P) mod 10) in *. set (hb := (b / P) mod 10) in *.
    destruct (Z.compare_spec ha hb) as [E|L|G].
    + destruct (Z.compare_spec la lb) as [E'|L'|G'].
      * replace (la + P * ha ?= lb + P * hb) with Eq; [reflexivity|].
        symmetry. apply Z.compare_eq_iff. nia.
      * replace (la + P * ha ?= lb + P * hb) with Lt; [reflexivity|].
        symmetry. apply Z.compare_lt_iff. nia.
      * replace (la + P * ha ?= lb + P * hb) with Gt; [reflexivity|].
        symmetry. apply Z.compare_gt_iff. nia.
    + replace (la + P * ha ?= lb + P * hb) with Lt; [reflexivity|].
      symmetry. apply Z.compare_lt_iff. nia.
    + replace (la + P * ha ?= lb + P * hb) with Gt; [reflexivity|].
      symmetry. apply Z.compare_gt_iff. nia.
Qed.

Lemma pad_compare_small w a b s t :
  0 <= a < 10 ^ Z.of_nat w -> 0 <= b < 10 ^ Z.of_nat w ->
  String.compare (pad w a ++ s) (pad w b ++ t) =
  match a ?= b with
  | Eq => String.compare s t
  | c => c
  end.
Proof. intros Ha Hb. now rewrite pad_compare, !Z.mod_small. Qed.

Lemma day_of_instant_range tv :
  four_digit_year tv -> -719528 <= tv / MS_PER_DAY <= 2932896.
Proof.
  unfold four_digit_year, MIN_TEXT_INSTANT, MAX_TEXT_INSTANT, MS_PER_DAY.
  intros H. div_lia.
Qed.

Lemma day_of_second_range tv :
  four_digit_year tv -> -719528 <= tv / MS_PER_SECOND / 86400 <= 2932896.
Proof.
  unfold four_digit_year, MIN_TEXT_INSTANT, MAX_TEXT_INSTANT, MS_PER_SECOND.
  intros H. div_lia.
Qed.


Lemma append_empty_r s : (s ++ "")%string = s.
Proof. induction s as [|c s IH]; cbn [append]; [reflexivity|now rewrite IH]. Qed.

Lemma pad_compare_last w a b :
  0 <= a < 10 ^ Z.of_nat w -> 0 <= b < 10 ^ Z.of_nat w ->
  String.compare (pad w a) (pad w b) = (a ?= b).
Proof.
  intros Ha Hb.
  rewrite <- (append_empty_r (pad w a)), <- (append_empty_r (pad w b)).
  rewrite pad_compare_small by assumption.
  destruct (a ?= b); reflexivity.
Qed.

Lemma sep_compare c s t :
  String.compare (String c "" ++ s) (String c "" ++ t) = String.compare s t.
Proof. cbn [append]. apply compare_same_head. Qed.

Lemma lex_date_compare (R : comparison) y1 m1 d1 y2 m2 d2 :
  match y1 ?= y2 with
  | Eq => match m1 ?= m2 with
          | Eq => match d1 ?= d2 with Eq => R | c => c end
          | c => c
          end
  | c => c
  end =
  match date_compare (y1, m1, d1) (y2, m2, d2) with Eq => R | c => c end.
Proof.
  unfold date_compare.
  destruct (y1 ?= y2), (m1 ?= m2), (d1 ?= d2); reflexivity.
Qed.

(** Hours, minutes and seconds order like the second of the day. *)
Lemma time_of_day_compare a b :
  0 <= a < 86400 -> 0 <= b < 86400 ->
  match a / 3600 ?= b / 3600 with
  | Eq => match a / 60 mod 60 ?= b / 60 mod 60 with
          | Eq => a mod 60 ?= b mod 60
          | c => c
          end
  | c => c
  end = (a ?= b).
Proof.
  intros Ha Hb.
  destruct (Z.compare_spec (a / 3600) (b / 3600));
    [destruct (Z.compare_spec (a / 60 mod 60) (b / 60 mod 60));
     [destruct (Z.compare_spec (a mod 60) (b mod 60))|..]|..];
    symmetry;
    first [apply Z.compare_eq_iff | apply Z.compare_lt_iff | apply Z.compare_gt_iff];
    div_lia.
Qed.

Lemma day_second_compare a b :
  match a / 86400 ?= b / 86400 with
  | Eq => a mod 86400 ?= b mod 86400
  | c => c
  end = (a ?= b).
Proof.
  destruct (Z.compare_spec (a / 86400) (b / 86400));
    [destruct (Z.compare_spec (a mod 86400) (b mod 86400))|..];
    symmetry;
    first [apply Z.compare_eq_iff | apply Z.compare_lt_iff | apply Z.compare_gt_iff];
    div_lia.
Qed.

(** Two [datetime] texts compare like the seconds they denote. *)
Lemma datetime_compare a b :
  four_digit_year a -> four_digit_year b ->
  String.compare (datetime a) (datetime b) =
  (a / MS_PER_SECOND ?= b / MS_PER_SECOND).
Proof.
  intros Ha Hb. unfold datetime.
  set (sa := a / MS_PER_SECOND). set (sb := b / MS_PER_SECOND).
  pose proof (day_of_second_range a Ha) as Ra.
  pose proof (day_of_second_range b Hb) as Rb.
  fold sa in Ra. fold sb in Rb.
  pose proof (civil_from_days_year _ Ra) as Ya.
  pose proof (civil_from_days_year _ Rb) as Yb.
  pose proof (civil_from_days_fields (sa / 86400)) as Fa.
  pose proof (civil_from_days_fields (sb / 86400)) as Fb.
  pose proof (civil_from_days_compare (sa / 86400) (sb / 86400)) as Hc.
  destruct (civil_from_days (sa / 86400)) as [[ya ma] da].
  destruct (civil_from_days (sb / 86400)) as [[yb mb] db].
  pose proof (Z.mod_pos_bound sa 86400 ltac:(lia)) as Sa.
  pose proof (Z.mod_pos_bound sb 86400 ltac:(lia)) as Sb.
  set (ta := sa mod 86400) in *. set (tb := sb mod 86400) in *.
  rewrite (pad_compare_small 4) by (change (10 ^ Z.of_nat 4) with 10000; lia).
  rewrite sep_compare.
  rewrite (pad_compare_small 2) by (change (10 ^ Z.of_nat 2) with 100; lia).
  rewrite sep_compare.
  rewrite (pad_compare_small 2) by (change (10 ^ Z.of_nat 2) with 100; lia).
  rewrite sep_compare.
  rewrite (pad_compare_small 2) by (change (10 ^ Z.of_nat 2) with 100; div_lia).
  rewrite sep_compare.
  rewrite (pad_compare_small 2) by (change (10 ^ Z.of_nat 2) with 100; div_lia).
  rewrite sep_compare.
  rewrite (pad_compare_last 2) by (change (10 ^ Z.of_nat 2) with 100; div_lia).
  rewrite lex_date_compare, Hc, (time_of_day_compare ta tb Sa Sb).
  apply day_second_compare.
Qed.

Lemma datetime_lt a b :
  four_digit_year a -> four_digit_year b ->
  text_lt (datetime a) (datetime b) = (a / MS_PER_SECOND <? b / MS_PER_SECOND).
Proof.
  intros Ha Hb. unfold text_lt, String.ltb.
  rewrite (datetime_compare a b Ha Hb). reflexivity.
Qed.

(** An ISO text against a [datetime] text: equal dates are decided by the
    eleventh character, ["T"] against a space, so the ISO text is smaller
    exactly when its calendar day is earlier. *)
Lemma toISOString_four_digit d :
  four_digit_year d -> toISOString d = Some (iso_text d).
Proof.
  intros Hd. unfold toISOString.
  replace (Z.abs d <=? MAX_TIME_VALUE) with true; [reflexivity|].
  symmetry. apply Z.leb_le.
  unfold four_digit_year, MIN_TEXT_INSTANT, MAX_TEXT_INSTANT, MAX_TIME_VALUE in *.
  lia.
Qed.

Lemma iso_text_datetime_compare d n :
  four_digit_year d -> four_digit_year n ->
  String.compare (iso_text d) (datetime n) =
  match d / MS_PER_DAY ?= n / MS_PER_SECOND / 86400 with
  | Eq => Gt
  | c => c
  end.
Proof.
  intros Hd Hn. unfold iso_text, datetime.
  set (sn := n / MS_PER_SECOND).
  pose proof (day_of_instant_range d Hd) as Rd.
  pose proof (day_of_second_range n Hn) as Rn. fold sn in Rn.
  pose proof (civil_from_days_year _ Rd) as Yd.
  pose proof (civil_from_days_year _ Rn) as Yn.
  pose proof (civil_from_days_fields (d / MS_PER_DAY)) as Fd.
  pose proof (civil_from_days_fields (sn / 86400)) as Fn.
  pose proof (civil_from_days_compare (d / MS_PER_DAY) (sn / 86400)) as Hc.
  destruct (civil_from_days (d / MS_PER_DAY)) as [[y1 m1] d1].
  destruct (civil_from_days (sn / 86400)) as [[y2 m2] d2].
  unfold iso_year.
  replace ((0 <=? y1) && (y1 <=? 9999)) with true
    by (symmetry; apply andb_true_iff; split; apply Z.leb_le; lia).
  rewrite (pad_compare_small 4) by (change (10 ^ Z.of_nat 4) with 10000; lia).
  rewrite sep_compare.
  rewrite (pad_compare_small 2) by (change (10 ^ Z.of_nat 2) with 100; lia).
  rewrite sep_compare.
  rewrite (pad_compare_small 2) by (change (10 ^ Z.of_nat 2) with 100; lia).
  cbn [append String.compare].
  change (Ascii.compare "T" " ") with Gt.
  rewrite lex_date_compare, Hc. reflexivity.
Qed.

Lemma iso_datetime_compare d n s :
  four_digit_year d -> four_digit_year n ->
  toISOString d = Some s ->
  String.compare s (datetime n) =
  match d / MS_PER_DAY ?= n / MS_PER_SECOND / 86400 with
  | Eq => Gt
  | c => c
  end.
Proof.
  intros Hd Hn Hs. rewrite (toISOString_four_digit d Hd) in Hs.
  assert (E : s = iso_text d) by congruence. subst s.
  now apply iso_text_datetime_compare.
Qed.

Lemma iso_datetime_lt d n s :
  four_digit_year d -> four_digit_year n ->
  toISOString d = Some s ->
  text_lt s (datetime n) = (d / MS_PER_DAY <? n / MS_PER_SECOND / 86400).
Proof.
  intros Hd Hn Hs. unfold text_lt, String.ltb.
  rewrite (iso_datetime_compare d n s Hd Hn Hs). unfold Z.ltb.
  destruct (d / MS_PER_DAY ?= n / MS_PER_SECOND / 86400); reflexivity.
Qed.

(** Whenever the ISO text is below the [datetime] text, the instant it
    denotes lies strictly in the past. *)
Lemma iso_datetime_lt_sound d n s :
  four_digit_year d -> four_digit_year n ->
  toISOString d = Some s ->
  text_lt s (datetime n) = true -> d < n.
Proof.
  intros Hd Hn Hs H. rewrite (iso_datetime_lt d n s Hd Hn Hs) in H.
  apply Z.ltb_lt in H. unfold MS_PER_DAY, MS_PER_SECOND in H. div_lia.
Qed.

End ClockFacts.

(* ================================================================== *)
(** * Facts about the internal ledger *)
(* ================================================================== *)

Module OffchainFacts.
Import Clock Offchain.

Lemma status_eqb_eq a b : status_eqb a b = true <-> a = b.
Proof. destruct a, b; simpl; split; intros H; try reflexivity; discriminate. Qed.

Lemma status_eqb_refl a : status_eqb a a = true.
Proof. now apply status_eqb_eq. Qed.

(** Every lifecycle operation is one guarded update followed by one
    event; when the address of a dispute does not bind, the update stays
    and the event is missing. *)
Lemma apply_op_run now o i d :
  apply_op now o i d =
  match find (fun r => String.eqb (id r) i) (escrows d) with
  | None => (d, Throw EscrowNotFound)
  | Some esc =>
      if permitted_from o (status esc)
      then match logged now o i esc (List.length (escrow_events d)) with
           | Some ev =>
               (mkDb (map (fun r => if String.eqb (id r) i then moved now o r else r)
                          (escrows d))
                     (escrow_events d ++ [ev]),
                Return (replied o i esc))
           | None =>
               (mkDb (map (fun r => if String.eqb (id r) i then moved now o r else r)
                          (escrows d))
                     (escrow_events d),
                Throw CannotBind)
           end
      else (d, Throw (refusal o (status esc)))
  end.
Proof.
  destruct o as [tx|p| |[a|] reason evidence|res w]; cbn [apply_op];
    unfold fundEscrow, deliverEscrow, acceptEscrow, disputeEscrow,
      resolveDispute, getEscrow, select_by_id, bind;
    (destruct (find _ (escrows d)) as [esc|]; [|reflexivity]);
    cbn [permitted_from refusal];
    destruct (status esc); reflexivity.
Qed.

Lemma logged_binds now o i esc n :
  binds (Lifecycle o i) = true -> logged now o i esc n <> None.
Proof.
  destruct o as [tx|p| |[a|] reason evidence|res w]; cbn; intros H;
    discriminate.
Qed.

Lemma moved_id now o r : id (moved now o r) = id r.
Proof. destruct o; reflexivity. Qed.

Lemma moved_status now o r : status (moved now o r) = target_status o.
Proof. destruct o; reflexivity. Qed.

Lemma find_map_id (f : escrow -> escrow) i l :
  (forall r, id (f r) = id r) ->
  find (fun r => String.eqb (id r) i) (map f l) =
  option_map f (find (fun r => String.eqb (id r) i) l).
Proof.
  intros Hf. induction l as [|r l IH]; [reflexivity|].
  cbn [map find]. rewrite Hf.
  destruct (String.eqb (id r) i); [reflexivity|exact IH].
Qed.

Lemma find_id_some i l r :
  find (fun r => String.eqb (id r) i) l = Some r -> id r = i /\ In r l.
Proof.
  intros H. apply find_some in H. destruct H as [Hin Heq].
  apply String.eqb_eq in Heq. now split.
Qed.

Lemma map_id_preserved (f : escrow -> escrow) l :
  (forall r, id (f r) = id r) -> map id (map f l) = map id l.
Proof.
  intros Hf. rewrite map_map. apply map_ext. exact Hf.
Qed.

(** What a lifecycle operation does to the status of any escrow. *)
Lemma status_of_apply_op now o i d j :
  status_of j (fst (apply_op now o i d)) =
  if String.eqb j i then
    match status_of i d with
    | Some s => Some (if permitted_from o s then target_status o else s)
    | None => None
    end
  else status_of j d.
Proof.
  rewrite apply_op_run. unfold status_of.
  destruct (find (fun r => String.eqb (id r) i) (escrows d)) as [esc|] eqn:Hfind.
  - destruct (permitted_from o (status esc)) eqn:Hperm.
    + destruct (logged now o i esc _); cbn [fst escrows];
        (rewrite find_map_id
           by (intros r; destruct (String.eqb (id r) i);
               [apply moved_id|reflexivity]));
        (destruct (String.eqb j i) eqn:Hji;
         [ apply String.eqb_eq in Hji; subst j; rewrite Hfind; cbn [option_map];
           destruct (find_id_some _ _ _ Hfind) as [Hid _];
           rewrite <- Hid at 1; rewrite String.eqb_refl, moved_status, Hperm;
           reflexivity
         | destruct (find (fun r => String.eqb (id r) j) (escrows d)) as [r|] eqn:Hj;
           [|reflexivity];
           cbn [option_map]; destruct (find_id_some _ _ _ Hj) as [Hid _];
           rewrite Hid, Hji; reflexivity ]).
    + cbn [fst escrows]. destruct (String.eqb j i) eqn:Hji; [|reflexivity].
      apply String.eqb_eq in Hji. subst j. rewrite Hfind. cbn [option_map].
      rewrite Hperm. reflexivity.
  - cbn [fst]. destruct (String.eqb j i) eqn:Hji; [|reflexivity].
    apply String.eqb_eq in Hji. subst j. rewrite Hfind. reflexivity.
Qed.



(** ** Creation *)

Lemma createEscrow_run now h b s a sd ac dh d :
  createEscrow now h b s a sd ac dh d =
  match toISOString (now + dh * 3600 * 1000) with
  | None => (d, Throw InvalidTimeValue)
  | Some dl =>
      if existsb (fun r => String.eqb (id r) ("esc_" ++ h)) (escrows d)
      then (d, Throw UniqueConstraint)
      else (mkDb (escrows d ++ [new_row now h b s a sd ac dl])
                 (escrow_events d ++
                  [mkEvent (Z.of_nat (List.length (escrow_events d)) + 1)
                     ("esc_" ++ h) ev_created b (DataCreated a dl)
                     (datetime now)]),
            Return (mkReply ("esc_" ++ h) created None))
  end.
Proof.
  unfold createEscrow.
  destruct (toISOString (now + dh * 3600 * 1000)) as [dl|]; [|reflexivity].
  unfold bind, insert_escrow. cbn [id].
  destruct (existsb _ (escrows d)); reflexivity.
Qed.

Lemma existsb_find_none i l :
  existsb (fun r => String.eqb (id r) i) l = false ->
  find (fun r => String.eqb (id r) i) l = None.
Proof.
  induction l as [|r l IH]; [reflexivity|]. cbn [existsb find].
  destruct (String.eqb (id r) i); [discriminate|exact IH].
Qed.


Lemma find_snoc (p : escrow -> bool) l x :
  find p (l ++ [x]) =
  match find p l with
  | Some y => Some y
  | None => if p x then Some x else None
  end.
Proof.
  induction l as [|r l IH]; cbn [app find]; [reflexivity|].
  destruct (p r); [reflexivity|exact IH].
Qed.




(** ** The sweep *)

Lemma find_unique a tbl :
  NoDup (map id tbl) -> In a tbl ->
  find (fun r => String.eqb (id r) (id a)) tbl = Some a.
Proof.
  induction tbl as [|r tbl IH]; intros Hnd Hin; [contradiction|].
  cbn [map] in Hnd. inversion Hnd as [|? ? Hnotin Hnd']; subst.
  cbn [find]. destruct Hin as [->|Hin].
  - now rewrite String.eqb_refl.
  - destruct (String.eqb (id r) (id a)) eqn:E.
    + apply String.eqb_eq in E. exfalso. apply Hnotin. rewrite E.
      now apply in_map.
    + now apply IH.
Qed.

Lemma NoDup_map_filter (p : escrow -> bool) tbl :
  NoDup (map id tbl) -> NoDup (map id (filter p tbl)).
Proof.
  induction tbl as [|r tbl IH]; intros Hnd; [constructor|].
  cbn [map] in Hnd. inversion Hnd as [|? ? Hnotin Hnd']; subst.
  cbn [filter]. destruct (p r); [|now apply IH].
  cbn [map]. constructor; [|now apply IH].
  intros Hin. apply Hnotin. apply in_map_iff in Hin.
  destruct Hin as [x [Hx Hin]]. apply filter_In in Hin.
  rewrite <- Hx. apply in_map. tauto.
Qed.

Lemma existsb_id_false i ids :
  ~ In i ids -> existsb (String.eqb i) ids = false.
Proof.
  intros H. destruct (existsb (String.eqb i) ids) eqn:E; [|reflexivity].
  apply existsb_exists in E. destruct E as [x [Hx Heq]].
  apply String.eqb_eq in Heq. subst x. contradiction.
Qed.

Lemma selected_iff (p : escrow -> bool) tbl r :
  NoDup (map id tbl) -> In r tbl ->
  existsb (String.eqb (id r)) (map id (filter p tbl)) = p r.
Proof.
  intros Hnd Hin. destruct (p r) eqn:Hp.
  - apply existsb_exists. exists (id r). split; [|apply String.eqb_refl].
    apply in_map. apply filter_In. now split.
  - apply existsb_id_false. intros H. apply in_map_iff in H.
    destruct H as [x [Hx Hxin]]. apply filter_In in Hxin. destruct Hxin as [Hxin Hpx].
    pose proof (find_unique x tbl Hnd Hxin) as F1.
    pose proof (find_unique r tbl Hnd Hin) as F2.
    rewrite Hx in F1. congruence.
Qed.

Section Loop.
Variable f : escrow -> escrow.
Variable body : escrow -> M unit.
Variable Q : escrow -> Prop.
Hypothesis f_id : forall r, id (f r) = id r.
Hypothesis body_run :
  forall a tbl evs, NoDup (map id tbl) -> In a tbl -> Q a ->
    exists evs',
      body a (mkDb tbl evs) =
      (mkDb (map (fun r => if String.eqb (id r) (id a) then f r else r) tbl)
            evs', Return tt).

Lemma for_each_update todo :
  forall tbl evs,
    NoDup (map id tbl) -> NoDup (map id todo) ->
    (forall a, In a todo -> In a tbl /\ Q a) ->
    exists evs',
      for_each todo body (mkDb tbl evs) =
      (mkDb (map (touch (map id todo) f) tbl) evs', Return tt).
Proof.
  induction todo as [|a todo IH]; intros tbl evs Htbl Htodo Hall.
  - exists evs. cbn [for_each map]. unfold ret. f_equal. f_equal.
    rewrite <- (map_id tbl) at 1. apply map_ext. reflexivity.
  - cbn [map] in Htodo. inversion Htodo as [|? ? Hnotin Htodo']; subst.
    destruct (Hall a (or_introl eq_refl)) as [Hin HQ].
    destruct (body_run a tbl evs Htbl Hin HQ) as [evs1 Hbody].
    set (g := fun r => if String.eqb (id r) (id a) then f r else r) in *.
    assert (Hg : forall r, id (g r) = id r).
    { intros r. unfold g. destruct (String.eqb (id r) (id a)); [apply f_id|reflexivity]. }
    destruct (IH (map g tbl) evs1) as [evs2 Hrest].
    + now rewrite map_id_preserved.
    + exact Htodo'.
    + intros a' Ha'. destruct (Hall a' (or_intror Ha')) as [Hin' HQ'].
      split; [|exact HQ'].
      apply in_map_iff. exists a'. split; [|exact Hin'].
      unfold g. destruct (String.eqb (id a') (id a)) eqn:E; [|reflexivity].
      apply String.eqb_eq in E. exfalso. apply Hnotin. rewrite <- E.
      now apply in_map.
    + exists evs2. cbn [for_each]. unfold bind at 1. rewrite Hbody, Hrest.
      f_equal. f_equal. rewrite map_map. apply map_ext. intros r.
      unfold touch, g. cbn [map existsb].
      destruct (String.eqb (id r) (id a)) eqn:E.
      * rewrite f_id. apply String.eqb_eq in E. rewrite E.
        rewrite (existsb_id_false _ _ Hnotin). reflexivity.
      * reflexivity.
Qed.
End Loop.


Lemma release_body_run now a tbl evs :
  NoDup (map id tbl) -> In a tbl -> status a = delivered ->
  exists evs',
    (acceptEscrow now (id a) ;;;
     logEvent now (id a) ev_auto_completed (Bindable "system")
       (DataReason "24h acceptance window expired")) (mkDb tbl evs) =
    (mkDb (map (fun r => if String.eqb (id r) (id a)
                         then set_status now completed r else r) tbl)
          evs', Return tt).
Proof.
  intros Hnd Hin Hst. unfold bind at 1.
  change (acceptEscrow now (id a)) with (apply_op now Accept (id a)).
  rewrite apply_op_run. cbn [escrows escrow_events].
  rewrite (find_unique a tbl Hnd Hin). cbn [permitted_from]. rewrite Hst.
  cbn [status_eqb]. unfold logEvent. cbn [escrows escrow_events moved].
  eexists. reflexivity.
Qed.

Lemma refund_body_run now a tbl evs :
  exists evs',
    (update_by_id (id a) (set_status now refunded) ;;;
     logEvent now (id a) ev_auto_refunded (Bindable "system")
       (DataReason "Deadline passed without delivery")) (mkDb tbl evs) =
    (mkDb (map (fun r => if String.eqb (id r) (id a)
                         then set_status now refunded r else r) tbl)
          evs', Return tt).
Proof.
  unfold bind, update_by_id, logEvent. cbn [escrows escrow_events].
  eexists. reflexivity.
Qed.

Lemma filter_map_length (p : escrow -> bool) (g : escrow -> escrow) l :
  (forall r, In r l -> p (g r) = p r) ->
  List.length (filter p (map g l)) = List.length (filter p l).
Proof.
  induction l as [|r l IH]; intros H; [reflexivity|].
  cbn [map filter]. rewrite (H r (or_introl eq_refl)).
  assert (IH' := IH (fun x Hx => H x (or_intror Hx))).
  destruct (p r); cbn [List.length]; now rewrite IH'.
Qed.

Lemma release_due_status now r : release_due now r = true -> status r = delivered.
Proof.
  unfold release_due. intros H. apply andb_true_iff in H.
  now apply status_eqb_eq.
Qed.


(** The sweep rewrites the table row by row, and never throws. *)
Lemma sweep_exact now d :
  unique_ids d ->
  exists evs',
    processExpiredEscrows now d =
    (mkDb (map (sweep_row now) (escrows d)) evs',
     Return (List.length (filter (release_due now) (escrows d)),
             List.length (filter (refund_due now) (escrows d)))).
Proof.
  destruct d as [tbl evs]. unfold unique_ids. cbn [escrows]. intros Hnd.
  unfold processExpiredEscrows.
  unfold bind at 1. unfold select_where at 1. cbn [escrows].
  set (rel := filter (release_due now) tbl).
  destruct (for_each_update (set_status now completed)
              (fun esc => acceptEscrow now (id esc) ;;;
                          logEvent now (id esc) ev_auto_completed (Bindable "system")
                            (DataReason "24h acceptance window expired"))
              (fun a => status a = delivered)
              (fun r => eq_refl)
              (release_body_run now)
              rel tbl evs Hnd)
    as [evs1 H1].
  { subst rel. now apply NoDup_map_filter. }
  { subst rel. intros a Ha. apply filter_In in Ha. destruct Ha as [Hin Hd].
    split; [exact Hin|]. now apply release_due_status in Hd. }
  unfold bind at 1. rewrite H1.
  set (g1 := touch (map id rel) (set_status now completed)) in *.
  assert (Hg1 : forall r, id (g1 r) = id r).
  { intros r. unfold g1, touch. destruct (existsb _ _); reflexivity. }
  assert (Hnd1 : NoDup (map id (map g1 tbl))) by now rewrite map_id_preserved.
  unfold bind at 1. unfold select_where at 1. cbn [escrows].
  set (ref := filter (refund_due now) (map g1 tbl)).
  destruct (for_each_update (set_status now refunded)
              (fun esc => update_by_id (id esc) (set_status now refunded) ;;;
                          logEvent now (id esc) ev_auto_refunded (Bindable "system")
                            (DataReason "Deadline passed without delivery"))
              (fun _ => True)
              (fun r => eq_refl)
              (fun a tbl0 evs0 _ _ _ => refund_body_run now a tbl0 evs0)
              ref (map g1 tbl) evs1 Hnd1)
    as [evs2 H2].
  { subst ref. now apply NoDup_map_filter. }
  { subst ref. intros a Ha. apply filter_In in Ha. tauto. }
  unfold bind at 1. rewrite H2. unfold ret.
  assert (Hg1_due : forall r, In r tbl -> refund_due now (g1 r) = refund_due now r).
  { intros r Hr. unfold g1, touch. subst rel.
    rewrite (selected_iff (release_due now) tbl r Hnd Hr).
    destruct (release_due now r) eqn:E; [|reflexivity].
    apply release_due_status in E. unfold refund_due. cbn [status set_status].
    rewrite E. reflexivity. }
  exists evs2. f_equal; [f_equal|].
  - rewrite map_map. apply map_ext_in. intros r Hr.
    unfold touch at 1. subst ref.
    rewrite (selected_iff (refund_due now) (map g1 tbl) (g1 r) Hnd1 (in_map g1 _ _ Hr)).
    rewrite (Hg1_due r Hr). unfold g1, touch. subst rel.
    rewrite (selected_iff (release_due now) tbl r Hnd Hr).
    unfold sweep_row. destruct (release_due now r) eqn:E1.
    + apply release_due_status in E1. unfold refund_due. rewrite E1. reflexivity.
    + reflexivity.
  - f_equal. f_equal. subst ref. now apply filter_map_length.
Qed.


(** ** One call, seen from one escrow *)



Lemma sweep_row_id now r : id (sweep_row now r) = id r.
Proof.
  unfold sweep_row. destruct (release_due now r); [reflexivity|].
  destruct (refund_due now r); reflexivity.
Qed.


Lemma escrowJob_rows now d :
  unique_ids d -> escrows (escrowJob now d) = map (sweep_row now) (escrows d).
Proof.
  intros H. unfold escrowJob. destruct (sweep_exact now d H) as [evs' Hrun].
  rewrite Hrun. reflexivity.
Qed.






(** ** The sweep, row by row and in numbers *)

Lemma find_escrowJob now d r :
  unique_ids d -> In r (escrows d) ->
  find (fun x => String.eqb (id x) (id r)) (escrows (escrowJob now d)) =
  Some (sweep_row now r).
Proof.
  intros H Hin. rewrite (escrowJob_rows now d H).
  rewrite find_map_id by apply sweep_row_id.
  now rewrite (find_unique r (escrows d) H Hin).
Qed.

Lemma status_of_escrowJob now d r :
  unique_ids d -> In r (escrows d) ->
  status_of (id r) (escrowJob now d) = Some (status (sweep_row now r)).
Proof.
  intros H Hin. unfold status_of. now rewrite (find_escrowJob now d r H Hin).
Qed.

Lemma sweep_row_other now r :
  status r <> delivered -> status r <> funded -> sweep_row now r = r.
Proof.
  intros H1 H2. unfold sweep_row, release_due, refund_due.
  destruct (status r); try contradiction; reflexivity.
Qed.

Lemma sweep_row_delivered now r :
  status r = delivered ->
  sweep_row now r =
  if text_lt (updated_at r) (datetime_minus_1_day now)
  then set_status now completed r else r.
Proof.
  intros H. unfold sweep_row, release_due, refund_due. rewrite H. cbn [status_eqb andb].
  destruct (text_lt (updated_at r) (datetime_minus_1_day now)); reflexivity.
Qed.

Lemma sweep_row_funded now r :
  status r = funded ->
  sweep_row now r =
  if text_lt (deadline r) (datetime now) then set_status now refunded r else r.
Proof.
  intros H. unfold sweep_row, release_due, refund_due. rewrite H. cbn [status_eqb andb].
  destruct (text_lt (deadline r) (datetime now)); reflexivity.
Qed.

(** A delivered escrow is released exactly when its delivery, in whole
    seconds, is more than 24 hours old. *)
Lemma release_in_seconds now r u :
  four_digit_year u -> four_digit_year (now - MS_PER_DAY) ->
  updated_at r = datetime u ->
  text_lt (updated_at r) (datetime_minus_1_day now) =
  (u / MS_PER_SECOND + 86400 <? now / MS_PER_SECOND).
Proof.
  intros Hu Hn Hr. unfold datetime_minus_1_day. rewrite Hr.
  rewrite (ClockFacts.datetime_lt u (now - MS_PER_DAY) Hu Hn).
  unfold MS_PER_DAY, MS_PER_SECOND.
  destruct (Z.ltb_spec (u / 1000) ((now - 86400000) / 1000));
    destruct (Z.ltb_spec (u / 1000 + 86400) (now / 1000));
    try reflexivity; exfalso; ClockFacts.div_lia.
Qed.

(** A funded escrow is refunded exactly when the calendar day of its
    deadline is before the calendar day of the sweep. *)
Lemma refund_in_days now r dl :
  four_digit_year dl -> four_digit_year now ->
  toISOString dl = Some (deadline r) ->
  text_lt (deadline r) (datetime now) =
  (dl / MS_PER_DAY <? now / MS_PER_SECOND / 86400).
Proof. intros Hd Hn Hr. now apply ClockFacts.iso_datetime_lt. Qed.


(** ** The event log replays to the table *)



Lemma events_of_table i tbl tbl' evs :
  events_of i (mkDb tbl' evs) = events_of i (mkDb tbl evs).
Proof. reflexivity. Qed.

















(** ** Timestamps of the event log *)




















End OffchainFacts.

(* ================================================================== *)
(** * Facts about the contract *)
(* ================================================================== *)

Module ClawVaultFacts.
Import ClawVault.

(** ** Symbolic execution of a transaction *)

Lemma bind_assoc {A B D} (c : C A) (k1 : A -> C B) (k2 : B -> C D) s :
  bind (bind c k1) k2 s = bind c (fun x => bind (k1 x) k2) s.
Proof. unfold bind. destruct (c s); reflexivity. Qed.

Lemma bind_ret {A B} (a : A) (k : A -> C B) s : bind (ret a) k s = k a s.
Proof. reflexivity. Qed.

Lemma bind_require {B} b m (k : unit -> C B) s :
  bind (require b m) k s = if b then k tt s else Revert m.
Proof. destruct b; reflexivity. Qed.

Lemma bind_get {A B} (f : state -> A) (k : A -> C B) s :
  bind (get f) k s = k (f s) s.
Proof. reflexivity. Qed.

Lemma bind_modify {B} f (k : unit -> C B) s :
  bind (modify f) k s = k tt (f s).
Proof. reflexivity. Qed.

Lemma bind_add {B} a b (k : uint256 -> C B) s :
  bind (add a b) k s =
  if a + b <=? MAX_UINT256 then k (a + b) s else Revert PANIC_OVERFLOW.
Proof. unfold add. destruct (a + b <=? MAX_UINT256); reflexivity. Qed.

Lemma bind_mul {B} a b (k : uint256 -> C B) s :
  bind (mul a b) k s =
  if a * b <=? MAX_UINT256 then k (a * b) s else Revert PANIC_OVERFLOW.
Proof. unfold mul. destruct (a * b <=? MAX_UINT256); reflexivity. Qed.

Lemma bind_if {A B} (b : bool) (c1 c2 : C A) (k : A -> C B) s :
  bind (if b then c1 else c2) k s = if b then bind c1 k s else bind c2 k s.
Proof. destruct b; reflexivity. Qed.

Lemma bind_ret_r {A} (c : C A) s : c s = bind c ret s.
Proof. unfold bind, ret. destruct (c s); reflexivity. Qed.

Ltac unfold_calls :=
  unfold createEscrow, markDelivered, acceptDelivery, openDispute,
    resolveDispute, reclaimExpired, claimByTimeout, updateArbiter,
    updateFee, updateFeeRecipient, pay_seller, safeTransfer,
    safeTransferFrom, onlyBuyer, onlySeller, onlyArbiter, emit.

Ltac exec_step :=
  first
    [ rewrite bind_assoc
    | rewrite bind_ret
    | rewrite bind_get
    | rewrite bind_modify
    | rewrite bind_require
    | rewrite bind_add
    | rewrite bind_mul
    | rewrite bind_if ];
  cbv beta.

Ltac split_head :=
  match goal with
  | |- context [if ?b then _ else _] => destruct b eqn:?
  end.

Ltac exec := repeat first [split_head | exec_step].

Lemma Status_eqb_eq a b : Status_eqb a b = true <-> a = b.
Proof. destruct a, b; simpl; split; intros H; try reflexivity; discriminate. Qed.

Lemma Status_eqb_neq a b : Status_eqb a b = false <-> a <> b.
Proof.
  destruct a, b; simpl; split; intros H; try reflexivity; try discriminate;
    try (exfalso; apply H; reflexivity).
Qed.

Ltac project :=
  cbn [outcome_of after escrows nextEscrowId arbiter push_log set_escrow
       set_usdc set_nextEscrowId set_totalEscrowsCreated set_totalVolumeUsdc
       set_totalFeesCollected set_admin written fst snd source passed] in *.

Ltac reflect_tests :=
  repeat match goal with
         | H : Status_eqb _ _ = true |- _ => apply Status_eqb_eq in H
         | H : Status_eqb _ _ = false |- _ => apply Status_eqb_neq in H
         | H : negb _ = true |- _ => apply negb_true_iff in H
         | H : negb _ = false |- _ => apply negb_false_iff in H
         | H : (_ && _) = true |- _ => apply andb_true_iff in H; destruct H
         | H : (_ =? _) = true |- _ => apply Z.eqb_eq in H
         | H : (_ =? _) = false |- _ => apply Z.eqb_neq in H
         | H : (_ <=? _) = true |- _ => apply Z.leb_le in H
         | H : (_ <=? _) = false |- _ => apply Z.leb_gt in H
         | H : (_ <? _) = true |- _ => apply Z.ltb_lt in H
         | H : (_ <? _) = false |- _ => apply Z.ltb_ge in H
         | H : String.eqb _ _ = true |- _ => apply String.eqb_eq in H
         | H : String.eqb _ _ = false |- _ => apply String.eqb_neq in H
         end.

Ltac run_call f :=
  rewrite (bind_ret_r f); unfold_calls; exec; unfold ret; project;
  reflect_tests.

Lemma run_summary E c s :
  match run E c s with
  | Ok s' _ =>
      escrows s' = fst (written E c s) /\
      nextEscrowId s' = snd (written E c s) /\
      match source c with
      | Some (i, st) => status (escrows s i) = st
      | None => True
      end /\
      passed E c s
  | Revert _ => True
  end.
Proof.
  destruct c; unfold run;
    match goal with
    | |- context [outcome_of (?f s)] => run_call f
    | |- context [match ?f s with _ => _ end] => run_call f
    end;
    unfold MIN_DEADLINE, MAX_DEADLINE, MIN_ACCEPTANCE_WINDOW,
      MAX_ACCEPTANCE_WINDOW in *;
    repeat split; auto; lia.
Qed.



(** Once an escrow has left [Active], no transaction writes its
    [deliveredAt] again, and it never returns to [Active]. *)
Lemma perform_frozen E c s j :
  0 <= j < nextEscrowId s -> status (escrows s j) <> Active ->
  deliveredAt (escrows (perform E c s) j) = deliveredAt (escrows s j) /\
  status (escrows (perform E c s) j) <> Active /\
  0 <= j < nextEscrowId (perform E c s).
Proof.
  intros Hj Hst. unfold perform. pose proof (run_summary E c s) as H.
  destruct (run E c s) as [s' u|m]; cbn [after]; [|auto].
  destruct H as (He & Hn & Hsrc & _). rewrite He, Hn.
  destruct c; cbn [written fst snd source] in *; unfold upd; auto;
    try (destruct (j =? _escrowId) eqn:Ej;
         [apply Z.eqb_eq in Ej; subst j; cbn; repeat split; try lia; congruence
         |auto]).
  destruct (j =? nextEscrowId s) eqn:Ej.
  - apply Z.eqb_eq in Ej. lia.
  - repeat split; auto; lia.
Qed.

Lemma perform_all_frozen cs : forall s j,
  0 <= j < nextEscrowId s -> status (escrows s j) <> Active ->
  deliveredAt (escrows (perform_all cs s) j) = deliveredAt (escrows s j).
Proof.
  induction cs as [|[E c] cs IH]; intros s j Hj Hst; [reflexivity|].
  cbn [perform_all].
  destruct (perform_frozen E c s j Hj Hst) as (Hd & Hst' & Hj').
  rewrite (IH _ j Hj' Hst'). exact Hd.
Qed.




(** ** Single transactions *)

Ltac close_leaf :=
  first [ reflexivity
        | discriminate
        | exfalso; congruence
        | exfalso; lia
        | exfalso; auto; fail ].

Ltac decide_call f := run_call f; try close_leaf.

Lemma markDelivered_ok E i h s s' u :
  markDelivered E i h s = Ok s' u ->
  status (escrows s i) = Active /\
  msg_sender E = seller (escrows s i) /\
  block_timestamp E <= deadline (escrows s i) /\
  h <> 0 /\
  escrows s' = upd (escrows s) i (with_delivery h (block_timestamp E) (escrows s i)).
Proof.
  intros H. pose proof (run_summary E (MarkDelivered i h) s) as R.
  cbn [run] in R. rewrite H in R. cbn [written fst snd source passed] in R. tauto.
Qed.

Lemma markDelivered_late E i h s :
  msg_sender E = seller (escrows s i) ->
  status (escrows s i) = Active ->
  deadline (escrows s i) < block_timestamp E ->
  markDelivered E i h s = Revert "Deadline passed".
Proof. intros H1 H2 H3. decide_call (markDelivered E i h). Qed.

Lemma markDelivered_wrong_status E i h s :
  msg_sender E = seller (escrows s i) ->
  status (escrows s i) <> Active ->
  markDelivered E i h s = Revert "Not active".
Proof. intros H1 H2. decide_call (markDelivered E i h). Qed.

Lemma openDispute_ok E i r s s' u :
  openDispute E i r s = Ok s' u ->
  status (escrows s i) = Delivered /\
  msg_sender E = buyer (escrows s i) /\
  block_timestamp E <= deliveredAt (escrows s i) + acceptanceWindow (escrows s i) /\
  r <> ""%string /\
  escrows s' = upd (escrows s) i (with_dispute r (escrows s i)).
Proof.
  intros H. pose proof (run_summary E (OpenDispute i r) s) as R.
  cbn [run] in R. rewrite H in R. cbn [written fst snd source passed] in R. tauto.
Qed.

Lemma openDispute_succeeds E i r s :
  status (escrows s i) = Delivered ->
  msg_sender E = buyer (escrows s i) ->
  deliveredAt (escrows s i) + acceptanceWindow (escrows s i) <= MAX_UINT256 ->
  block_timestamp E <= deliveredAt (escrows s i) + acceptanceWindow (escrows s i) ->
  r <> ""%string ->
  openDispute E i r s =
    Ok (push_log (DisputeOpened i r) (set_escrow i (with_dispute r (escrows s i)) s)) tt.
Proof. intros H1 H2 H3 H4 H5. decide_call (openDispute E i r). Qed.

Lemma openDispute_wrong_status E i r s :
  msg_sender E = buyer (escrows s i) ->
  status (escrows s i) <> Delivered ->
  openDispute E i r s = Revert "Not delivered".
Proof. intros H1 H2. decide_call (openDispute E i r). Qed.

Lemma openDispute_late E i r s :
  msg_sender E = buyer (escrows s i) ->
  status (escrows s i) = Delivered ->
  deliveredAt (escrows s i) + acceptanceWindow (escrows s i) <= MAX_UINT256 ->
  deliveredAt (escrows s i) + acceptanceWindow (escrows s i) < block_timestamp E ->
  openDispute E i r s = Revert "Acceptance window expired".
Proof. intros H1 H2 H3 H4. decide_call (openDispute E i r). Qed.

Lemma openDispute_not_buyer E i r s :
  msg_sender E <> buyer (escrows s i) ->
  openDispute E i r s = Revert "Not buyer".
Proof. intros H1. decide_call (openDispute E i r). Qed.

Lemma openDispute_no_reason E i s :
  msg_sender E = buyer (escrows s i) ->
  status (escrows s i) = Delivered ->
  deliveredAt (escrows s i) + acceptanceWindow (escrows s i) <= MAX_UINT256 ->
  block_timestamp E <= deliveredAt (escrows s i) + acceptanceWindow (escrows s i) ->
  openDispute E i "" s = Revert "Reason required".
Proof. intros H1 H2 H3 H4. decide_call (openDispute E i ""%string). Qed.

Lemma reclaimExpired_ok E i s s' u :
  reclaimExpired E i s = Ok s' u ->
  status (escrows s i) = Active /\
  msg_sender E = buyer (escrows s i) /\
  deadline (escrows s i) < block_timestamp E /\
  escrows s' = upd (escrows s) i (with_status Refunded (escrows s i)).
Proof.
  intros H. pose proof (run_summary E (ReclaimExpired i) s) as R.
  cbn [run] in R. rewrite H in R. cbn [written fst snd source passed] in R. tauto.
Qed.

Lemma reclaimExpired_early E i s :
  msg_sender E = buyer (escrows s i) ->
  status (escrows s i) = Active ->
  block_timestamp E <= deadline (escrows s i) ->
  reclaimExpired E i s = Revert "Deadline not passed".
Proof. intros H1 H2 H3. decide_call (reclaimExpired E i). Qed.

Lemma claimByTimeout_ok E i s s' u :
  claimByTimeout E i s = Ok s' u ->
  status (escrows s i) = Delivered /\
  msg_sender E = seller (escrows s i) /\
  deliveredAt (escrows s i) + acceptanceWindow (escrows s i) < block_timestamp E /\
  escrows s' = upd (escrows s) i (with_status Completed (escrows s i)).
Proof.
  intros H. pose proof (run_summary E (ClaimByTimeout i) s) as R.
  cbn [run] in R. rewrite H in R. cbn [written fst snd source passed] in R. tauto.
Qed.

Lemma claimByTimeout_early E i s :
  msg_sender E = seller (escrows s i) ->
  status (escrows s i) = Delivered ->
  deliveredAt (escrows s i) + acceptanceWindow (escrows s i) <= MAX_UINT256 ->
  block_timestamp E <= deliveredAt (escrows s i) + acceptanceWindow (escrows s i) ->
  claimByTimeout E i s = Revert "Acceptance window not expired".
Proof. intros H1 H2 H3 H4. decide_call (claimByTimeout E i). Qed.

Lemma createEscrow_invalid E sl a h d w s :
  a <= 0 \/ sl = msg_sender E ->
  createEscrow E sl a h d w s = Revert "Invalid seller" \/
  createEscrow E sl a h d w s = Revert "Amount must be > 0".
Proof.
  intros H. rewrite (bind_ret_r (createEscrow E sl a h d w)).
  unfold createEscrow.
  rewrite bind_assoc, bind_require.
  destruct (negb (sl =? 0) && negb (sl =? msg_sender E)) eqn:E1; [|now left].
  rewrite bind_assoc, bind_require.
  destruct (0 <? a) eqn:E2; [|now right].
  reflect_tests. exfalso. destruct H; [lia|congruence].
Qed.

Lemma createEscrow_ok E sl a h d w s s' i :
  createEscrow E sl a h d w s = Ok s' i ->
  sl <> 0 /\ sl <> msg_sender E /\ 0 < a /\
  MIN_DEADLINE <= d <= MAX_DEADLINE /\
  MIN_ACCEPTANCE_WINDOW <= w <= MAX_ACCEPTANCE_WINDOW /\
  nextEscrowId s' = nextEscrowId s + 1 /\
  escrows s' =
    upd (escrows s) (nextEscrowId s)
      (mkEscrow (msg_sender E) sl a (a * feeBps s / 10000) h 0
         (block_timestamp E + d) 0 w Active "").
Proof.
  intros H. pose proof (run_summary E (CreateEscrow sl a h d w) s) as R.
  cbn [run] in R. rewrite H in R. cbn [outcome_of written fst snd source passed] in R.
  tauto.
Qed.


Lemma resolveDispute_ok E i b s :
  match resolveDispute E i b s with
  | Ok s' _ =>
      msg_sender E = arbiter s /\
      status (escrows s i) = Disputed /\
      escrows s' = upd (escrows s) i (with_status Resolved (escrows s i)) /\
      usdc s' =
        (if b then refunded_to_buyer E (escrows s i) (usdc s)
         else paid_to_seller E (escrows s i) (feeRecipient s) (usdc s)) /\
      logs s' =
        logs s ++
        [DisputeResolved i
           (if b then buyer (escrows s i) else seller (escrows s i))
           (if b then amount (escrows s i) + fee (escrows s i)
            else amount (escrows s i))]
  | Revert _ => True
  end.
Proof.
  rewrite (bind_ret_r (resolveDispute E i b)). unfold_calls. exec; unfold ret;
    cbn [outcome_of after escrows nextEscrowId arbiter usdc logs feeRecipient
         push_log set_escrow set_usdc set_totalFeesCollected] in *;
    reflect_tests; unfold refunded_to_buyer, paid_to_seller;
    repeat match goal with
           | H : 0 < ?x |- context [0 <? ?x] =>
               rewrite (proj2 (Z.ltb_lt 0 x) H)
           | H : ?x <= 0 |- context [0 <? ?x] =>
               rewrite (proj2 (Z.ltb_ge 0 x) H)
           end;
    auto 10.
Qed.

Lemma resolveDispute_wrong_status E i b s :
  msg_sender E = arbiter s ->
  status (escrows s i) <> Disputed ->
  resolveDispute E i b s = Revert "Not disputed".
Proof. intros H1 H2. decide_call (resolveDispute E i b). Qed.

Lemma resolveDispute_not_arbiter E i b s :
  msg_sender E <> arbiter s ->
  resolveDispute E i b s = Revert "Not arbiter".
Proof. intros H1. decide_call (resolveDispute E i b). Qed.

Lemma balance_after_move t from to n :
  balanceOf (move t from to n) from =
  if from =? to then balanceOf t from else balanceOf t from - n.
Proof.
  unfold move, upd. cbn [balanceOf].
  destruct (from =? to) eqn:E.
  - apply Z.eqb_eq in E. subst to. rewrite Z.eqb_refl. lia.
  - now rewrite Z.eqb_refl.
Qed.

Lemma resolveDispute_succeeds E i b s :
  msg_sender E = arbiter s ->
  status (escrows s i) = Disputed ->
  0 <= amount (escrows s i) -> 0 <= fee (escrows s i) ->
  amount (escrows s i) + fee (escrows s i) <= balanceOf (usdc s) (this E) ->
  amount (escrows s i) + fee (escrows s i) <= MAX_UINT256 ->
  totalFeesCollected s + fee (escrows s i) <= MAX_UINT256 ->
  succeeded (resolveDispute E i b s) = true.
Proof.
  intros H1 H2 H3 H4 H5 H6 H7.
  rewrite (bind_ret_r (resolveDispute E i b)). unfold_calls. exec; unfold ret;
    cbn [succeeded outcome_of after escrows nextEscrowId arbiter usdc logs
         feeRecipient totalFeesCollected push_log set_escrow set_usdc
         set_totalFeesCollected] in *;
    try rewrite balance_after_move in *;
    repeat match goal with
           | H : context [if ?c then _ else _] |- _ => destruct c
           end;
    reflect_tests; try close_leaf.
Qed.

End ClawVaultFacts.

(* ================================================================== *)
(** * The lifecycle properties *)
(* ================================================================== *)

Import Clock.

Ltac by_computation :=
  vm_compute; first [reflexivity | discriminate | (let H := fresh in intros H; discriminate H)].

(** The vault of the scenarios is what the constructor builds. *)
Lemma vault_init_constructed :
  ClawVault.constructor vault_token 1 13 14 100 = Some vault_init.
Proof. reflexivity. Qed.

(** ** Refused operations *)

Lemma refused_is_invalid_state o s :
  Offchain.classify (Offchain.refusal o s) = Offchain.InvalidState.
Proof. destruct o; reflexivity. Qed.

Lemma apply_op_missing now o i d :
  Offchain.status_of i d = None ->
  Offchain.apply_op now o i d = (d, Offchain.Throw Offchain.EscrowNotFound).
Proof.
  unfold Offchain.status_of. intros H. rewrite OffchainFacts.apply_op_run.
  destruct (find _ (Offchain.escrows d)); [discriminate|reflexivity].
Qed.

Lemma apply_op_refused now o i d s :
  Offchain.status_of i d = Some s ->
  Offchain.permitted_from o s = false ->
  Offchain.apply_op now o i d = (d, Offchain.Throw (Offchain.refusal o s)).
Proof.
  unfold Offchain.status_of. intros H Hp. rewrite OffchainFacts.apply_op_run.
  destruct (find _ (Offchain.escrows d)) as [esc|]; [|discriminate].
  cbn [option_map] in H. injection H as H. rewrite H, Hp. reflexivity.
Qed.

Lemma apply_op_permitted now o i d s :
  Offchain.status_of i d = Some s ->
  Offchain.permitted_from o s = true ->
  Offchain.binds (Offchain.Lifecycle o i) = true ->
  exists esc d' ev,
    find (fun r => String.eqb (Offchain.id r) i) (Offchain.escrows d) = Some esc /\
    Offchain.status esc = s /\
    Offchain.logged now o i esc (List.length (Offchain.escrow_events d)) = Some ev /\
    Offchain.apply_op now o i d = (d', Offchain.Return (Offchain.replied o i esc)) /\
    Offchain.status_of i d' = Some (Offchain.target_status o) /\
    Offchain.escrow_events d' = Offchain.escrow_events d ++ [ev].
Proof.
  intros H Hp Hb.
  pose proof (OffchainFacts.status_of_apply_op now o i d i) as Hst.
  rewrite String.eqb_refl, H, Hp in Hst.
  unfold Offchain.status_of in H. rewrite OffchainFacts.apply_op_run in *.
  destruct (find _ (Offchain.escrows d)) as [esc|]; [|discriminate].
  cbn [option_map] in H. injection H as H. rewrite H, Hp in *.
  destruct (Offchain.logged now o i esc (List.length (Offchain.escrow_events d)))
    as [ev|] eqn:Hev;
    [|exfalso; exact (OffchainFacts.logged_binds now o i esc _ Hb Hev)].
  exists esc. eexists. exists ev. repeat split; try reflexivity; assumption.
Qed.

Lemma vault_revert_unless_source E c s i st :
  ClawVault.source c = Some (i, st) ->
  ClawVault.status (ClawVault.escrows s i) <> st ->
  exists m, ClawVault.run E c s = ClawVault.Revert m.
Proof.
  intros Hsrc Hst. pose proof (ClawVaultFacts.run_summary E c s) as H.
  destruct (ClawVault.run E c s) as [s' u|m]; [|now exists m].
  destruct H as (_ & _ & H & _). rewrite Hsrc in H. contradiction.
Qed.

(** C10.  Failure atomicity of the internal ledger: each of fund, deliver,
    accept, dispute and resolve, called on an id that is not in the table or
    on an escrow whose status its guard refuses, throws ("Escrow not found",
    respectively "Cannot ...: status is ...") and leaves both tables as they
    were: no row is updated and no event is appended. *)
Theorem C10_failure_atomicity :
  forall now o i d,
    (Offchain.status_of i d = None ->
     Offchain.apply_op now o i d = (d, Offchain.Throw Offchain.EscrowNotFound)) /\
    (forall s,
       Offchain.status_of i d = Some s ->
       Offchain.permitted_from o s = false ->
       Offchain.apply_op now o i d = (d, Offchain.Throw (Offchain.refusal o s))).
Proof.
  intros now o i d. split.
  - apply apply_op_missing.
  - intros s. apply apply_op_refused.
Qed.

Lemma C10_witness :
  Offchain.apply_op 5000 (Offchain.Fund "0xtx2") "esc_zz" db_funded
    = (db_funded, Offchain.Throw Offchain.EscrowNotFound) /\
  Offchain.apply_op 5000 (Offchain.Fund "0xtx2") "esc_aa" db_funded
    = (db_funded, Offchain.Throw (Offchain.CannotFund Offchain.funded)).
Proof.
  split.
  - apply (proj1 (C10_failure_atomicity 5000 (Offchain.Fund "0xtx2") "esc_zz" db_funded)).
    reflexivity.
  - apply (proj2 (C10_failure_atomicity 5000 (Offchain.Fund "0xtx2") "esc_aa" db_funded)
             Offchain.funded); reflexivity.
Defined.

(** C7.  Replay is an error, never a silent success.  In the internal
    ledger, accept on a completed escrow throws "Cannot accept: status is
    completed", an InvalidState error, and leaves the escrow and event
    tables untouched, so no event and no second payout message appear; the
    same holds for every lifecycle operation called from a status its guard
    refuses.  In the contract, acceptDelivery by the buyer of a completed
    escrow reverts with "Not delivered", and every transaction that names
    an escrow whose status is not the one it requires reverts and leaves
    the state, token ledger included, as it was. *)
Theorem C7_replay_is_error :
  (forall now i d,
     Offchain.status_of i d = Some Offchain.completed ->
     Offchain.acceptEscrow now i d =
       (d, Offchain.Throw (Offchain.CannotAccept Offchain.completed)) /\
     Offchain.error_message (Offchain.CannotAccept Offchain.completed) =
       "Cannot accept: status is completed"%string /\
     Offchain.classify (Offchain.CannotAccept Offchain.completed) = Offchain.InvalidState) /\
  (forall now o i d s,
     Offchain.status_of i d = Some s ->
     Offchain.permitted_from o s = false ->
     Offchain.apply_op now o i d = (d, Offchain.Throw (Offchain.refusal o s)) /\
     Offchain.classify (Offchain.refusal o s) = Offchain.InvalidState) /\
  (forall E i s,
     ClawVault.status (ClawVault.escrows s i) = ClawVault.Completed ->
     ClawVault.msg_sender E = ClawVault.buyer (ClawVault.escrows s i) ->
     ClawVault.acceptDelivery E i s = ClawVault.Revert "Not delivered" /\
     ClawVault.perform E (ClawVault.AcceptDelivery i) s = s) /\
  (forall E c s i st,
     ClawVault.source c = Some (i, st) ->
     ClawVault.status (ClawVault.escrows s i) <> st ->
     (exists m, ClawVault.run E c s = ClawVault.Revert m) /\
     ClawVault.perform E c s = s).
Proof.
  split; [|split; [|split]].
  - intros now i d H. split; [|split; reflexivity].
    exact (apply_op_refused now Offchain.Accept i d Offchain.completed H eq_refl).
  - intros now o i d s H Hp. split.
    + now apply apply_op_refused.
    + apply refused_is_invalid_state.
  - intros E i s Hst Hb.
    assert (Hrun : ClawVault.acceptDelivery E i s = ClawVault.Revert "Not delivered").
    { rewrite (ClawVaultFacts.bind_ret_r (ClawVault.acceptDelivery E i)).
      unfold ClawVault.acceptDelivery, ClawVault.onlyBuyer.
      rewrite ClawVaultFacts.bind_assoc, ClawVaultFacts.bind_assoc,
        ClawVaultFacts.bind_get.
      cbv beta. rewrite ClawVaultFacts.bind_require, Hb, Z.eqb_refl.
      rewrite ClawVaultFacts.bind_assoc, ClawVaultFacts.bind_get. cbv beta.
      rewrite ClawVaultFacts.bind_assoc, ClawVaultFacts.bind_require, Hst.
      reflexivity. }
    split; [exact Hrun|].
    unfold ClawVault.perform, ClawVault.run. rewrite Hrun. reflexivity.
  - intros E c s i st Hsrc Hst.
    destruct (vault_revert_unless_source E c s i st Hsrc Hst) as [m Hm].
    split; [now exists m|].
    unfold ClawVault.perform. rewrite Hm. reflexivity.
Qed.

Lemma C7_witness :
  Offchain.acceptEscrow 9000 "esc_aa" db_completed =
    (db_completed, Offchain.Throw (Offchain.CannotAccept Offchain.completed)) /\
  ClawVault.acceptDelivery (at_time 11 9000) 0 vault_completed =
    ClawVault.Revert "Not delivered" /\
  ClawVault.perform (at_time 11 9000) (ClawVault.ClaimByTimeout 0) vault_completed =
    vault_completed.
Proof.
  destruct C7_replay_is_error as (Ha & _ & Hc & Hd).
  split; [|split].
  - apply (Ha 9000 "esc_aa"%string db_completed). reflexivity.
  - apply (Hc (at_time 11 9000) 0 vault_completed); reflexivity.
  - apply (Hd (at_time 11 9000) (ClawVault.ClaimByTimeout 0) vault_completed 0
             ClawVault.Delivered); by_computation.
Defined.

(** ** The walk through the state machine *)


(** The run the amended C1 leaves out.  A dispute whose address SQLite
    cannot bind (the route passes on any truthy JSON value, an object or
    [true] among them) throws in [logEvent], after the UPDATE: the row is
    disputed, the event table is as it was, and the events of the escrow
    still replay to funded. *)
Lemma dispute_without_event :
  let run :=
    Offchain.disputeEscrow 2000 "esc_aa" Offchain.NotBindable "late" None db_funded in
  snd run = Offchain.Throw Offchain.CannotBind /\
  Offchain.status_of "esc_aa" (fst run) = Some Offchain.disputed /\
  Offchain.escrow_events (fst run) = Offchain.escrow_events db_funded /\
  Offchain.replay None (Offchain.events_of "esc_aa" (fst run)) =
    Some (Some Offchain.funded).
Proof. cbv zeta. repeat split; reflexivity. Qed.



(** ** Creation *)

(** Against C2: the internal ledger stores an escrow of amount 0 whose
    seller is its buyer. *)
Lemma C2_counterexample :
  snd (Offchain.createEscrow 0 "aa" "0xA" "0xA" "0" "X" None 24 Offchain.empty_db) =
    Offchain.Return (Offchain.mkReply "esc_aa" Offchain.created None) /\
  map (fun r => (Offchain.buyer_address r, Offchain.seller_address r,
                 Offchain.amount_usdc r, Offchain.status r))
      (Offchain.escrows
         (fst (Offchain.createEscrow 0 "aa" "0xA" "0xA" "0" "X" None 24
                 Offchain.empty_db))) =
    [("0xA", "0xA", "0", Offchain.created)]%string.
Proof. split; reflexivity. Qed.

(** C2, amended.  In the contract, createEscrow reverts ("Invalid seller" or
    "Amount must be > 0") and stores nothing whenever the amount is not
    positive or the seller is the caller, and when it succeeds the seller is
    neither zero nor the caller, the amount is positive, and the escrow it
    stores under the next id is Active with deadline = now +
    deadlineSeconds.  In the internal ledger, createEscrow with an id not
    yet in the table and a deadline that is a valid date stores one new row
    in status created whose deadline is the ISO text of now + deadlineHours
    * 3600 * 1000 ms, and logs one created event. *)
Theorem C2_create :
  (forall E sl a h d w s,
     a <= 0 \/ sl = ClawVault.msg_sender E ->
     (ClawVault.createEscrow E sl a h d w s = ClawVault.Revert "Invalid seller" \/
      ClawVault.createEscrow E sl a h d w s = ClawVault.Revert "Amount must be > 0") /\
     ClawVault.perform E (ClawVault.CreateEscrow sl a h d w) s = s) /\
  (forall E sl a h d w s s' i,
     ClawVault.createEscrow E sl a h d w s = ClawVault.Ok s' i ->
     sl <> 0 /\ sl <> ClawVault.msg_sender E /\ 0 < a /\
     ClawVault.nextEscrowId s' = ClawVault.nextEscrowId s + 1 /\
     ClawVault.escrows s' (ClawVault.nextEscrowId s) =
       ClawVault.mkEscrow (ClawVault.msg_sender E) sl a
         (a * ClawVault.feeBps s / 10000) h 0
         (ClawVault.block_timestamp E + d) 0 w ClawVault.Active "") /\
  (forall now h b sl a sd ac dh d dl,
     toISOString (now + dh * 3600 * 1000) = Some dl ->
     Offchain.status_of ("esc_" ++ h) d = None ->
     Offchain.createEscrow now h b sl a sd ac dh d =
       (Offchain.mkDb
          (Offchain.escrows d ++
           [Offchain.mkEscrow ("esc_" ++ h) b sl a sd ac dl Offchain.created
              None None None None None None (datetime now) (datetime now)])
          (Offchain.escrow_events d ++
           [Offchain.mkEvent (Z.of_nat (List.length (Offchain.escrow_events d)) + 1)
              ("esc_" ++ h) Offchain.ev_created b (Offchain.DataCreated a dl)
              (datetime now)]),
        Offchain.Return (Offchain.mkReply ("esc_" ++ h) Offchain.created None))).
Proof.
  split; [|split].
  - intros E sl a h d w s H.
    pose proof (ClawVaultFacts.createEscrow_invalid E sl a h d w s H) as Hr.
    split; [exact Hr|].
    unfold ClawVault.perform, ClawVault.run.
    destruct Hr as [Hr|Hr]; rewrite Hr; reflexivity.
  - intros E sl a h d w s s' i H.
    destruct (ClawVaultFacts.createEscrow_ok E sl a h d w s s' i H)
      as (H1 & H2 & H3 & _ & _ & H6 & H7).
    repeat split; try assumption.
    rewrite H7. unfold ClawVault.upd. now rewrite Z.eqb_refl.
  - intros now h b sl a sd ac dh d dl Hdl Hnew.
    rewrite OffchainFacts.createEscrow_run, Hdl.
    replace (existsb (fun r => String.eqb (Offchain.id r) ("esc_" ++ h))
               (Offchain.escrows d)) with false; [reflexivity|].
    symmetry. apply not_true_is_false. intros Hex.
    apply existsb_exists in Hex. destruct Hex as [r [Hin Heq]].
    unfold Offchain.status_of in Hnew.
    destruct (find (fun r => String.eqb (Offchain.id r) ("esc_" ++ h))
                (Offchain.escrows d)) eqn:Hf; [discriminate|].
    pose proof (find_none _ _ Hf r Hin) as Hn. cbv beta in Hn. congruence.
Qed.

Lemma C2_witness :
  ClawVault.perform (at_time 11 1000) (ClawVault.CreateEscrow 11 100 77 3600 3600)
    vault_init = vault_init /\
  ClawVault.escrows vault_active 0 =
    ClawVault.mkEscrow 11 12 100 1 77 0 4600 0 3600 ClawVault.Active "" /\
  Offchain.status_of "esc_aa" db_created = Some Offchain.created.
Proof.
  destruct C2_create as (Ha & Hb & Hc).
  split; [|split].
  - apply (Ha (at_time 11 1000) 11 100 77 3600 3600 vault_init). right. reflexivity.
  - refine (proj2 (proj2 (proj2 (proj2
      (Hb (at_time 11 1000) 12 100 77 3600 3600 vault_init vault_active 0 _))))).
    reflexivity.
  - unfold db_created, Offchain.perform.
    rewrite (Hc 0 "aa" "0xB" "0xS" "100" "X" None 1 Offchain.empty_db
               "1970-01-01T01:00:00.000Z")%string; reflexivity.
Defined.

(** ** Delivery *)

(** Against C3: nine days after the deadline the internal ledger still
    records the delivery of a funded escrow. *)
Lemma C3_counterexample :
  map Offchain.deadline (Offchain.escrows db_funded) = ["1970-01-01T01:00:00.000Z"%string] /\
  toISOString (10 * MS_PER_DAY) = Some "1970-01-11T00:00:00.000Z"%string /\
  snd (Offchain.deliverEscrow (10 * MS_PER_DAY) "esc_aa" "proof" db_funded) =
    Offchain.Return
      (Offchain.mkReply "esc_aa" Offchain.delivered
         (Some "Delivery recorded. Buyer has 24h to accept or dispute."%string)) /\
  Offchain.status_of "esc_aa"
    (fst (Offchain.deliverEscrow (10 * MS_PER_DAY) "esc_aa" "proof" db_funded)) =
    Some Offchain.delivered.
Proof. repeat split; reflexivity. Qed.

(** C3, amended.  In the contract, markDelivered succeeds only from Active,
    only for the seller, only while now <= deadline and only with a
    non-zero proof; the seller's call reverts with "Not active" from any
    other status and with "Deadline passed" once the deadline is over; on
    success the status is Delivered and deliveredAt is the block time, and
    no later transaction writes deliveredAt again.  In the internal ledger,
    deliverEscrow succeeds exactly from status funded, whatever the
    deadline, and sets the status to delivered; from any other status it
    throws "Cannot deliver: status is ..." and changes nothing. *)
Theorem C3_deliver :
  (forall E i h s s' u,
     ClawVault.markDelivered E i h s = ClawVault.Ok s' u ->
     ClawVault.status (ClawVault.escrows s i) = ClawVault.Active /\
     ClawVault.msg_sender E = ClawVault.seller (ClawVault.escrows s i) /\
     ClawVault.block_timestamp E <= ClawVault.deadline (ClawVault.escrows s i) /\
     h <> 0 /\
     ClawVault.status (ClawVault.escrows s' i) = ClawVault.Delivered /\
     ClawVault.deliveredAt (ClawVault.escrows s' i) = ClawVault.block_timestamp E) /\
  (forall E i h s,
     ClawVault.msg_sender E = ClawVault.seller (ClawVault.escrows s i) ->
     (ClawVault.status (ClawVault.escrows s i) <> ClawVault.Active ->
      ClawVault.markDelivered E i h s = ClawVault.Revert "Not active") /\
     (ClawVault.status (ClawVault.escrows s i) = ClawVault.Active ->
      ClawVault.deadline (ClawVault.escrows s i) < ClawVault.block_timestamp E ->
      ClawVault.markDelivered E i h s = ClawVault.Revert "Deadline passed")) /\
  (forall cs s i,
     0 <= i < ClawVault.nextEscrowId s ->
     ClawVault.status (ClawVault.escrows s i) <> ClawVault.Active ->
     ClawVault.deliveredAt (ClawVault.escrows (ClawVault.perform_all cs s) i) =
     ClawVault.deliveredAt (ClawVault.escrows s i)) /\
  (forall now i p d,
     (Offchain.status_of i d = Some Offchain.funded ->
      exists esc,
        snd (Offchain.deliverEscrow now i p d) =
          Offchain.Return (Offchain.replied (Offchain.Deliver p) i esc) /\
        Offchain.status_of i (fst (Offchain.deliverEscrow now i p d)) =
          Some Offchain.delivered) /\
     (forall st,
        Offchain.status_of i d = Some st -> st <> Offchain.funded ->
        Offchain.deliverEscrow now i p d =
          (d, Offchain.Throw (Offchain.CannotDeliver st)))).
Proof.
  split; [|split; [|split]].
  - intros E i h s s' u H.
    destruct (ClawVaultFacts.markDelivered_ok E i h s s' u H)
      as (H1 & H2 & H3 & H4 & H5).
    repeat split; try assumption; rewrite H5; unfold ClawVault.upd;
      rewrite Z.eqb_refl; reflexivity.
  - intros E i h s Hs. split.
    + now apply ClawVaultFacts.markDelivered_wrong_status.
    + now apply ClawVaultFacts.markDelivered_late.
  - intros cs s i. apply ClawVaultFacts.perform_all_frozen.
  - intros now i p d. split.
    + intros H.
      destruct (apply_op_permitted now (Offchain.Deliver p) i d Offchain.funded H
                  eq_refl eq_refl)
        as (esc & d' & ev & _ & _ & _ & Hrun & Hst & _).
      cbn [Offchain.apply_op] in Hrun. exists esc. rewrite Hrun. now split.
    + intros st H Hne.
      apply (apply_op_refused now (Offchain.Deliver p) i d st H).
      destruct st; try reflexivity. contradiction.
Qed.

Lemma C3_witness :
  ClawVault.status (ClawVault.escrows vault_delivered 0) = ClawVault.Delivered /\
  ClawVault.deliveredAt (ClawVault.escrows vault_delivered 0) = 2000 /\
  ClawVault.markDelivered (at_time 12 5000) 0 88 vault_active =
    ClawVault.Revert "Deadline passed" /\
  ClawVault.deliveredAt (ClawVault.escrows vault_completed 0) = 2000 /\
  Offchain.deliverEscrow 9000 "esc_aa" "again" db_completed =
    (db_completed, Offchain.Throw (Offchain.CannotDeliver Offchain.completed)).
Proof.
  destruct C3_deliver as (Ha & Hb & Hc & Hd).
  assert (Hrun : ClawVault.markDelivered (at_time 12 2000) 0 88 vault_active =
                 ClawVault.Ok vault_delivered tt) by reflexivity.
  destruct (Ha _ _ _ _ _ _ Hrun) as (_ & _ & _ & _ & H5 & H6).
  split; [exact H5|]. split; [exact H6|]. split; [|split].
  - apply (Hb (at_time 12 5000) 0 88 vault_active); [reflexivity|reflexivity|].
    cbn. lia.
  - apply (Hc [(at_time 11 3000, ClawVault.AcceptDelivery 0)] vault_delivered 0).
    + cbn. lia.
    + discriminate.
  - apply (proj2 (Hd 9000 "esc_aa" "again" db_completed) Offchain.completed)%string.
    + reflexivity.
    + discriminate.
Defined.

(** ** Disputes *)

(** Against C4: the internal ledger lets the seller dispute an escrow that
    is only funded, not delivered. *)
Lemma C4_counterexample :
  Offchain.status_of "esc_aa" db_funded = Some Offchain.funded /\
  map Offchain.seller_address (Offchain.escrows db_funded) = ["0xS"%string] /\
  snd (Offchain.disputeEscrow 2000 "esc_aa" (Offchain.Bindable "0xS") "late" None
         db_funded) =
    Offchain.Return
      (Offchain.mkReply "esc_aa" Offchain.disputed
         (Some "Dispute filed. TrustLayer will review and resolve within 48h."%string)) /\
  Offchain.status_of "esc_aa"
    (fst (Offchain.disputeEscrow 2000 "esc_aa" (Offchain.Bindable "0xS") "late" None
            db_funded)) =
    Some Offchain.disputed.
Proof. repeat split; reflexivity. Qed.

(** C4, amended.  In the contract, openDispute succeeds exactly when the
    escrow is Delivered, the caller is its buyer, now <= deliveredAt +
    acceptanceWindow and the reason is not empty; any other caller gets
    "Not buyer", and the buyer gets "Not delivered" from any other status,
    "Acceptance window expired" after the window and "Reason required" for
    an empty reason; on success the status is Disputed and the reason is
    stored.  In the internal ledger, disputeEscrow succeeds exactly from
    status funded or delivered, for any caller named by a text, at any
    time and with any reason, and sets the status to disputed; from any
    other status it
    throws "Cannot dispute: status is ..." and changes nothing. *)
Theorem C4_dispute :
  (forall E i r s s' u,
     ClawVault.openDispute E i r s = ClawVault.Ok s' u ->
     ClawVault.status (ClawVault.escrows s i) = ClawVault.Delivered /\
     ClawVault.msg_sender E = ClawVault.buyer (ClawVault.escrows s i) /\
     ClawVault.block_timestamp E <=
       ClawVault.deliveredAt (ClawVault.escrows s i) +
       ClawVault.acceptanceWindow (ClawVault.escrows s i) /\
     r <> ""%string /\
     ClawVault.status (ClawVault.escrows s' i) = ClawVault.Disputed /\
     ClawVault.disputeReason (ClawVault.escrows s' i) = r) /\
  (forall E i r s,
     ClawVault.status (ClawVault.escrows s i) = ClawVault.Delivered ->
     ClawVault.msg_sender E = ClawVault.buyer (ClawVault.escrows s i) ->
     ClawVault.deliveredAt (ClawVault.escrows s i) +
       ClawVault.acceptanceWindow (ClawVault.escrows s i) <= ClawVault.MAX_UINT256 ->
     ClawVault.block_timestamp E <=
       ClawVault.deliveredAt (ClawVault.escrows s i) +
       ClawVault.acceptanceWindow (ClawVault.escrows s i) ->
     r <> ""%string ->
     ClawVault.succeeded (ClawVault.openDispute E i r s) = true) /\
  (forall E i r s,
     (ClawVault.msg_sender E <> ClawVault.buyer (ClawVault.escrows s i) ->
      ClawVault.openDispute E i r s = ClawVault.Revert "Not buyer") /\
     (ClawVault.msg_sender E = ClawVault.buyer (ClawVault.escrows s i) ->
      ClawVault.status (ClawVault.escrows s i) <> ClawVault.Delivered ->
      ClawVault.openDispute E i r s = ClawVault.Revert "Not delivered") /\
     (ClawVault.msg_sender E = ClawVault.buyer (ClawVault.escrows s i) ->
      ClawVault.status (ClawVault.escrows s i) = ClawVault.Delivered ->
      ClawVault.deliveredAt (ClawVault.escrows s i) +
        ClawVault.acceptanceWindow (ClawVault.escrows s i) <= ClawVault.MAX_UINT256 ->
      (ClawVault.deliveredAt (ClawVault.escrows s i) +
         ClawVault.acceptanceWindow (ClawVault.escrows s i) < ClawVault.block_timestamp E ->
       ClawVault.openDispute E i r s = ClawVault.Revert "Acceptance window expired") /\
      (ClawVault.block_timestamp E <=
         ClawVault.deliveredAt (ClawVault.escrows s i) +
         ClawVault.acceptanceWindow (ClawVault.escrows s i) ->
       ClawVault.openDispute E i "" s = ClawVault.Revert "Reason required"))) /\
  (forall now i (a : string) r e d,
     (forall st,
        Offchain.status_of i d = Some st ->
        st = Offchain.funded \/ st = Offchain.delivered ->
        exists esc,
          snd (Offchain.disputeEscrow now i (Offchain.Bindable a) r e d) =
            Offchain.Return
              (Offchain.replied (Offchain.Dispute (Offchain.Bindable a) r e) i esc) /\
          Offchain.status_of i
            (fst (Offchain.disputeEscrow now i (Offchain.Bindable a) r e d)) =
            Some Offchain.disputed) /\
     (forall st,
        Offchain.status_of i d = Some st ->
        st <> Offchain.funded -> st <> Offchain.delivered ->
        Offchain.disputeEscrow now i (Offchain.Bindable a) r e d =
          (d, Offchain.Throw (Offchain.CannotDispute st)))).
Proof.
  split; [|split; [|split]].
  - intros E i r s s' u H.
    destruct (ClawVaultFacts.openDispute_ok E i r s s' u H)
      as (H1 & H2 & H3 & H4 & H5).
    repeat split; try assumption; rewrite H5; unfold ClawVault.upd;
      rewrite Z.eqb_refl; reflexivity.
  - intros E i r s H1 H2 H3 H4 H5.
    now rewrite (ClawVaultFacts.openDispute_succeeds E i r s H1 H2 H3 H4 H5).
  - intros E i r s. split; [|split].
    + apply ClawVaultFacts.openDispute_not_buyer.
    + apply ClawVaultFacts.openDispute_wrong_status.
    + intros H1 H2 H3. split.
      * now apply ClawVaultFacts.openDispute_late.
      * now apply ClawVaultFacts.openDispute_no_reason.
  - intros now i a r e d. split.
    + intros st H Hst.
      assert (Hp : Offchain.permitted_from
                     (Offchain.Dispute (Offchain.Bindable a) r e) st = true)
        by (destruct Hst; subst st; reflexivity).
      destruct (apply_op_permitted now (Offchain.Dispute (Offchain.Bindable a) r e)
                  i d st H Hp eq_refl)
        as (esc & d' & ev & _ & _ & _ & Hrun & Hst' & _).
      cbn [Offchain.apply_op] in Hrun. exists esc. rewrite Hrun. now split.
    + intros st H Hn1 Hn2.
      apply (apply_op_refused now (Offchain.Dispute (Offchain.Bindable a) r e)
               i d st H).
      destruct st; try reflexivity; contradiction.
Qed.

Lemma C4_witness :
  ClawVault.status (ClawVault.escrows vault_disputed 0) = ClawVault.Disputed /\
  ClawVault.succeeded (ClawVault.openDispute (at_time 11 5600) 0 "bad" vault_delivered) = true /\
  ClawVault.openDispute (at_time 11 5601) 0 "bad" vault_delivered =
    ClawVault.Revert "Acceptance window expired" /\
  Offchain.disputeEscrow 9000 "esc_aa" (Offchain.Bindable "0xB") "late" None
    db_completed =
    (db_completed, Offchain.Throw (Offchain.CannotDispute Offchain.completed)).
Proof.
  destruct C4_dispute as (Ha & Hb & Hc & Hd).
  assert (Hrun : ClawVault.openDispute (at_time 11 3000) 0 "bad" vault_delivered =
                 ClawVault.Ok vault_disputed tt) by reflexivity.
  destruct (Ha _ _ _ _ _ _ Hrun) as (_ & _ & _ & _ & H5 & _).
  split; [exact H5|]. split; [|split].
  - apply (Hb (at_time 11 5600) 0 "bad"%string vault_delivered); by_computation.
  - destruct (Hc (at_time 11 5601) 0 "bad"%string vault_delivered) as (_ & _ & H3).
    apply H3; by_computation.
  - apply (proj2 (Hd 9000 "esc_aa" "0xB" "late" None db_completed) Offchain.completed)%string;
      [reflexivity|discriminate|discriminate].
Defined.

(** ** Resolution *)

(** Against C5: in the internal ledger a dispute won by the seller ends in
    status completed; there is no status resolved. *)
Lemma C5_counterexample :
  Offchain.status_of "esc_aa" db_disputed = Some Offchain.disputed /\
  Offchain.status_of "esc_aa"
    (fst (Offchain.resolveDispute 4000 "esc_aa" "delivered as agreed" "seller"
            db_disputed)) = Some Offchain.completed /\
  Offchain.to_spec Offchain.completed <> Spec.Resolved.
Proof. repeat split; try reflexivity. discriminate. Qed.

(** C5, amended.  In the contract, resolveDispute by the arbiter on a
    Disputed escrow whose funds the vault holds succeeds; whenever it
    succeeds the status becomes Resolved, the token ledger records the
    refund of amount + fee to the buyer when the buyer wins, or the payment
    of amount to the seller and of the fee to the fee recipient when the
    seller wins, and DisputeResolved is logged; from any other status the
    arbiter's call reverts with "Not disputed".  In the internal ledger,
    resolveDispute on a disputed escrow sets the status to refunded when
    winner is "buyer" and to completed otherwise, logs one resolved event
    and answers with the refund message for the buyer or the payment
    message for the seller; from any other status it throws "Cannot
    resolve: status is ..." and changes nothing. *)
Theorem C5_resolve :
  (forall E i b s s' u,
     ClawVault.resolveDispute E i b s = ClawVault.Ok s' u ->
     ClawVault.msg_sender E = ClawVault.arbiter s /\
     ClawVault.status (ClawVault.escrows s i) = ClawVault.Disputed /\
     ClawVault.status (ClawVault.escrows s' i) = ClawVault.Resolved /\
     ClawVault.usdc s' =
       (if b then ClawVault.refunded_to_buyer E (ClawVault.escrows s i) (ClawVault.usdc s)
        else ClawVault.paid_to_seller E (ClawVault.escrows s i)
               (ClawVault.feeRecipient s) (ClawVault.usdc s)) /\
     ClawVault.logs s' =
       ClawVault.logs s ++
       [ClawVault.DisputeResolved i
          (if b then ClawVault.buyer (ClawVault.escrows s i)
           else ClawVault.seller (ClawVault.escrows s i))
          (if b then ClawVault.amount (ClawVault.escrows s i) +
                     ClawVault.fee (ClawVault.escrows s i)
           else ClawVault.amount (ClawVault.escrows s i))]) /\
  (forall E i b s,
     ClawVault.msg_sender E = ClawVault.arbiter s ->
     ClawVault.status (ClawVault.escrows s i) = ClawVault.Disputed ->
     0 <= ClawVault.amount (ClawVault.escrows s i) ->
     0 <= ClawVault.fee (ClawVault.escrows s i) ->
     ClawVault.amount (ClawVault.escrows s i) + ClawVault.fee (ClawVault.escrows s i)
       <= ClawVault.balanceOf (ClawVault.usdc s) (ClawVault.this E) ->
     ClawVault.amount (ClawVault.escrows s i) + ClawVault.fee (ClawVault.escrows s i)
       <= ClawVault.MAX_UINT256 ->
     ClawVault.totalFeesCollected s + ClawVault.fee (ClawVault.escrows s i)
       <= ClawVault.MAX_UINT256 ->
     ClawVault.succeeded (ClawVault.resolveDispute E i b s) = true) /\
  (forall E i b s,
     ClawVault.msg_sender E = ClawVault.arbiter s ->
     ClawVault.status (ClawVault.escrows s i) <> ClawVault.Disputed ->
     ClawVault.resolveDispute E i b s = ClawVault.Revert "Not disputed") /\
  (forall now i res w d,
     (Offchain.status_of i d = Some Offchain.disputed ->
      exists esc,
        snd (Offchain.resolveDispute now i res w d) =
          Offchain.Return
            (Offchain.mkReply i
               (if String.eqb w "buyer" then Offchain.refunded else Offchain.completed)
               (Some (if String.eqb w "buyer"
                      then Offchain.refund_message esc
                      else Offchain.release_message esc))) /\
        Offchain.status_of i (fst (Offchain.resolveDispute now i res w d)) =
          Some (if String.eqb w "buyer" then Offchain.refunded else Offchain.completed) /\
        Offchain.escrow_events (fst (Offchain.resolveDispute now i res w d)) =
          Offchain.escrow_events d ++
          [Offchain.mkEvent (Z.of_nat (List.length (Offchain.escrow_events d)) + 1)
             i Offchain.ev_resolved "trustlayer" (Offchain.DataResolved res w)
             (datetime now)]) /\
     (forall st,
        Offchain.status_of i d = Some st -> st <> Offchain.disputed ->
        Offchain.resolveDispute now i res w d =
          (d, Offchain.Throw (Offchain.CannotResolve st)))).
Proof.
  split; [|split; [|split]].
  - intros E i b s s' u H.
    pose proof (ClawVaultFacts.resolveDispute_ok E i b s) as R. rewrite H in R.
    destruct R as (H1 & H2 & H3 & H4 & H5).
    repeat split; try assumption.
    rewrite H3. unfold ClawVault.upd. now rewrite Z.eqb_refl.
  - intros E i b s. apply ClawVaultFacts.resolveDispute_succeeds.
  - intros E i b s. apply ClawVaultFacts.resolveDispute_wrong_status.
  - intros now i res w d. split.
    + intros H.
      destruct (apply_op_permitted now (Offchain.Resolve res w) i d Offchain.disputed
                  H eq_refl eq_refl)
        as (esc & d' & ev & _ & _ & Hlog & Hrun & Hst & Hev).
      cbn [Offchain.apply_op] in Hrun. exists esc. rewrite Hrun.
      cbn [fst snd]. split; [reflexivity|]. split; [exact Hst|].
      cbn [Offchain.logged] in Hlog. injection Hlog as <-. exact Hev.
    + intros st H Hne.
      apply (apply_op_refused now (Offchain.Resolve res w) i d st H).
      destruct st; try reflexivity; contradiction.
Qed.

Lemma C5_witness :
  ClawVault.status (ClawVault.escrows vault_resolved 0) = ClawVault.Resolved /\
  ClawVault.succeeded
    (ClawVault.resolveDispute (at_time 13 4000) 0 false vault_disputed) = true /\
  ClawVault.resolveDispute (at_time 13 4000) 0 true vault_completed =
    ClawVault.Revert "Not disputed" /\
  Offchain.status_of "esc_aa"
    (fst (Offchain.resolveDispute 4000 "esc_aa" "refund" "buyer" db_disputed)) =
    Some Offchain.refunded /\
  Offchain.resolveDispute 4000 "esc_aa" "refund" "buyer" db_completed =
    (db_completed, Offchain.Throw (Offchain.CannotResolve Offchain.completed)).
Proof.
  destruct C5_resolve as (Ha & Hb & Hc & Hd).
  assert (Hrun : ClawVault.resolveDispute (at_time 13 4000) 0 true vault_disputed =
                 ClawVault.Ok vault_resolved tt) by reflexivity.
  destruct (Ha _ _ _ _ _ _ Hrun) as (_ & _ & H3 & _).
  split; [exact H3|]. split; [|split; [|split]].
  - apply (Hb (at_time 13 4000) 0 false vault_disputed); by_computation.
  - apply (Hc (at_time 13 4000) 0 true vault_completed); by_computation.
  - destruct (proj1 (Hd 4000 "esc_aa" "refund" "buyer" db_disputed)%string eq_refl)
      as (esc & _ & H & _).
    exact H.
  - apply (proj2 (Hd 4000 "esc_aa" "refund" "buyer" db_completed)%string Offchain.completed);
      [reflexivity|discriminate].
Defined.





(** ** The expiry sweep *)

(** Against C8: ten days after creation, nine days and 23 hours after its
    deadline, an escrow that was never funded is still in status created
    after a sweep. *)
Lemma C8_counterexample :
  Offchain.status_of "esc_aa" db_created = Some Offchain.created /\
  map Offchain.deadline (Offchain.escrows db_created) =
    ["1970-01-01T01:00:00.000Z"%string] /\
  datetime (10 * MS_PER_DAY) = "1970-01-11 00:00:00"%string /\
  Offchain.processExpiredEscrows (10 * MS_PER_DAY) db_created =
    (db_created, Offchain.Return (0%nat, 0%nat)) /\
  Offchain.status_of "esc_aa" (Offchain.escrowJob (10 * MS_PER_DAY) db_created) =
    Some Offchain.created.
Proof. repeat split; reflexivity. Qed.

(** C8, amended.  A sweep never throws and rewrites the escrow table row by
    row.  (a) It selects exactly the escrows in status delivered whose last
    update, the delivery, is in whole seconds more than 24 hours before now;
    the window is this fixed constant, the internal ledger has no per-escrow
    window; it completes each of them as acceptEscrow does.  (b) It refunds
    only escrows in status funded, and, when the year of the deadline has
    four digits, only ones whose deadline lies strictly before now; escrows
    in status created are never touched.
    Every other row is left as it is, and the sweep returns the numbers of
    released and of refunded escrows. *)
Theorem C8_sweep :
  forall now d,
    Offchain.unique_ids d ->
    four_digit_year now -> four_digit_year (now - MS_PER_DAY) ->
    (exists evs,
       Offchain.processExpiredEscrows now d =
         (Offchain.mkDb (map (Offchain.sweep_row now) (Offchain.escrows d)) evs,
          Offchain.Return
            (List.length (filter (Offchain.release_due now) (Offchain.escrows d)),
             List.length (filter (Offchain.refund_due now) (Offchain.escrows d))))) /\
    (forall r,
       In r (Offchain.escrows d) ->
       Offchain.status_of (Offchain.id r) (Offchain.escrowJob now d) =
         Some (Offchain.status (Offchain.sweep_row now r))) /\
    (forall r u,
       Offchain.status r = Offchain.delivered ->
       Offchain.updated_at r = datetime u -> four_digit_year u ->
       Offchain.sweep_row now r =
         if u / MS_PER_SECOND + 86400 <? now / MS_PER_SECOND
         then Offchain.set_status now Offchain.completed r else r) /\
    (forall r,
       Offchain.status r = Offchain.funded ->
       (Offchain.sweep_row now r = r \/
        Offchain.sweep_row now r = Offchain.set_status now Offchain.refunded r) /\
       (forall dl,
          toISOString dl = Some (Offchain.deadline r) -> four_digit_year dl ->
          Offchain.sweep_row now r <> r -> dl < now)) /\
    (forall r,
       Offchain.status r <> Offchain.delivered ->
       Offchain.status r <> Offchain.funded ->
       Offchain.sweep_row now r = r).
Proof.
  intros now d Hu Hnow Hprev. split; [|split; [|split; [|split]]].
  - apply OffchainFacts.sweep_exact. exact Hu.
  - intros r Hin. now apply OffchainFacts.status_of_escrowJob.
  - intros r u Hst Hup Hfd.
    rewrite (OffchainFacts.sweep_row_delivered now r Hst).
    now rewrite (OffchainFacts.release_in_seconds now r u Hfd Hprev Hup).
  - intros r Hst. rewrite (OffchainFacts.sweep_row_funded now r Hst). split.
    + destruct (text_lt (Offchain.deadline r) (datetime now)); auto.
    + intros dl Hdl Hfd Hmoved.
      destruct (text_lt (Offchain.deadline r) (datetime now)) eqn:Hlt;
        [|contradiction].
      exact (ClockFacts.iso_datetime_lt_sound dl now _ Hfd Hnow Hdl Hlt).
  - intros r. apply OffchainFacts.sweep_row_other.
Qed.

Lemma one_day_later_in_range now :
  86400000 <= now <= 86500000 ->
  four_digit_year now /\ four_digit_year (now - MS_PER_DAY).
Proof.
  unfold four_digit_year, MIN_TEXT_INSTANT, MAX_TEXT_INSTANT, MS_PER_DAY. lia.
Defined.

Lemma single_row_unique r evs : Offchain.unique_ids (Offchain.mkDb [r] evs).
Proof. unfold Offchain.unique_ids. cbn. constructor; [intros []|constructor]. Defined.

Lemma C8_witness :
  Offchain.status_of "esc_aa" (Offchain.escrowJob (MS_PER_DAY + 3000) db_delivered) =
    Some Offchain.completed /\
  Offchain.sweep_row (MS_PER_DAY + 2999) row_delivered = row_delivered /\
  Offchain.sweep_row (MS_PER_DAY + 3000) row_funded <> row_funded.
Proof.
  destruct (one_day_later_in_range (MS_PER_DAY + 3000)) as [H1 H2];
    [unfold MS_PER_DAY; lia|].
  destruct (one_day_later_in_range (MS_PER_DAY + 2999)) as [H3 H4];
    [unfold MS_PER_DAY; lia|].
  split; [|split].
  - destruct (C8_sweep (MS_PER_DAY + 3000) db_delivered
                (single_row_unique row_delivered _) H1 H2) as (_ & Hst & _).
    exact (Hst row_delivered (or_introl eq_refl)).
  - destruct (C8_sweep (MS_PER_DAY + 2999) db_delivered
                (single_row_unique row_delivered _) H3 H4) as (_ & _ & Hrel & _).
    rewrite (Hrel row_delivered 2000 eq_refl eq_refl).
    + reflexivity.
    + unfold four_digit_year, MIN_TEXT_INSTANT, MAX_TEXT_INSTANT. lia.
  - by_computation.
Defined.

(** The refund query compares an ISO text with a [datetime] text.  On the
    day of the deadline the eleventh character decides, and ["T"] is above
    the space: four hours after its deadline the funded escrow of the
    scenario is not refunded, at the next midnight it is. *)
Lemma refund_waits_for_midnight :
  toISOString MS_PER_HOUR = Some "1970-01-01T01:00:00.000Z"%string /\
  datetime (5 * MS_PER_HOUR) = "1970-01-01 05:00:00"%string /\
  text_lt "1970-01-01T01:00:00.000Z" "1970-01-01 05:00:00" = false /\
  Offchain.status_of "esc_aa" (Offchain.escrowJob (5 * MS_PER_HOUR) db_funded) =
    Some Offchain.funded /\
  Offchain.status_of "esc_aa" (Offchain.escrowJob MS_PER_DAY db_funded) =
    Some Offchain.refunded.
Proof. repeat split; vm_compute; reflexivity. Qed.

(** ** Timeouts *)

(** What does hold of the timeouts.  In the contract, reclaimExpired
    succeeds only when now > deadline and claimByTimeout only when now >
    deliveredAt + acceptanceWindow; at or before the boundary the buyer's
    reclaimExpired reverts with "Deadline not passed" and the seller's
    claimByTimeout with "Acceptance window not expired".  In the internal
    ledger, the sweep completes a delivered escrow only when now is strictly
    after its delivery plus 24 hours, and refunds an escrow whose deadline
    has a four-digit year only when now is strictly after that deadline. *)
Lemma timeouts_are_strict :
  (forall E i s s' u,
     ClawVault.reclaimExpired E i s = ClawVault.Ok s' u ->
     ClawVault.deadline (ClawVault.escrows s i) < ClawVault.block_timestamp E) /\
  (forall E i s,
     ClawVault.msg_sender E = ClawVault.buyer (ClawVault.escrows s i) ->
     ClawVault.status (ClawVault.escrows s i) = ClawVault.Active ->
     ClawVault.block_timestamp E <= ClawVault.deadline (ClawVault.escrows s i) ->
     ClawVault.reclaimExpired E i s = ClawVault.Revert "Deadline not passed") /\
  (forall E i s s' u,
     ClawVault.claimByTimeout E i s = ClawVault.Ok s' u ->
     ClawVault.deliveredAt (ClawVault.escrows s i) +
       ClawVault.acceptanceWindow (ClawVault.escrows s i) < ClawVault.block_timestamp E) /\
  (forall E i s,
     ClawVault.msg_sender E = ClawVault.seller (ClawVault.escrows s i) ->
     ClawVault.status (ClawVault.escrows s i) = ClawVault.Delivered ->
     ClawVault.deliveredAt (ClawVault.escrows s i) +
       ClawVault.acceptanceWindow (ClawVault.escrows s i) <= ClawVault.MAX_UINT256 ->
     ClawVault.block_timestamp E <=
       ClawVault.deliveredAt (ClawVault.escrows s i) +
       ClawVault.acceptanceWindow (ClawVault.escrows s i) ->
     ClawVault.claimByTimeout E i s = ClawVault.Revert "Acceptance window not expired") /\
  (forall now d r dl,
     Offchain.unique_ids d -> In r (Offchain.escrows d) ->
     four_digit_year now -> four_digit_year dl ->
     toISOString dl = Some (Offchain.deadline r) ->
     Offchain.status r <> Offchain.refunded ->
     Offchain.status_of (Offchain.id r) (Offchain.escrowJob now d) =
       Some Offchain.refunded ->
     dl < now) /\
  (forall now d r u,
     Offchain.unique_ids d -> In r (Offchain.escrows d) ->
     four_digit_year (now - MS_PER_DAY) -> four_digit_year u ->
     Offchain.updated_at r = datetime u ->
     Offchain.status r <> Offchain.completed ->
     Offchain.status_of (Offchain.id r) (Offchain.escrowJob now d) =
       Some Offchain.completed ->
     u + MS_PER_DAY < now).
Proof.
  split; [|split; [|split; [|split; [|split]]]].
  - intros E i s s' u H.
    now destruct (ClawVaultFacts.reclaimExpired_ok E i s s' u H) as (_ & _ & H3 & _).
  - intros E i s. apply ClawVaultFacts.reclaimExpired_early.
  - intros E i s s' u H.
    now destruct (ClawVaultFacts.claimByTimeout_ok E i s s' u H) as (_ & _ & H3 & _).
  - intros E i s. apply ClawVaultFacts.claimByTimeout_early.
  - intros now d r dl Hu Hin Hnow Hdl Hiso Hst Hafter.
    rewrite (OffchainFacts.status_of_escrowJob now d r Hu Hin) in Hafter.
    injection Hafter as Hafter.
    unfold Offchain.sweep_row in Hafter.
    destruct (Offchain.release_due now r); [discriminate|].
    destruct (Offchain.refund_due now r) eqn:Hdue; [|contradiction].
    unfold Offchain.refund_due in Hdue. apply andb_true_iff in Hdue.
    destruct Hdue as [_ Hlt].
    exact (ClockFacts.iso_datetime_lt_sound dl now _ Hdl Hnow Hiso Hlt).
  - intros now d r u Hu Hin Hprev Hfd Hup Hst Hafter.
    rewrite (OffchainFacts.status_of_escrowJob now d r Hu Hin) in Hafter.
    injection Hafter as Hafter.
    unfold Offchain.sweep_row in Hafter.
    destruct (Offchain.release_due now r) eqn:Hdue.
    + unfold Offchain.release_due in Hdue. apply andb_true_iff in Hdue.
      destruct Hdue as [_ Hlt].
      rewrite (OffchainFacts.release_in_seconds now r u Hfd Hprev Hup) in Hlt.
      apply Z.ltb_lt in Hlt. unfold MS_PER_SECOND, MS_PER_DAY in *.
      ClockFacts.div_lia.
    + destruct (Offchain.refund_due now r); [discriminate|contradiction].
Qed.

Lemma timeouts_at_the_boundary :
  ClawVault.reclaimExpired (at_time 11 4600) 0 vault_active =
    ClawVault.Revert "Deadline not passed" /\
  ClawVault.claimByTimeout (at_time 12 5600) 0 vault_delivered =
    ClawVault.Revert "Acceptance window not expired" /\
  ClawVault.deadline (ClawVault.escrows vault_active 0) < 4601 /\
  3600000 < MS_PER_DAY + 3000 /\
  2000 + MS_PER_DAY < MS_PER_DAY + 3000.
Proof.
  destruct timeouts_are_strict as (Ha & Hb & Hc & Hd & He & Hf).
  destruct (one_day_later_in_range (MS_PER_DAY + 3000)) as [H1 H2];
    [unfold MS_PER_DAY; lia|].
  split; [|split; [|split; [|split]]].
  - apply (Hb (at_time 11 4600) 0 vault_active); by_computation.
  - apply (Hd (at_time 12 5600) 0 vault_delivered); by_computation.
  - refine (Ha (at_time 11 4601) 0 vault_active
              (ClawVault.perform (at_time 11 4601) (ClawVault.ReclaimExpired 0) vault_active)
              tt _).
    vm_compute. reflexivity.
  - apply (He (MS_PER_DAY + 3000) db_funded row_funded 3600000
             (single_row_unique row_funded _) (or_introl eq_refl) H1).
    + unfold four_digit_year, MIN_TEXT_INSTANT, MAX_TEXT_INSTANT. lia.
    + vm_compute. reflexivity.
    + discriminate.
    + vm_compute. reflexivity.
  - apply (Hf (MS_PER_DAY + 3000) db_delivered row_delivered 2000
             (single_row_unique row_delivered _) (or_introl eq_refl) H2).
    + unfold four_digit_year, MIN_TEXT_INSTANT, MAX_TEXT_INSTANT. lia.
    + vm_compute. reflexivity.
    + discriminate.
    + vm_compute. reflexivity.
Qed.

(** C9.  The sweep's refund is not strict in time: it compares the ISO text
    of the deadline with SQLite's [datetime] text, and a deadline whose year
    has more than four digits starts with ["+"], below every digit.  An
    escrow created at the epoch with a deadline 100000000 hours ahead (year
    13377) and funded is refunded by the sweep five minutes later, long
    before its deadline. *)
Theorem C9_far_deadline_refunded_at_once :
  toISOString (0 + 100000000 * 3600 * 1000) = Some "+013377-12-11T16:00:00.000Z"%string /\
  map Offchain.deadline (Offchain.escrows db_far_funded) =
    ["+013377-12-11T16:00:00.000Z"%string] /\
  Offchain.status_of "esc_bb" db_far_funded = Some Offchain.funded /\
  datetime 300000 = "1970-01-01 00:05:00"%string /\
  text_lt "+013377-12-11T16:00:00.000Z" "1970-01-01 00:05:00" = true /\
  300000 < 0 + 100000000 * 3600 * 1000 /\
  Offchain.status_of "esc_bb" (Offchain.escrowJob 300000 db_far_funded) =
    Some Offchain.refunded.
Proof. repeat split; vm_compute; reflexivity. Qed.

(* ================================================================== *)
(** * The accounts of the contract *)
(* ================================================================== *)

Module VaultAccounts.
Import ClawVault ClawVaultFacts.

(** ** Symbolic execution with every field of the state in view *)

Ltac project_all :=
  cbn [outcome_of after escrows nextEscrowId arbiter feeRecipient feeBps usdc
       logs totalEscrowsCreated totalVolumeUsdc totalFeesCollected
       push_log set_escrow set_usdc set_nextEscrowId set_totalEscrowsCreated
       set_totalVolumeUsdc set_totalFeesCollected set_admin
       settled administered emitted counted fee_paid fst snd app] in *.

Ltac run_all f :=
  rewrite (bind_ret_r f); unfold_calls; exec; unfold ret; project_all;
  reflect_tests.

(** What a successful transaction leaves in the token ledger, the admin
    settings, the counters and the log, and the checks on amounts it has
    passed. *)
Lemma run_account E c s :
  match run E c s with
  | Ok s' _ =>
      usdc s' = settled E c s /\
      (arbiter s', feeRecipient s', feeBps s') = administered c s /\
      (totalEscrowsCreated s', totalVolumeUsdc s', totalFeesCollected s') =
        counted c s /\
      logs s' = logs s ++ emitted E c s /\
      match c with
      | CreateEscrow _ a _ _ _ =>
          a + a * feeBps s / 10000 <= MAX_UINT256 /\
          a + a * feeBps s / 10000 <= balanceOf (usdc s) (msg_sender E) /\
          a + a * feeBps s / 10000 <= allowance (usdc s) (msg_sender E) (this E) /\
          nextEscrowId s + 1 <= MAX_UINT256
      | UpdateFee f => f <= MAX_FEE
      | UpdateArbiter a | UpdateFeeRecipient a => a <> 0
      | _ => True
      end
  | Revert _ => True
  end.
Proof.
  destruct c; unfold run;
    match goal with
    | |- context [outcome_of (?f s)] => run_all f
    | |- context [match ?f s with _ => _ end] => run_all f
    end.
  all: try exact I.
  all: unfold paid_to_seller, refunded_to_buyer, pulled;
    repeat match goal with
           | H : 0 < ?x |- context [0 <? ?x] =>
               rewrite (proj2 (Z.ltb_lt 0 x) H)
           | H : ?x <= 0 |- context [0 <? ?x] =>
               rewrite (proj2 (Z.ltb_ge 0 x) H)
           end;
    repeat split; try reflexivity;
    try (symmetry; apply app_nil_r); try assumption;
    match goal with
    | |- (_, _, _) = (_, _, _) => f_equal; lia
    end.
Qed.

(** ** Sums over the ids handed out *)

Lemma sum_to_upd (h : Escrow -> Z) m i e n :
  sum_to n (fun j => h (upd m i e j)) =
  sum_to n (fun j => h (m j)) +
  (if (0 <=? i) && (i <? Z.of_nat n) then h e - h (m i) else 0).
Proof.
  induction n as [|n IH].
  - cbn [sum_to]. destruct (0 <=? i) eqn:E0; cbn [andb]; [|reflexivity].
    destruct (Z.ltb_spec i (Z.of_nat 0)); [lia|reflexivity].
  - cbn [sum_to]. rewrite IH. unfold upd at 1.
    destruct (Z.leb_spec 0 i); cbn [andb].
    + destruct (Z.ltb_spec i (Z.of_nat n)); destruct (Z.ltb_spec i (Z.of_nat (S n)));
        destruct (Z.eqb_spec (Z.of_nat n) i); try lia.
      subst i. lia.
    + destruct (Z.eqb_spec (Z.of_nat n) i); lia.
Qed.

Lemma sum_to_nonneg n g :
  (forall i, 0 <= i < Z.of_nat n -> 0 <= g i) -> 0 <= sum_to n g.
Proof.
  induction n as [|n IH]; intros H; cbn [sum_to]; [lia|].
  assert (0 <= sum_to n g) by (apply IH; intros i Hi; apply H; lia).
  assert (0 <= g (Z.of_nat n)) by (apply H; lia). lia.
Qed.

Lemma sum_to_bound n g k :
  (forall i, 0 <= i < Z.of_nat n -> 0 <= g i) ->
  0 <= k < Z.of_nat n -> g k <= sum_to n g.
Proof.
  induction n as [|n IH]; intros H Hk; [lia|]. cbn [sum_to].
  assert (0 <= sum_to n g) by (apply sum_to_nonneg; intros i Hi; apply H; lia).
  assert (0 <= g (Z.of_nat n)) by (apply H; lia).
  destruct (Z.eq_dec k (Z.of_nat n)) as [->|Hne]; [lia|].
  assert (g k <= sum_to n g) by (apply IH; [intros i Hi; apply H|]; lia). lia.
Qed.

Lemma balance_move t from to n a :
  balanceOf (move t from to n) a =
  balanceOf t a - (if a =? from then n else 0) + (if a =? to then n else 0).
Proof.
  unfold move, upd. cbn [balanceOf].
  destruct (Z.eqb_spec a to); destruct (Z.eqb_spec a from);
    try subst a; try subst to; rewrite ?Z.eqb_refl; try lia.
  - destruct (Z.eqb_spec to from); lia.
Qed.

(** ** Solvency *)

Lemma to_nat_succ n : 0 <= n -> Z.to_nat (n + 1) = S (Z.to_nat n).
Proof. intros H. rewrite Z2Nat.inj_add by lia. cbn. lia. Qed.

(** Rewriting one slot without touching its amount or fee keeps the
    vault solvent when the balance follows what the slot holds. *)
Lemma solvent_rewrite vault s s' i e' :
  solvent vault s ->
  escrows s' = upd (escrows s) i e' ->
  nextEscrowId s' = nextEscrowId s ->
  feeBps s' = feeBps s ->
  amount e' = amount (escrows s i) ->
  fee e' = fee (escrows s i) ->
  balanceOf (usdc s) vault - held (escrows s i) + held e' <=
    balanceOf (usdc s') vault ->
  solvent vault s'.
Proof.
  intros (Hn & Hb & Hr & Hz & Hbal) He Hnx Hfee Ha Hf Hnew.
  unfold solvent, total_held. rewrite He, Hnx, Hfee.
  repeat split; auto.
  - unfold upd. destruct (i0 =? i) eqn:Ei; [|apply Hr].
    rewrite Ha. apply Hr.
  - unfold upd. destruct (i0 =? i) eqn:Ei; [|apply Hr].
    rewrite Hf. apply Hr.
  - unfold upd. destruct (i0 =? i) eqn:Ei; [|apply Hr].
    rewrite Ha, Hf. apply Hr.
  - unfold upd. destruct (Z.eqb_spec i0 i); [|now apply Hz].
    subst i0. rewrite Ha. now apply Hz.
  - unfold upd. destruct (Z.eqb_spec i0 i); [|now apply Hz].
    subst i0. rewrite Hf. now apply Hz.
  - rewrite (sum_to_upd held). unfold total_held in Hbal.
    rewrite Z2Nat.id by exact Hn.
    destruct ((0 <=? i) && (i <? nextEscrowId s)) eqn:Ein; [lia|].
    assert (Hout : ~ 0 <= i < nextEscrowId s).
    { intros [H1 H2]. apply Z.leb_le in H1. apply Z.ltb_lt in H2.
      rewrite H1, H2 in Ein. discriminate. }
    destruct (Hz i Hout) as [Hza Hzf].
    assert (held (escrows s i) = 0)
      by (unfold held; destruct (holds_funds _); lia).
    assert (held e' = 0)
      by (unfold held; destruct (holds_funds _); lia).
    lia.
Qed.

Lemma solvent_perform vault E c s :
  solvent vault s -> sent_to vault (E, c) -> solvent vault (perform E c s).
Proof.
  intros Hs (Hthis & Hsender & Habi).
  cbn [fst snd] in *.
  unfold perform. pose proof (run_summary E c s) as R.
  pose proof (run_account E c s) as A.
  destruct (run E c s) as [s' u|m]; cbn [after]; [|exact Hs].
  destruct R as (He & Hnx & Hsrc & Hp).
  destruct A as (Hu & Hadm & _ & _ & Hchk).
  destruct c; cbn [written fst snd source settled administered abi_ok passed] in *;
    injection Hadm as _ _ Hfee;
    try (apply (solvent_rewrite vault s s' _ _ Hs He Hnx Hfee eq_refl eq_refl);
         rewrite Hu; unfold held; rewrite Hsrc; cbn [holds_funds status with_delivery
           with_status with_dispute amount fee];
         destruct Hs as (_ & _ & Hr & _);
         destruct (Hr _escrowId) as (Ha0 & Hf0 & _);
         unfold paid_to_seller, refunded_to_buyer;
         repeat match goal with
                | |- context [if ?b then _ else _] => destruct b
                end;
         rewrite ?balance_move;
         repeat match goal with
                | |- context [if ?b then _ else _] => destruct b
                end; lia).
  - (* createEscrow *)
    destruct Hs as (Hn & Hb & Hr & Hz & Hbal).
    destruct Hp as (_ & _ & Hpos & _). destruct Hchk as (Hmax & _).
    assert (Hfee0 : 0 <= _amount * feeBps s / 10000)
      by (apply Z.div_pos; nia).
    unfold solvent, total_held. rewrite He, Hnx, Hu, Hfee.
    repeat split; try lia.
    + unfold upd. destruct (i =? nextEscrowId s); [cbn [amount fee]; lia|apply Hr].
    + unfold upd. destruct (i =? nextEscrowId s); [cbn [amount fee]; lia|apply Hr].
    + unfold upd. destruct (i =? nextEscrowId s); [cbn [amount fee]; lia|apply Hr].
    + unfold upd. destruct (Z.eqb_spec i (nextEscrowId s)); [lia|].
      apply Hz. lia.
    + unfold upd. destruct (Z.eqb_spec i (nextEscrowId s)); [lia|].
      apply Hz. lia.
    + rewrite to_nat_succ by exact Hn. cbn [sum_to].
      rewrite (sum_to_upd held), Z2Nat.id by exact Hn.
      replace (nextEscrowId s <? nextEscrowId s) with false
        by (symmetry; apply Z.ltb_irrefl).
      rewrite andb_false_r. unfold upd at 1. rewrite Z.eqb_refl.
      unfold pulled. cbn [balanceOf held status holds_funds amount fee].
      rewrite balance_move, Hthis, Z.eqb_refl.
      destruct (Z.eqb_spec vault (msg_sender E)); [congruence|].
      unfold total_held in Hbal. lia.
  - unfold solvent, total_held in *. rewrite He, Hnx, Hu, Hfee. exact Hs.
  - unfold solvent, total_held in *. rewrite He, Hnx, Hu, Hfee.
    unfold is_uint256 in Habi. intuition lia.
  - unfold solvent, total_held in *. rewrite He, Hnx, Hu, Hfee. exact Hs.
Qed.

Lemma constructor_state usdc0 u a r bps s :
  constructor usdc0 u a r bps = Some s ->
  s = mkState usdc0 a r bps 0 (fun _ => zero_escrow) 0 0 0 [] /\
  u <> 0 /\ a <> 0 /\ r <> 0 /\ bps <= MAX_FEE.
Proof.
  unfold constructor. intros H.
  destruct (negb (u =? 0) && negb (a =? 0) && negb (r =? 0) && (bps <=? MAX_FEE))
    eqn:Hc; [|discriminate].
  injection H as <-. reflect_tests. auto.
Qed.

Lemma solvent_constructed usdc0 u a r bps vault s :
  constructor usdc0 u a r bps = Some s ->
  0 <= bps -> 0 <= balanceOf usdc0 vault -> solvent vault s.
Proof.
  intros H Hb Hv. apply constructor_state in H. destruct H as (-> & _).
  unfold solvent, total_held, MAX_UINT256. cbn. repeat split; auto; lia.
Qed.


Lemma solvent_token vault s t :
  solvent vault s -> balanceOf (usdc s) vault <= balanceOf t vault ->
  solvent vault (set_usdc t s).
Proof.
  intros (Hn & Hb & Hr & Hz & Hbal) Ht.
  unfold solvent, total_held in *. cbn [set_usdc nextEscrowId feeBps escrows usdc].
  repeat split; auto; try apply Hr; try (now apply Hz). lia.
Qed.

Lemma solvent_evolves vault s s' :
  evolves vault s s' -> solvent vault s -> solvent vault s'.
Proof.
  induction 1 as [s|s E c s' Hc _ IH|s t s' Ht _ IH]; intros Hs.
  - exact Hs.
  - apply IH. now apply solvent_perform.
  - apply IH. now apply solvent_token.
Qed.

Lemma solvent_reached usdc0 u a r bps vault s0 s :
  constructor usdc0 u a r bps = Some s0 ->
  is_uint256 bps -> 0 <= balanceOf usdc0 vault ->
  evolves vault s0 s -> solvent vault s.
Proof.
  intros Hc [Hb _] Hv He. apply (solvent_evolves vault s0 s He).
  now apply (solvent_constructed usdc0 u a r bps).
Qed.

(** What an escrow holds is covered by the balance of a solvent vault. *)
Lemma solvent_covers vault s i :
  solvent vault s ->
  0 <= amount (escrows s i) + fee (escrows s i) <= MAX_UINT256 /\
  (holds_funds (status (escrows s i)) = true ->
   amount (escrows s i) + fee (escrows s i) <= balanceOf (usdc s) vault) /\
  0 <= balanceOf (usdc s) vault.
Proof.
  intros (Hn & Hb & Hr & Hz & Hbal). unfold total_held in Hbal.
  assert (Hnn : forall j, 0 <= held (escrows s j)).
  { intros j. unfold held. destruct (Hr j) as (? & ? & _).
    destruct (holds_funds _); lia. }
  assert (H0 : 0 <= sum_to (Z.to_nat (nextEscrowId s)) (fun j => held (escrows s j)))
    by (apply sum_to_nonneg; intros; apply Hnn).
  destruct (Hr i) as (Ha & Hf & Hm).
  repeat split; try lia.
  intros Hh.
  destruct (Z.le_gt_cases 0 i) as [Hi0|Hi0];
    [destruct (Z.lt_ge_cases i (nextEscrowId s)) as [Hi1|Hi1]|].
  - pose proof (sum_to_bound (Z.to_nat (nextEscrowId s))
                  (fun j => held (escrows s j)) i) as B.
    cbv beta in B. unfold held at 2 in B. rewrite Hh in B.
    rewrite Z2Nat.id in B by exact Hn.
    assert (amount (escrows s i) + fee (escrows s i) <=
            sum_to (Z.to_nat (nextEscrowId s)) (fun j => held (escrows s j)))
      by (apply B; [intros; apply Hnn|lia]).
    lia.
  - destruct (Hz i) as [? ?]; lia.
  - destruct (Hz i) as [? ?]; lia.
Qed.


(** ** Payments that go through *)

Lemma reclaimExpired_succeeds E i s :
  msg_sender E = buyer (escrows s i) ->
  status (escrows s i) = Active ->
  deadline (escrows s i) < block_timestamp E ->
  amount (escrows s i) + fee (escrows s i) <= MAX_UINT256 ->
  amount (escrows s i) + fee (escrows s i) <= balanceOf (usdc s) (this E) ->
  reclaimExpired E i s =
    Ok (push_log (EscrowRefunded i (amount (escrows s i) + fee (escrows s i)))
          (set_usdc (refunded_to_buyer E (escrows s i) (usdc s))
             (set_escrow i (with_status Refunded (escrows s i)) s))) tt.
Proof.
  intros H1 H2 H3 H4 H5. unfold refunded_to_buyer.
  run_all (reclaimExpired E i); try close_leaf.
Qed.

Lemma claimByTimeout_succeeds E i s :
  msg_sender E = seller (escrows s i) ->
  status (escrows s i) = Delivered ->
  deliveredAt (escrows s i) + acceptanceWindow (escrows s i) <= MAX_UINT256 ->
  deliveredAt (escrows s i) + acceptanceWindow (escrows s i) < block_timestamp E ->
  0 <= amount (escrows s i) -> 0 <= fee (escrows s i) ->
  amount (escrows s i) + fee (escrows s i) <= balanceOf (usdc s) (this E) ->
  totalFeesCollected s + fee (escrows s i) <= MAX_UINT256 ->
  succeeded (claimByTimeout E i s) = true.
Proof.
  intros H1 H2 H3 H4 H5 H6 H7 H8.
  rewrite (bind_ret_r (claimByTimeout E i)). unfold_calls. exec; unfold ret;
    cbn [succeeded]; project_all; try rewrite balance_after_move in *;
    repeat match goal with
           | H : context [if ?c then _ else _] |- _ => destruct c
           end;
    reflect_tests; try close_leaf.
Qed.

(** A successful [claimByTimeout] was announced by the view. *)
Lemma claimByTimeout_view E i s :
  match claimByTimeout E i s with
  | Ok s' _ =>
      canClaimByTimeout E i s = Ok s true /\ nextEscrowId s' = nextEscrowId s
  | Revert _ => True
  end.
Proof.
  run_all (claimByTimeout E i); try exact I;
    (split; [|reflexivity]);
    unfold canClaimByTimeout, bind, get, ret, add;
    match goal with
    | H : status _ = Delivered |- _ => rewrite H
    end; cbn [Status_eqb];
    repeat match goal with
           | H : ?a <= ?b |- context [?a <=? ?b] =>
               rewrite (proj2 (Z.leb_le a b) H)
           end;
    unfold ret;
    repeat match goal with
           | H : ?a < ?b |- context [?a <? ?b] =>
               rewrite (proj2 (Z.ltb_lt a b) H)
           end; reflexivity.
Qed.

Lemma paid_to_seller_balance E e rcpt t a :
  0 <= fee e ->
  balanceOf (paid_to_seller E e rcpt t) a =
  balanceOf t a
  - (if a =? this E then amount e + fee e else 0)
  + (if a =? seller e then amount e else 0)
  + (if a =? rcpt then fee e else 0).
Proof.
  intros Hf. unfold paid_to_seller.
  destruct (Z.ltb_spec 0 (fee e)); rewrite ?balance_move;
    destruct (a =? this E), (a =? seller e), (a =? rcpt); lia.
Qed.

Lemma canClaimByTimeout_true E i s :
  canClaimByTimeout E i s = Ok s true ->
  status (escrows s i) = Delivered /\
  deliveredAt (escrows s i) + acceptanceWindow (escrows s i) <= MAX_UINT256 /\
  deliveredAt (escrows s i) + acceptanceWindow (escrows s i) < block_timestamp E.
Proof.
  unfold canClaimByTimeout, bind, get, ret, add.
  destruct (Status_eqb (status (escrows s i)) Delivered) eqn:Hst;
    [|intros H; discriminate H].
  destruct (_ <=? MAX_UINT256) eqn:Hmax; [|intros H; discriminate H].
  unfold ret. intros H. injection H as Hlt. reflect_tests. auto.
Qed.

(** ** Invariants of runs *)

Lemma perform_all_invariant (P : state -> Prop) :
  (forall E c s, P s -> P (perform E c s)) ->
  forall cs s, P s -> P (perform_all cs s).
Proof.
  intros Hstep. induction cs as [|[E c] cs IH]; intros s Hs; [exact Hs|].
  cbn [perform_all]. apply IH. now apply Hstep.
Qed.

Lemma seq_snoc n : seq 0 (S n) = seq 0 n ++ [n].
Proof. rewrite seq_S. reflexivity. Qed.

Lemma ids_below_succ n : 0 <= n -> ids_below (n + 1) = ids_below n ++ [n].
Proof.
  intros H. unfold ids_below. rewrite to_nat_succ by exact H.
  rewrite seq_snoc, map_app. cbn [map]. now rewrite Z2Nat.id.
Qed.

Lemma created_ids_app l1 l2 :
  created_ids (l1 ++ l2) = created_ids l1 ++ created_ids l2.
Proof. unfold created_ids. apply flat_map_app. Qed.

Lemma createEscrow_id E sl a h d w s :
  match createEscrow E sl a h d w s with
  | Ok s' i => i = nextEscrowId s /\ nextEscrowId s' = nextEscrowId s + 1
  | Revert _ => True
  end.
Proof. run_all (createEscrow E sl a h d w); try exact I; auto. Qed.

(** What one transaction keeps. *)

Lemma perform_fee_cap E c s :
  (feeBps s <= MAX_FEE /\
   forall i, 0 <= amount (escrows s i) /\
             fee (escrows s i) * 10000 <= amount (escrows s i) * MAX_FEE) ->
  feeBps (perform E c s) <= MAX_FEE /\
  forall i, 0 <= amount (escrows (perform E c s) i) /\
            fee (escrows (perform E c s) i) * 10000 <=
              amount (escrows (perform E c s) i) * MAX_FEE.
Proof.
  intros [Hb Hr]. unfold perform. pose proof (run_summary E c s) as R.
  pose proof (run_account E c s) as A.
  destruct (run E c s) as [s' u|m]; cbn [after]; [|now split].
  destruct R as (He & _ & _ & Hp). destruct A as (_ & Hadm & _ & _ & Hchk).
  rewrite He.
  destruct c; cbn [written fst administered passed] in *;
    injection Hadm as _ _ Hfee; rewrite Hfee;
    (split; [auto|]); intros j; unfold upd;
    try (destruct (j =? _escrowId) eqn:Ej;
         [apply Z.eqb_eq in Ej; subst j; apply Hr|apply Hr]);
    try apply Hr.
  destruct (j =? nextEscrowId s); [|apply Hr]. cbn [amount fee].
  destruct Hp as (_ & _ & Hpos & _). unfold MAX_FEE in *.
  pose proof (Z.mul_div_le (_amount * feeBps s) 10000). nia.
Qed.

Lemma perform_terms E c s i :
  0 <= i < nextEscrowId s ->
  terms (escrows (perform E c s) i) = terms (escrows s i) /\
  0 <= i < nextEscrowId (perform E c s).
Proof.
  intros Hi. unfold perform. pose proof (run_summary E c s) as R.
  destruct (run E c s) as [s' u|m]; cbn [after]; [|now split].
  destruct R as (He & Hn & _). rewrite He, Hn.
  destruct c; cbn [written fst snd]; unfold upd;
    try (destruct (i =? _escrowId) eqn:Ej;
         [apply Z.eqb_eq in Ej; subst i|]; split; try reflexivity; lia);
    try (split; [reflexivity|lia]).
  destruct (Z.eqb_spec i (nextEscrowId s)); [lia|]. split; [reflexivity|lia].
Qed.

Lemma perform_counters E c s :
  (0 <= nextEscrowId s /\ totalEscrowsCreated s = nextEscrowId s /\
   totalVolumeUsdc s = total_amount s /\
   created_ids (logs s) = ids_below (nextEscrowId s)) ->
  0 <= nextEscrowId (perform E c s) /\
  totalEscrowsCreated (perform E c s) = nextEscrowId (perform E c s) /\
  totalVolumeUsdc (perform E c s) = total_amount (perform E c s) /\
  created_ids (logs (perform E c s)) = ids_below (nextEscrowId (perform E c s)).
Proof.
  intros (Hn & Hc & Hv & Hl). unfold perform.
  pose proof (run_summary E c s) as R. pose proof (run_account E c s) as A.
  destruct (run E c s) as [s' u|m]; cbn [after]; [|auto].
  destruct R as (He & Hnx & _). destruct A as (_ & _ & Hcnt & Hlog & _).
  unfold total_amount in *. rewrite He, Hnx, Hlog, created_ids_app, Hl.
  destruct c; cbn [written fst snd counted emitted created_ids flat_map app] in *;
    injection Hcnt as Hc' Hv' _; rewrite Hc', Hv', ?app_nil_r;
    try (rewrite (sum_to_upd amount), Z2Nat.id by exact Hn;
         repeat split; try assumption;
         destruct ((0 <=? _escrowId) && (_escrowId <? nextEscrowId s));
         cbn [amount with_delivery with_status with_dispute]; lia);
    try (repeat split; assumption).
  - rewrite to_nat_succ by exact Hn. cbn [sum_to].
    rewrite (sum_to_upd amount), Z2Nat.id by exact Hn.
    replace (nextEscrowId s <? nextEscrowId s) with false
      by (symmetry; apply Z.ltb_irrefl).
    rewrite andb_false_r. unfold upd at 1. rewrite Z.eqb_refl. cbn [amount].
    rewrite ids_below_succ by exact Hn.
    repeat split; lia.
Qed.

Lemma perform_delivery E c s :
  (forall i, delivery_recorded (escrows s i)) ->
  forall i, delivery_recorded (escrows (perform E c s) i).
Proof.
  intros H. unfold perform. pose proof (run_summary E c s) as R.
  destruct (run E c s) as [s' u|m]; cbn [after]; [|exact H].
  destruct R as (He & _ & Hsrc & Hp). rewrite He. intros j.
  destruct c; cbn [written fst source passed] in *; unfold upd;
    try apply H;
    try (destruct (j =? _escrowId) eqn:Ej; [|apply H];
         pose proof (H _escrowId) as Hi; unfold delivery_recorded in *;
         rewrite Hsrc in Hi;
         cbn [status deliveredAt deliveryHash deadline with_delivery
              with_status with_dispute]; tauto).
  destruct (j =? nextEscrowId s); [|apply H].
  unfold delivery_recorded. cbn. auto.
Qed.

Lemma perform_admin E c s :
  (arbiter s <> 0 /\ feeRecipient s <> 0) ->
  arbiter (perform E c s) <> 0 /\ feeRecipient (perform E c s) <> 0.
Proof.
  intros H. unfold perform. pose proof (run_account E c s) as A.
  destruct (run E c s) as [s' u|m]; cbn [after]; [|exact H].
  destruct A as (_ & Hadm & _ & _ & Hchk).
  destruct c; cbn [administered] in *; injection Hadm as Ha Hr _;
    rewrite Ha, Hr; tauto.
Qed.

Lemma acceptDelivery_succeeds E i s :
  msg_sender E = buyer (escrows s i) ->
  status (escrows s i) = Delivered ->
  0 <= amount (escrows s i) -> 0 <= fee (escrows s i) ->
  amount (escrows s i) + fee (escrows s i) <= balanceOf (usdc s) (this E) ->
  totalFeesCollected s + fee (escrows s i) <= MAX_UINT256 ->
  succeeded (acceptDelivery E i s) = true.
Proof.
  intros H1 H2 H5 H6 H7 H8.
  rewrite (bind_ret_r (acceptDelivery E i)). unfold_calls. exec; unfold ret;
    cbn [succeeded]; project_all; try rewrite balance_after_move in *;
    repeat match goal with
           | H : context [if ?c then _ else _] |- _ => destruct c
           end;
    reflect_tests; try close_leaf.
Qed.

Lemma acceptDelivery_not_buyer E i s :
  msg_sender E <> buyer (escrows s i) ->
  acceptDelivery E i s = Revert "Not buyer".
Proof. intros H. decide_call (acceptDelivery E i). Qed.

Lemma acceptDelivery_wrong_status E i s :
  msg_sender E = buyer (escrows s i) ->
  status (escrows s i) <> Delivered ->
  acceptDelivery E i s = Revert "Not delivered".
Proof. intros H1 H2. decide_call (acceptDelivery E i). Qed.

(** The slots of ids not handed out stay blank as long as nobody sends
    from the zero address. *)
Lemma perform_blank E c s :
  msg_sender E <> 0 ->
  (0 <= nextEscrowId s /\ arbiter s <> 0 /\
   forall i, ~ 0 <= i < nextEscrowId s -> escrows s i = zero_escrow) ->
  0 <= nextEscrowId (perform E c s) /\ arbiter (perform E c s) <> 0 /\
  forall i, ~ 0 <= i < nextEscrowId (perform E c s) ->
            escrows (perform E c s) i = zero_escrow.
Proof.
  intros Hs (Hn & Ha & Hz). unfold perform.
  pose proof (run_summary E c s) as R. pose proof (run_account E c s) as A.
  destruct (run E c s) as [s' u|m]; cbn [after]; [|auto].
  destruct R as (He & Hnx & Hsrc & Hp). destruct A as (_ & Hadm & _ & _ & Hchk).
  rewrite He, Hnx.
  assert (Hzero : forall j (P : Prop),
            (status (escrows s j) = Active ->
             buyer (escrows s j) = 0 -> seller (escrows s j) = 0 -> P) ->
            ~ 0 <= j < nextEscrowId s -> P).
  { intros j P HP Hout. rewrite (Hz j Hout) in HP. now apply HP. }
  destruct c; cbn [written fst snd source passed administered] in *;
    injection Hadm as Harb _ _; rewrite Harb;
    (split; [lia|]); (split; [assumption|]); intros j Hj; unfold upd;
    try (now apply Hz);
    try (destruct (Z.eqb_spec j _escrowId); [|now apply Hz]; subst j;
         exfalso; apply (Hzero _escrowId False); [|exact Hj];
         intros Hst Hb Hsl; first [congruence | intuition congruence]).
  destruct (Z.eqb_spec j (nextEscrowId s)); [lia|]. apply Hz. lia.
Qed.

Lemma perform_all_blank cs : forall s,
  Forall (fun Ec => msg_sender (fst Ec) <> 0) cs ->
  (0 <= nextEscrowId s /\ arbiter s <> 0 /\
   forall i, ~ 0 <= i < nextEscrowId s -> escrows s i = zero_escrow) ->
  0 <= nextEscrowId (perform_all cs s) /\ arbiter (perform_all cs s) <> 0 /\
  forall i, ~ 0 <= i < nextEscrowId (perform_all cs s) ->
            escrows (perform_all cs s) i = zero_escrow.
Proof.
  induction cs as [|[E c] cs IH]; intros s Hall Hs; [exact Hs|].
  inversion Hall as [|? ? Hx Hcs]; subst. cbn [perform_all].
  apply IH; [exact Hcs|]. now apply perform_blank.
Qed.

End VaultAccounts.

Module VaultProperties.
Import ClawVault ClawVaultFacts VaultAccounts.

(** X1.  The vault always covers its open escrows: in every state that a
    deployed vault reaches, through its own transactions and through
    token transfers that do not lower its balance, the amounts and fees
    of the escrows that are Active, Delivered or Disputed add up to no
    more than the vault's token balance. *)
Theorem vault_covers_open_escrows usdc0 _usdc _arbiter _feeRecipient _feeBps vault s0 s :
  constructor usdc0 _usdc _arbiter _feeRecipient _feeBps = Some s0 ->
  is_uint256 _feeBps -> 0 <= balanceOf usdc0 vault ->
  evolves vault s0 s ->
  total_held s <= balanceOf (usdc s) vault.
Proof.
  intros Hc Hb Hv He.
  destruct (solvent_reached _ _ _ _ _ _ _ _ Hc Hb Hv He) as (_ & _ & _ & _ & H).
  exact H.
Qed.

Ltac evaluated :=
  vm_compute;
  repeat match goal with
         | |- _ /\ _ => split
         end;
  first [ reflexivity | discriminate
        | let H := fresh in intros H; discriminate H ].

Lemma vault_covers_open_escrows_witness :
  let s := perform (at_time 12 2000) (MarkDelivered 0 88)
             (perform (at_time 11 1000) (CreateEscrow 12 100 77 3600 3600)
                vault_init) in
  total_held s <= balanceOf (usdc s) 99.
Proof.
  apply (vault_covers_open_escrows vault_token 1 13 14 100 99 vault_init).
  - reflexivity.
  - evaluated.
  - evaluated.
  - apply (evolves_call 99 vault_init (at_time 11 1000)
             (CreateEscrow 12 100 77 3600 3600)); [evaluated|].
    apply (evolves_call 99 _ (at_time 12 2000) (MarkDelivered 0 88));
      [evaluated|].
    apply evolves_refl.
Defined.


(** X2.  [canReclaim] predicts [reclaimExpired].  In every state that a
    deployed vault reaches the view returns without changing the state;
    when it answers false, [reclaimExpired] reverts for every sender;
    when it answers true and the sender is the buyer, [reclaimExpired]
    succeeds, marks the escrow Refunded and moves amount + fee from the
    vault to the buyer. *)
Theorem canReclaim_predicts_reclaimExpired
    usdc0 _usdc _arbiter _feeRecipient _feeBps s0 s E i :
  constructor usdc0 _usdc _arbiter _feeRecipient _feeBps = Some s0 ->
  is_uint256 _feeBps -> 0 <= balanceOf usdc0 (this E) ->
  evolves (this E) s0 s ->
  exists b,
    canReclaim E i s = Ok s b /\
    (b = false -> exists m, reclaimExpired E i s = Revert m) /\
    (b = true -> msg_sender E = buyer (escrows s i) ->
     exists s',
       reclaimExpired E i s = Ok s' tt /\
       status (escrows s' i) = Refunded /\
       forall a,
         balanceOf (usdc s') a =
         balanceOf (usdc s) a
         - (if a =? this E
            then amount (escrows s i) + fee (escrows s i) else 0)
         + (if a =? buyer (escrows s i)
            then amount (escrows s i) + fee (escrows s i) else 0)).
Proof.
  intros Hc Hb Hv He.
  pose proof (solvent_reached _ _ _ _ _ _ _ _ Hc Hb Hv He) as Hs.
  destruct (solvent_covers _ _ i Hs) as ((_ & Hmax) & Hcov & _).
  exists (Status_eqb (status (escrows s i)) Active
          && (deadline (escrows s i) <? block_timestamp E)).
  split; [reflexivity|]. split.
  - intros Hfalse.
    destruct (reclaimExpired E i s) as [s' u|m] eqn:Hrun; [|now exists m].
    apply reclaimExpired_ok in Hrun. destruct Hrun as (Hst & _ & Hdl & _).
    rewrite Hst in Hfalse. cbn [Status_eqb andb] in Hfalse.
    apply Z.ltb_ge in Hfalse. lia.
  - intros Htrue Hbuyer. apply andb_true_iff in Htrue.
    destruct Htrue as [Hst Hdl]. apply Status_eqb_eq in Hst.
    apply Z.ltb_lt in Hdl.
    rewrite (reclaimExpired_succeeds E i s Hbuyer Hst Hdl Hmax)
      by (apply Hcov; rewrite Hst; reflexivity).
    eexists. split; [reflexivity|].
    cbn [push_log set_usdc set_escrow escrows usdc]. split.
    + unfold upd. rewrite Z.eqb_refl. reflexivity.
    + intros a. unfold refunded_to_buyer. apply balance_move.
Qed.

Lemma canReclaim_predicts_reclaimExpired_witness :
  let s := perform (at_time 11 1000) (CreateEscrow 12 100 77 3600 3600) vault_init in
  canReclaim (at_time 11 5000) 0 s = Ok s true /\
  exists s',
    reclaimExpired (at_time 11 5000) 0 s = Ok s' tt /\
    status (escrows s' 0) = Refunded /\
    balanceOf (usdc s') 11 = 1000 /\ balanceOf (usdc s') 99 = 0.
Proof.
  intros s.
  destruct (canReclaim_predicts_reclaimExpired vault_token 1 13 14 100 vault_init s
              (at_time 11 5000) 0) as (b & Hview & _ & Hgo).
  - reflexivity.
  - evaluated.
  - evaluated.
  - apply (evolves_call 99 vault_init (at_time 11 1000)
             (CreateEscrow 12 100 77 3600 3600)); [evaluated|].
    apply evolves_refl.
  - assert (Hb : b = true).
    { assert (Hv : canReclaim (at_time 11 5000) 0 s = Ok s true) by reflexivity.
      rewrite Hv in Hview. now injection Hview as <-. }
    split; [rewrite Hview, Hb; reflexivity|].
    destruct (Hgo Hb eq_refl) as (s' & Hrun & Hst & Hbal).
    exists s'. split; [exact Hrun|]. split; [exact Hst|].
    split; rewrite Hbal; reflexivity.
Defined.

(** X3.  [canClaimByTimeout] predicts [claimByTimeout].  In every state
    that a deployed vault reaches, a [claimByTimeout] that succeeds was
    announced by the view; and when the view answers true, the sender is
    the seller and the fee counter has room, [claimByTimeout] succeeds,
    marks the escrow Completed and moves the amount from the vault to the
    seller and the fee to the fee recipient. *)
Theorem canClaimByTimeout_predicts_claimByTimeout
    usdc0 _usdc _arbiter _feeRecipient _feeBps s0 s E i :
  constructor usdc0 _usdc _arbiter _feeRecipient _feeBps = Some s0 ->
  is_uint256 _feeBps -> 0 <= balanceOf usdc0 (this E) ->
  evolves (this E) s0 s ->
  (forall s' u, claimByTimeout E i s = Ok s' u ->
     canClaimByTimeout E i s = Ok s true) /\
  (canClaimByTimeout E i s = Ok s true ->
   msg_sender E = seller (escrows s i) ->
   totalFeesCollected s + fee (escrows s i) <= MAX_UINT256 ->
   exists s',
     claimByTimeout E i s = Ok s' tt /\
     status (escrows s' i) = Completed /\
     forall a,
       balanceOf (usdc s') a =
       balanceOf (usdc s) a
       - (if a =? this E
          then amount (escrows s i) + fee (escrows s i) else 0)
       + (if a =? seller (escrows s i) then amount (escrows s i) else 0)
       + (if a =? feeRecipient s then fee (escrows s i) else 0)).
Proof.
  intros Hc Hb Hv He. split.
  - intros s' u Hrun. pose proof (claimByTimeout_view E i s) as V.
    rewrite Hrun in V. apply V.
  - intros Hview Hseller Hroom.
    pose proof (solvent_reached _ _ _ _ _ _ _ _ Hc Hb Hv He) as Hs.
    destruct (solvent_covers _ _ i Hs) as (_ & Hcov & _).
    destruct Hs as (_ & _ & Hr & _). destruct (Hr i) as (Ha & Hf & _).
    destruct (canClaimByTimeout_true E i s Hview) as (Hst & Hmax & Hlate).
    assert (Hok : succeeded (claimByTimeout E i s) = true).
    { apply claimByTimeout_succeeds; auto. apply Hcov. now rewrite Hst. }
    pose proof (run_summary E (ClaimByTimeout i) s) as R.
    pose proof (run_account E (ClaimByTimeout i) s) as A.
    cbn [run] in R, A.
    destruct (claimByTimeout E i s) as [s' []|m]; [|discriminate Hok].
    destruct R as (Hes & _). destruct A as (Hu & _).
    cbn [written fst settled] in Hes, Hu.
    exists s'. split; [reflexivity|]. split.
    + rewrite Hes. unfold upd. rewrite Z.eqb_refl. reflexivity.
    + intros a. rewrite Hu. now apply paid_to_seller_balance.
Qed.

Lemma canClaimByTimeout_predicts_claimByTimeout_witness :
  let s := perform (at_time 12 2000) (MarkDelivered 0 88)
             (perform (at_time 11 1000) (CreateEscrow 12 100 77 3600 3600)
                vault_init) in
  canClaimByTimeout (at_time 12 5601) 0 s = Ok s true /\
  exists s',
    claimByTimeout (at_time 12 5601) 0 s = Ok s' tt /\
    status (escrows s' 0) = Completed /\
    balanceOf (usdc s') 12 = 100 /\ balanceOf (usdc s') 14 = 1 /\
    balanceOf (usdc s') 99 = 0.
Proof.
  intros s.
  destruct (canClaimByTimeout_predicts_claimByTimeout vault_token 1 13 14 100
              vault_init s (at_time 12 5601) 0) as (_ & Hgo).
  - reflexivity.
  - evaluated.
  - evaluated.
  - apply (evolves_call 99 vault_init (at_time 11 1000)
             (CreateEscrow 12 100 77 3600 3600)); [evaluated|].
    apply (evolves_call 99 _ (at_time 12 2000) (MarkDelivered 0 88));
      [evaluated|].
    apply evolves_refl.
  - assert (Hv : canClaimByTimeout (at_time 12 5601) 0 s = Ok s true)
      by reflexivity.
    split; [exact Hv|].
    destruct (Hgo Hv eq_refl) as (s' & Hrun & Hst & Hbal); [evaluated|].
    exists s'. split; [exact Hrun|]. split; [exact Hst|].
    repeat split; rewrite Hbal; reflexivity.
Defined.

(** X4.  A transaction changes the token balance of nobody but its
    payees: the sender and the vault for [createEscrow], the vault, the
    seller and the fee recipient when the seller is paid, the vault and
    the buyer when the buyer is refunded, and nobody otherwise.  So the
    arbiter who resolves a dispute receives nothing unless the arbiter is
    the buyer, the seller or the fee recipient.  The only allowance that
    changes is the one the sender of [createEscrow] gave the vault. *)
Theorem outsiders_keep_their_tokens E c s s' u :
  run E c s = Ok s' u ->
  (forall a, ~ In a (payees E c s) ->
     balanceOf (usdc s') a = balanceOf (usdc s) a) /\
  (forall o sp, (o, sp) <> (msg_sender E, this E) ->
     allowance (usdc s') o sp = allowance (usdc s) o sp).
Proof.
  intros Hrun. pose proof (run_account E c s) as A. rewrite Hrun in A.
  destruct A as (Hu & _). rewrite Hu. split.
  - intros a Hout.
    destruct c as [sl a0 h d w|i h|i|i r|i [|]|i|i|x|x|x];
      cbn [settled payees In] in *;
      unfold pulled, paid_to_seller, refunded_to_buyer;
      try reflexivity;
      repeat match goal with
             | |- context [if 0 <? ?x then _ else _] => destruct (0 <? x)
             end;
      cbn [balanceOf]; rewrite ?balance_move;
      repeat match goal with
             | |- context [?x =? ?y] =>
                 destruct (Z.eqb_spec x y); [exfalso; apply Hout; auto 6|]
             end; lia.
  - intros o sp Hne.
    destruct c as [sl a0 h d w|i h|i|i r|i [|]|i|i|x|x|x];
      cbn [settled]; unfold pulled, paid_to_seller, refunded_to_buyer, move;
      repeat match goal with
             | |- context [if 0 <? ?x then _ else _] => destruct (0 <? x)
             end;
      cbn [allowance]; try reflexivity.
    destruct (Z.eqb_spec o (msg_sender E)); destruct (Z.eqb_spec sp (this E));
      cbn [andb]; try reflexivity.
    exfalso. apply Hne. congruence.
Qed.

Lemma outsiders_keep_their_tokens_witness :
  let s := perform (at_time 11 3000) (OpenDispute 0 "bad")
             (perform (at_time 12 2000) (MarkDelivered 0 88)
                (perform (at_time 11 1000) (CreateEscrow 12 100 77 3600 3600)
                   vault_init)) in
  let s' := perform (at_time 13 4000) (ResolveDispute 0 false) s in
  status (escrows s' 0) = Resolved /\
  balanceOf (usdc s') 12 = 100 /\
  balanceOf (usdc s') 13 = balanceOf (usdc s) 13.
Proof.
  intros s s'.
  assert (Hrun : run (at_time 13 4000) (ResolveDispute 0 false) s = Ok s' tt)
    by (vm_compute; reflexivity).
  split; [vm_compute; reflexivity|]. split; [vm_compute; reflexivity|].
  destruct (outsiders_keep_their_tokens (at_time 13 4000) (ResolveDispute 0 false)
              s s' tt Hrun) as [Hbal _].
  apply (Hbal 13). vm_compute. intros [H|[H|[H|[]]]]; discriminate H.
Defined.

(** X5.  The fee is capped at 5%: in every state the contract reaches
    from its constructor, the fee rate is at most MAX_FEE basis points and
    the fee held for any escrow is at most MAX_FEE / 10000 of its
    amount. *)
Theorem fees_stay_capped usdc0 _usdc _arbiter _feeRecipient _feeBps s0 cs i :
  constructor usdc0 _usdc _arbiter _feeRecipient _feeBps = Some s0 ->
  feeBps (perform_all cs s0) <= MAX_FEE /\
  fee (escrows (perform_all cs s0) i) * 10000 <=
    amount (escrows (perform_all cs s0) i) * MAX_FEE.
Proof.
  intros Hc. apply constructor_state in Hc. destruct Hc as (-> & _ & _ & _ & Hb).
  assert (H : feeBps (perform_all cs
                (mkState usdc0 _arbiter _feeRecipient _feeBps 0
                   (fun _ => zero_escrow) 0 0 0 [])) <= MAX_FEE /\
              forall j, 0 <= amount (escrows (perform_all cs
                (mkState usdc0 _arbiter _feeRecipient _feeBps 0
                   (fun _ => zero_escrow) 0 0 0 [])) j) /\
                fee (escrows (perform_all cs
                (mkState usdc0 _arbiter _feeRecipient _feeBps 0
                   (fun _ => zero_escrow) 0 0 0 [])) j) * 10000 <=
                amount (escrows (perform_all cs
                (mkState usdc0 _arbiter _feeRecipient _feeBps 0
                   (fun _ => zero_escrow) 0 0 0 [])) j) * MAX_FEE).
  { apply (perform_all_invariant
             (fun s => feeBps s <= MAX_FEE /\
                       forall j, 0 <= amount (escrows s j) /\
                                 fee (escrows s j) * 10000 <=
                                   amount (escrows s j) * MAX_FEE)).
    - intros E c s. apply perform_fee_cap.
    - split; [exact Hb|]. intros j. cbn. unfold MAX_FEE. lia. }
  destruct H as [H1 H2]. split; [exact H1|apply H2].
Qed.

Lemma fees_stay_capped_witness :
  let s := perform_all
             [(at_time 13 500, UpdateFee 500);
              (at_time 11 1000, CreateEscrow 12 100 77 3600 3600);
              (at_time 13 1500, UpdateFee 501)] vault_init in
  feeBps s = 500 /\ fee (escrows s 0) = 5 /\
  fee (escrows s 0) * 10000 <= amount (escrows s 0) * MAX_FEE.
Proof.
  intros s. split; [reflexivity|]. split; [reflexivity|].
  apply (fees_stay_capped vault_token 1 13 14 100 vault_init
           [(at_time 13 500, UpdateFee 500);
            (at_time 11 1000, CreateEscrow 12 100 77 3600 3600);
            (at_time 13 1500, UpdateFee 501)] 0).
  reflexivity.
Defined.

(** X6.  The terms of an escrow are fixed when it is created: buyer,
    seller, amount, fee, service hash, deadline and acceptance window of
    an escrow whose id has been handed out are the same after any
    sequence of transactions, [updateFee] included. *)
Theorem terms_are_fixed cs : forall s i,
  0 <= i < nextEscrowId s ->
  terms (escrows (perform_all cs s) i) = terms (escrows s i).
Proof.
  induction cs as [|[E c] cs IH]; intros s i Hi; [reflexivity|].
  cbn [perform_all]. destruct (perform_terms E c s i Hi) as [Ht Hi'].
  rewrite (IH _ i Hi'). exact Ht.
Qed.

Lemma terms_are_fixed_witness :
  let s := perform (at_time 11 1000) (CreateEscrow 12 100 77 3600 3600) vault_init in
  terms (escrows
           (perform_all [(at_time 13 1500, UpdateFee 500);
                         (at_time 12 2000, MarkDelivered 0 88);
                         (at_time 11 3000, AcceptDelivery 0)] s) 0) =
  (11, 12, 100, 1, 77, 4600, 3600).
Proof.
  intros s.
  rewrite (terms_are_fixed [(at_time 13 1500, UpdateFee 500);
                            (at_time 12 2000, MarkDelivered 0 88);
                            (at_time 11 3000, AcceptDelivery 0)] s 0).
  - reflexivity.
  - evaluated.
Defined.

(** X7.  [getStats] counts the escrows: in every state the contract
    reaches from its constructor, the view returns the number of ids
    handed out as the number of escrows created, and the sum of the
    amounts of all escrows created as the volume. *)
Theorem getStats_counts_the_escrows
    usdc0 _usdc _arbiter _feeRecipient _feeBps s0 cs :
  constructor usdc0 _usdc _arbiter _feeRecipient _feeBps = Some s0 ->
  getStats (perform_all cs s0) =
    Ok (perform_all cs s0)
       (nextEscrowId (perform_all cs s0), total_amount (perform_all cs s0),
        totalFeesCollected (perform_all cs s0), nextEscrowId (perform_all cs s0)).
Proof.
  intros Hc. apply constructor_state in Hc. destruct Hc as (-> & _).
  unfold getStats, get.
  match goal with
  | |- context [perform_all cs ?s0] =>
      destruct (perform_all_invariant
                  (fun s => 0 <= nextEscrowId s /\
                            totalEscrowsCreated s = nextEscrowId s /\
                            totalVolumeUsdc s = total_amount s /\
                            created_ids (logs s) = ids_below (nextEscrowId s))
                  perform_counters cs s0) as (_ & H1 & H2 & _)
  end.
  - cbn. repeat split; reflexivity || lia.
  - rewrite H1, H2. reflexivity.
Qed.

Lemma getStats_counts_the_escrows_witness :
  let s := perform_all
             [(at_time 11 1000, CreateEscrow 12 100 77 3600 3600);
              (at_time 11 1001, CreateEscrow 12 50 78 3600 3600);
              (at_time 11 1002, CreateEscrow 11 50 78 3600 3600)] vault_init in
  getStats s = Ok s (2, 150, 0, 2).
Proof.
  intros s. subst s.
  rewrite (getStats_counts_the_escrows vault_token 1 13 14 100 vault_init
             [(at_time 11 1000, CreateEscrow 12 100 77 3600 3600);
              (at_time 11 1001, CreateEscrow 12 50 78 3600 3600);
              (at_time 11 1002, CreateEscrow 11 50 78 3600 3600)]).
  - reflexivity.
  - reflexivity.
Defined.

(** X8.  Deliveries are recorded faithfully: in every state the contract
    reaches from its constructor, an escrow that is Active or Refunded
    has no delivery time and no delivery hash, and every other escrow has
    a delivery hash that is not zero and a delivery time that is not
    after its deadline. *)
Theorem deliveries_are_recorded
    usdc0 _usdc _arbiter _feeRecipient _feeBps s0 cs i :
  constructor usdc0 _usdc _arbiter _feeRecipient _feeBps = Some s0 ->
  delivery_recorded (escrows (perform_all cs s0) i).
Proof.
  intros Hc. apply constructor_state in Hc. destruct Hc as (-> & _).
  revert i.
  apply (perform_all_invariant (fun s => forall i, delivery_recorded (escrows s i))).
  - intros E c s. apply perform_delivery.
  - intros i. cbn. auto.
Qed.

Lemma deliveries_are_recorded_witness :
  let s := perform_all
             [(at_time 11 1000, CreateEscrow 12 100 77 3600 3600);
              (at_time 12 2000, MarkDelivered 0 88);
              (at_time 11 3000, AcceptDelivery 0)] vault_init in
  status (escrows s 0) = Completed /\ delivery_recorded (escrows s 0).
Proof.
  intros s. split; [reflexivity|].
  apply (deliveries_are_recorded vault_token 1 13 14 100 vault_init
           [(at_time 11 1000, CreateEscrow 12 100 77 3600 3600);
            (at_time 12 2000, MarkDelivered 0 88);
            (at_time 11 3000, AcceptDelivery 0)] 0).
  reflexivity.
Defined.

(** X9.  Only the arbiter administers: a transaction whose sender is not
    the arbiter leaves the arbiter, the fee recipient and the fee rate as
    they were, whatever it calls; and in every state the contract reaches
    from its constructor neither the arbiter nor the fee recipient is the
    zero address. *)
Theorem only_the_arbiter_administers :
  (forall E c s,
     msg_sender E <> arbiter s ->
     arbiter (perform E c s) = arbiter s /\
     feeRecipient (perform E c s) = feeRecipient s /\
     feeBps (perform E c s) = feeBps s) /\
  (forall usdc0 _usdc _arbiter _feeRecipient _feeBps s0 cs,
     constructor usdc0 _usdc _arbiter _feeRecipient _feeBps = Some s0 ->
     arbiter (perform_all cs s0) <> 0 /\ feeRecipient (perform_all cs s0) <> 0).
Proof.
  split.
  - intros E c s Hne. unfold perform.
    pose proof (run_summary E c s) as R. pose proof (run_account E c s) as A.
    destruct (run E c s) as [s' u|m]; cbn [after]; [|auto].
    destruct R as (_ & _ & _ & Hp). destruct A as (_ & Hadm & _).
    destruct c; cbn [administered passed] in *; injection Hadm as H1 H2 H3;
      auto; contradiction.
  - intros usdc0 _usdc _arbiter _feeRecipient _feeBps s0 cs Hc.
    apply constructor_state in Hc. destruct Hc as (-> & _ & Ha & Hr & _).
    apply (perform_all_invariant
             (fun s => arbiter s <> 0 /\ feeRecipient s <> 0)).
    + intros E c s. apply perform_admin.
    + cbn. auto.
Qed.

Lemma only_the_arbiter_administers_witness :
  feeBps (perform (at_time 11 1000) (UpdateFee 0) vault_init) = 100 /\
  arbiter (perform_all [(at_time 13 1000, UpdateArbiter 0);
                        (at_time 13 1001, UpdateArbiter 15)] vault_init) <> 0.
Proof.
  destruct only_the_arbiter_administers as [Ha Hb]. split.
  - destruct (Ha (at_time 11 1000) (UpdateFee 0) vault_init) as (_ & _ & H).
    + evaluated.
    + rewrite H. reflexivity.
  - apply (Hb vault_token 1 13 14 100 vault_init). reflexivity.
Defined.

(** X10.  The log lists every escrow once: in every state the contract
    reaches from its constructor, the ids of the EscrowCreated events, in
    the order of the log, are 0, 1, ..., nextEscrowId - 1. *)
Theorem created_events_list_the_ids
    usdc0 _usdc _arbiter _feeRecipient _feeBps s0 cs :
  constructor usdc0 _usdc _arbiter _feeRecipient _feeBps = Some s0 ->
  created_ids (logs (perform_all cs s0)) =
    ids_below (nextEscrowId (perform_all cs s0)).
Proof.
  intros Hc. apply constructor_state in Hc. destruct Hc as (-> & _).
  match goal with
  | |- context [perform_all cs ?s0] =>
      destruct (perform_all_invariant
                  (fun s => 0 <= nextEscrowId s /\
                            totalEscrowsCreated s = nextEscrowId s /\
                            totalVolumeUsdc s = total_amount s /\
                            created_ids (logs s) = ids_below (nextEscrowId s))
                  perform_counters cs s0) as (_ & _ & _ & H)
  end.
  - cbn. repeat split; reflexivity || lia.
  - exact H.
Qed.

Lemma created_events_list_the_ids_witness :
  created_ids
    (logs (perform_all
             [(at_time 11 1000, CreateEscrow 12 100 77 3600 3600);
              (at_time 12 2000, MarkDelivered 0 88);
              (at_time 11 2001, CreateEscrow 12 50 78 3600 3600)] vault_init)) =
  [0; 1].
Proof.
  rewrite (created_events_list_the_ids vault_token 1 13 14 100 vault_init).
  - reflexivity.
  - reflexivity.
Defined.

(** X11.  A reclaimed escrow is refunded in full: when [createEscrow]
    has succeeded for a buyer other than the vault itself, the buyer's
    [reclaimExpired] at any time after the deadline succeeds in the state
    [createEscrow] left, and afterwards every token balance, the buyer's
    and the vault's included, is what it was before the escrow was
    created. *)
Theorem reclaim_refunds_in_full E E' sl a h d w s s1 i :
  createEscrow E sl a h d w s = Ok s1 i ->
  msg_sender E <> this E ->
  0 <= balanceOf (usdc s) (this E) ->
  msg_sender E' = msg_sender E -> this E' = this E ->
  block_timestamp E + d < block_timestamp E' ->
  exists s2,
    reclaimExpired E' i s1 = Ok s2 tt /\
    status (escrows s2 i) = Refunded /\
    forall x, balanceOf (usdc s2) x = balanceOf (usdc s) x.
Proof.
  intros Hrun Hne Hbal Hsender Hthis Hlate.
  pose proof (createEscrow_id E sl a h d w s) as Hid. rewrite Hrun in Hid.
  destruct Hid as [-> _].
  pose proof (run_summary E (CreateEscrow sl a h d w) s) as R.
  pose proof (run_account E (CreateEscrow sl a h d w) s) as A.
  cbn [run] in R, A. rewrite Hrun in R, A. cbn [outcome_of] in R, A.
  destruct R as (He & _). destruct A as (Hu & _ & _ & _ & Hmax & _).
  cbn [written fst settled] in He, Hu.
  assert (Hslot : escrows s1 (nextEscrowId s) =
                  mkEscrow (msg_sender E) sl a (a * feeBps s / 10000) h 0
                    (block_timestamp E + d) 0 w Active "").
  { rewrite He. unfold upd. now rewrite Z.eqb_refl. }
  assert (Hvault : balanceOf (usdc s1) (this E) =
                   balanceOf (usdc s) (this E) + (a + a * feeBps s / 10000)).
  { rewrite Hu. unfold pulled. cbn [balanceOf]. rewrite balance_move.
    rewrite Z.eqb_refl. destruct (Z.eqb_spec (this E) (msg_sender E)); [congruence|lia]. }
  rewrite (reclaimExpired_succeeds E' (nextEscrowId s) s1);
    rewrite ?Hslot; cbn [buyer status deadline amount fee]; try assumption;
    try reflexivity; [|rewrite Hthis, Hvault; lia].
  eexists. split; [reflexivity|].
  cbn [push_log set_usdc set_escrow escrows usdc]. split.
  - unfold upd. rewrite Z.eqb_refl. reflexivity.
  - intros x. unfold refunded_to_buyer. cbn [buyer amount fee].
    rewrite balance_move, Hu. unfold pulled. cbn [balanceOf].
    rewrite balance_move, Hthis.
    destruct (x =? this E), (x =? msg_sender E); lia.
Qed.

Lemma reclaim_refunds_in_full_witness :
  let s1 := perform (at_time 11 1000) (CreateEscrow 12 100 77 3600 3600) vault_init in
  createEscrow (at_time 11 1000) 12 100 77 3600 3600 vault_init = Ok s1 0 /\
  balanceOf (usdc s1) 11 = 899 /\
  exists s2,
    reclaimExpired (at_time 11 4601) 0 s1 = Ok s2 tt /\
    balanceOf (usdc s2) 11 = 1000.
Proof.
  intros s1.
  assert (Hc : createEscrow (at_time 11 1000) 12 100 77 3600 3600 vault_init =
               Ok s1 0) by (vm_compute; reflexivity).
  split; [exact Hc|]. split; [vm_compute; reflexivity|].
  destruct (reclaim_refunds_in_full (at_time 11 1000) (at_time 11 4601)
              12 100 77 3600 3600 vault_init s1 0 Hc)
    as (s2 & Hrun & _ & Hbal); try evaluated.
  exists s2. split; [exact Hrun|]. rewrite Hbal. reflexivity.
Defined.

(** X12.  The two sides never race for a timeout.  On one state, when
    the seller's [markDelivered] can succeed at one time and the buyer's
    [reclaimExpired] at another, the first time is strictly earlier; and
    when the buyer's [openDispute] can succeed at one time and the
    seller's [claimByTimeout] at another, the first time is strictly
    earlier.  So at no time can both calls of a pair succeed. *)
Theorem timeouts_never_race E1 E2 i h r s :
  (succeeded (markDelivered E1 i h s) = true ->
   succeeded (reclaimExpired E2 i s) = true ->
   block_timestamp E1 < block_timestamp E2) /\
  (succeeded (openDispute E1 i r s) = true ->
   succeeded (claimByTimeout E2 i s) = true ->
   block_timestamp E1 < block_timestamp E2).
Proof.
  split; intros H1 H2.
  - destruct (markDelivered E1 i h s) as [s1 u1|] eqn:R1; [|discriminate H1].
    destruct (reclaimExpired E2 i s) as [s2 u2|] eqn:R2; [|discriminate H2].
    apply markDelivered_ok in R1. apply reclaimExpired_ok in R2.
    destruct R1 as (_ & _ & Ha & _). destruct R2 as (_ & _ & Hb & _). lia.
  - destruct (openDispute E1 i r s) as [s1 u1|] eqn:R1; [|discriminate H1].
    destruct (claimByTimeout E2 i s) as [s2 u2|] eqn:R2; [|discriminate H2].
    apply openDispute_ok in R1. apply claimByTimeout_ok in R2.
    destruct R1 as (_ & _ & Ha & _). destruct R2 as (_ & _ & Hb & _). lia.
Qed.

Lemma timeouts_never_race_witness :
  let s := perform (at_time 12 2000) (MarkDelivered 0 88)
             (perform (at_time 11 1000) (CreateEscrow 12 100 77 3600 3600)
                vault_init) in
  succeeded (openDispute (at_time 11 5600) 0 "bad" s) = true /\
  succeeded (claimByTimeout (at_time 12 5601) 0 s) = true /\
  block_timestamp (at_time 11 5600) < block_timestamp (at_time 12 5601).
Proof.
  intros s. split; [reflexivity|]. split; [reflexivity|].
  apply (timeouts_never_race (at_time 11 5600) (at_time 12 5601) 0 0 "bad" s);
    reflexivity.
Defined.

(** X13.  [acceptDelivery] pays the seller.  In every state that a
    deployed vault reaches, a call by anyone but the buyer reverts with
    "Not buyer"; the buyer's call on an escrow that is not Delivered
    reverts with "Not delivered"; and the buyer's call on a Delivered
    escrow succeeds at any block time, provided the fee counter has
    room: the escrow becomes Completed, the amount moves from the vault
    to the seller and the fee to the fee recipient, the counter
    [totalFeesCollected] grows by the fee, and DeliveryAccepted is
    logged. *)
Theorem acceptDelivery_pays_the_seller
    usdc0 _usdc _arbiter _feeRecipient _feeBps s0 s E i :
  constructor usdc0 _usdc _arbiter _feeRecipient _feeBps = Some s0 ->
  is_uint256 _feeBps -> 0 <= balanceOf usdc0 (this E) ->
  evolves (this E) s0 s ->
  (msg_sender E <> buyer (escrows s i) ->
   acceptDelivery E i s = Revert "Not buyer") /\
  (msg_sender E = buyer (escrows s i) ->
   status (escrows s i) <> Delivered ->
   acceptDelivery E i s = Revert "Not delivered") /\
  (msg_sender E = buyer (escrows s i) ->
   status (escrows s i) = Delivered ->
   totalFeesCollected s + fee (escrows s i) <= MAX_UINT256 ->
   exists s',
     acceptDelivery E i s = Ok s' tt /\
     status (escrows s' i) = Completed /\
     (forall a,
        balanceOf (usdc s') a =
        balanceOf (usdc s) a
        - (if a =? this E
           then amount (escrows s i) + fee (escrows s i) else 0)
        + (if a =? seller (escrows s i) then amount (escrows s i) else 0)
        + (if a =? feeRecipient s then fee (escrows s i) else 0)) /\
     totalFeesCollected s' = totalFeesCollected s + fee (escrows s i) /\
     logs s' = logs s ++ [DeliveryAccepted i (amount (escrows s i))]).
Proof.
  intros Hc Hb Hv He. split; [apply acceptDelivery_not_buyer|].
  split; [apply acceptDelivery_wrong_status|].
  intros Hbuyer Hst Hroom.
  pose proof (solvent_reached _ _ _ _ _ _ _ _ Hc Hb Hv He) as Hs.
  destruct (solvent_covers _ _ i Hs) as (_ & Hcov & _).
  destruct Hs as (_ & _ & Hr & _). destruct (Hr i) as (Ha & Hf & _).
  assert (Hok : succeeded (acceptDelivery E i s) = true).
  { apply acceptDelivery_succeeds; auto. apply Hcov. now rewrite Hst. }
  pose proof (run_summary E (AcceptDelivery i) s) as R.
  pose proof (run_account E (AcceptDelivery i) s) as A.
  cbn [run] in R, A.
  destruct (acceptDelivery E i s) as [s' []|m]; [|discriminate Hok].
  destruct R as (Hes & _). destruct A as (Hu & _ & Hcnt & Hlog & _).
  cbn [written fst settled counted fee_paid emitted] in Hes, Hu, Hcnt, Hlog.
  injection Hcnt as _ _ Hcnt.
  exists s'. split; [reflexivity|]. split; [|split; [|split]].
  - rewrite Hes. unfold upd. rewrite Z.eqb_refl. reflexivity.
  - intros a. rewrite Hu. now apply paid_to_seller_balance.
  - rewrite Hcnt. lia.
  - exact Hlog.
Qed.

Lemma acceptDelivery_pays_the_seller_witness :
  let s := perform (at_time 12 2000) (MarkDelivered 0 88)
             (perform (at_time 11 1000) (CreateEscrow 12 100 77 3600 3600)
                vault_init) in
  acceptDelivery (at_time 12 3000) 0 s = Revert "Not buyer" /\
  exists s',
    acceptDelivery (at_time 11 999999) 0 s = Ok s' tt /\
    status (escrows s' 0) = Completed /\
    balanceOf (usdc s') 12 = 100 /\ balanceOf (usdc s') 14 = 1 /\
    totalFeesCollected s' = 1.
Proof.
  intros s.
  assert (Hrun : evolves 99 vault_init s).
  { apply (evolves_call 99 vault_init (at_time 11 1000)
             (CreateEscrow 12 100 77 3600 3600)); [evaluated|].
    apply (evolves_call 99 _ (at_time 12 2000) (MarkDelivered 0 88));
      [evaluated|].
    apply evolves_refl. }
  split.
  - apply (acceptDelivery_pays_the_seller vault_token 1 13 14 100 vault_init s
             (at_time 12 3000) 0); try evaluated. exact Hrun.
  - destruct (acceptDelivery_pays_the_seller vault_token 1 13 14 100 vault_init s
                (at_time 11 999999) 0) as (_ & _ & Hgo); try evaluated;
      [exact Hrun|].
    destruct Hgo as (s' & Hacc & Hst & Hbal & Hcnt & _); try evaluated.
    exists s'. split; [exact Hacc|]. split; [exact Hst|].
    split; [rewrite Hbal; reflexivity|].
    split; [rewrite Hbal; reflexivity|]. rewrite Hcnt. reflexivity.
Defined.

(** X14.  Ids that were never handed out read as a blank escrow.  In any
    state the contract reaches from its constructor while nobody sends from
    the zero address, for an id outside of those handed out: [getEscrow]
    does not revert, it returns the zero record, whose status is Active;
    [canReclaim] answers true as soon as the block time is positive;
    [canClaimByTimeout] answers false; and every transaction that names
    the id, sent from a non-zero address, reverts and leaves the state as
    it was. *)
Theorem unissued_ids_read_as_blank :
  forall usdc0 _usdc _arbiter _feeRecipient _feeBps s0 cs i,
    constructor usdc0 _usdc _arbiter _feeRecipient _feeBps = Some s0 ->
    Forall (fun Ec => msg_sender (fst Ec) <> 0) cs ->
    ~ 0 <= i < nextEscrowId (perform_all cs s0) ->
    getEscrow i (perform_all cs s0) = Ok (perform_all cs s0) zero_escrow /\
    status zero_escrow = Active /\
    (forall E,
       canReclaim E i (perform_all cs s0) =
         Ok (perform_all cs s0) (0 <? block_timestamp E) /\
       canClaimByTimeout E i (perform_all cs s0) = Ok (perform_all cs s0) false) /\
    (forall E c st,
       msg_sender E <> 0 ->
       source c = Some (i, st) ->
       (exists m, run E c (perform_all cs s0) = Revert m) /\
       perform E c (perform_all cs s0) = perform_all cs s0).
Proof.
  intros usdc0 _usdc _arbiter _feeRecipient _feeBps s0 cs i Hc Hall Hi.
  apply constructor_state in Hc. destruct Hc as (-> & _ & Ha & _).
  destruct (perform_all_blank cs
              (mkState usdc0 _arbiter _feeRecipient _feeBps 0
                 (fun _ => zero_escrow) 0 0 0 []) Hall)
    as (_ & _ & Hz); [cbn; repeat split; auto; lia|].
  specialize (Hz i Hi).
  set (s := perform_all cs _) in *.
  split; [unfold getEscrow, get; now rewrite Hz|]. split; [reflexivity|].
  split.
  - intros E. unfold canReclaim, canClaimByTimeout, bind, get, ret.
    rewrite Hz. split; reflexivity.
  - intros E c st Hs Hsrc.
    assert (Hrev : exists m, run E c s = Revert m).
    { pose proof (ClawVaultFacts.run_summary E c s) as R.
      destruct (run E c s) as [s' u|m]; [exfalso|now exists m].
      destruct R as (_ & _ & Hst & Hp). rewrite Hsrc, Hz in Hst.
      cbn [status zero_escrow] in Hst. subst st.
      destruct c; cbn [source] in Hsrc; try discriminate;
        injection Hsrc as ->; cbn [passed] in Hp; rewrite Hz in Hp;
        destruct Hp as [Hp _]; apply Hs; exact Hp. }
    split; [exact Hrev|]. destruct Hrev as [m Hm].
    unfold perform. now rewrite Hm.
Qed.

Lemma unissued_ids_read_as_blank_witness :
  let s := perform_all
             [(at_time 11 1000, CreateEscrow 12 100 77 3600 3600);
              (at_time 12 2000, MarkDelivered 0 88)] vault_init in
  getEscrow 7 s = Ok s zero_escrow /\
  canReclaim (at_time 11 5000) 7 s = Ok s true /\
  perform (at_time 11 5000) (ReclaimExpired 7) s = s.
Proof.
  intros s.
  destruct (unissued_ids_read_as_blank vault_token 1 13 14 100 vault_init
              [(at_time 11 1000, CreateEscrow 12 100 77 3600 3600);
               (at_time 12 2000, MarkDelivered 0 88)] 7)
    as (Hget & _ & Hview & Htx).
  - reflexivity.
  - repeat constructor; evaluated.
  - intros [_ H]. vm_compute in H. discriminate H.
  - split; [exact Hget|]. split.
    + destruct (Hview (at_time 11 5000)) as [Hr _]. exact Hr.
    + destruct (Htx (at_time 11 5000) (ReclaimExpired 7) Active) as [_ Hp];
        [discriminate|reflexivity|exact Hp].
Defined.

End VaultProperties.

(* ================================================================== *)
(** * The records of the internal ledger *)
(* ================================================================== *)

Module LedgerRecords.
Import Clock Offchain OffchainFacts.

(** ** Growth *)

Lemma grows_refl d : grows d d.
Proof. exists [], []. now rewrite !app_nil_r. Qed.

Lemma grows_trans d1 d2 d3 : grows d1 d2 -> grows d2 d3 -> grows d1 d3.
Proof.
  intros (r1 & e1 & Hr1 & He1) (r2 & e2 & Hr2 & He2).
  exists (r1 ++ r2), (e1 ++ e2). rewrite Hr2, Hr1, He2, He1.
  now rewrite !app_assoc.
Qed.

Lemma keeps_ret {A} (a : A) : keeps (ret a).
Proof. intros d. apply grows_refl. Qed.

Lemma keeps_throw {A} e : keeps (@throw A e).
Proof. intros d. apply grows_refl. Qed.

Lemma keeps_bind {A B} (c : M A) (k : A -> M B) :
  keeps c -> (forall a, keeps (k a)) -> keeps (bind c k).
Proof.
  intros Hc Hk d. unfold bind. pose proof (Hc d) as H1.
  destruct (c d) as [d1 [a|e]]; cbn [fst] in *; [|exact H1].
  apply (grows_trans d d1); [exact H1|apply Hk].
Qed.

Lemma keeps_for_each {A} (l : list A) (body : A -> M unit) :
  (forall a, keeps (body a)) -> keeps (for_each l body).
Proof.
  intros Hb. induction l as [|a l IH]; cbn [for_each]; [apply keeps_ret|].
  apply keeps_bind; [apply Hb|intros _; exact IH].
Qed.

Lemma keeps_select_by_id i : keeps (select_by_id i).
Proof. intros d. apply grows_refl. Qed.

Lemma keeps_select_where p : keeps (select_where p).
Proof. intros d. apply grows_refl. Qed.

Lemma keeps_insert_escrow row : keeps (insert_escrow row).
Proof.
  intros d. unfold insert_escrow. destruct (existsb _ _); [apply grows_refl|].
  exists [fixed_columns row], []. cbn [fst escrows escrow_events].
  now rewrite map_app, app_nil_r.
Qed.

Lemma keeps_update_by_id i set :
  (forall r, fixed_columns (set r) = fixed_columns r) ->
  keeps (update_by_id i set).
Proof.
  intros Hset d. exists [], []. cbn [update_by_id fst escrows escrow_events].
  rewrite !app_nil_r. split; [|reflexivity].
  rewrite map_map. apply map_ext. intros r.
  destruct (String.eqb (id r) i); [apply Hset|reflexivity].
Qed.

Lemma keeps_logEvent now i ty who payload : keeps (logEvent now i ty who payload).
Proof.
  destruct who as [a|]; [|apply keeps_throw].
  intros d. eexists [], _. cbn [logEvent fst escrows escrow_events].
  rewrite app_nil_r. split; reflexivity.
Qed.

Ltac keeps_all :=
  repeat first
    [ apply keeps_ret | apply keeps_throw | apply keeps_select_by_id
    | apply keeps_select_where | apply keeps_insert_escrow
    | apply keeps_logEvent
    | apply keeps_update_by_id; intros ?; reflexivity
    | apply keeps_for_each; intros ?
    | apply keeps_bind; [|intros ?]
    | match goal with
      | |- keeps (match ?x with _ => _ end) => destruct x
      | |- keeps (if ?b then _ else _) => destruct b
      end ].

Lemma keeps_apply_op now o i : keeps (apply_op now o i).
Proof.
  destruct o; cbn [apply_op];
    unfold fundEscrow, deliverEscrow, acceptEscrow, disputeEscrow,
      resolveDispute, getEscrow; keeps_all.
Qed.

Lemma keeps_createEscrow now h b s a sd ac dh :
  keeps (createEscrow now h b s a sd ac dh).
Proof. unfold createEscrow. keeps_all. Qed.

Lemma keeps_processExpiredEscrows now : keeps (processExpiredEscrows now).
Proof.
  unfold processExpiredEscrows. keeps_all.
Qed.

Lemma grows_perform now c d : grows d (perform now c d).
Proof.
  destruct c; cbn [perform]; unfold escrowJob.
  - apply keeps_createEscrow.
  - apply keeps_apply_op.
  - apply keeps_processExpiredEscrows.
Qed.


Lemma grows_perform_all cs : forall d, grows d (perform_all cs d).
Proof.
  induction cs as [|[now c] cs IH]; intros d; [apply grows_refl|].
  cbn [perform_all]. apply (grows_trans d (perform now c d));
    [apply grows_perform|apply IH].
Qed.

(** ** Counting rows by status *)

Lemma sum_case_when cond rows :
  fold_right (fun r acc => case_when cond r + acc) 0 rows =
  Z.of_nat (List.length (filter cond rows)).
Proof.
  induction rows as [|r rows IH]; [reflexivity|].
  cbn [fold_right filter]. rewrite IH. unfold case_when.
  destruct (cond r); cbn [List.length]; lia.
Qed.

Lemma status_partition rows :
  Z.of_nat (List.length (filter (fun r => status_eqb (status r) completed) rows)) +
  Z.of_nat (List.length (filter (fun r => status_eqb (status r) disputed) rows)) +
  Z.of_nat (List.length (filter (fun r => status_eqb (status r) refunded) rows)) +
  Z.of_nat (List.length
              (filter (fun r => status_eqb (status r) created
                                || status_eqb (status r) funded
                                || status_eqb (status r) delivered) rows)) =
  Z.of_nat (List.length rows).
Proof.
  induction rows as [|r rows IH]; [reflexivity|].
  cbn [filter]. destruct (status r); cbn [status_eqb orb List.length]; lia.
Qed.

(** ** A second sweep *)

Lemma sweep_row_settled now r :
  release_due now (sweep_row now r) = false /\
  refund_due now (sweep_row now r) = false.
Proof.
  unfold sweep_row.
  destruct (release_due now r) eqn:E1; [split; reflexivity|].
  destruct (refund_due now r) eqn:E2; [split; reflexivity|].
  now split.
Qed.

Lemma filter_none {A} (p : A -> bool) l :
  (forall x, In x l -> p x = false) -> filter p l = [].
Proof.
  induction l as [|x l IH]; intros H; [reflexivity|].
  cbn [filter]. rewrite (H x (or_introl eq_refl)).
  apply IH. intros y Hy. apply H. now right.
Qed.

Lemma nothing_due now d :
  filter (release_due now) (escrows d) = [] ->
  filter (refund_due now) (escrows d) = [] ->
  processExpiredEscrows now d = (d, Return (0%nat, 0%nat)).
Proof.
  intros H1 H2. unfold processExpiredEscrows, bind, select_where.
  rewrite H1. cbn [for_each ret]. unfold ret. rewrite H2. reflexivity.
Qed.

End LedgerRecords.

Module LedgerProperties.
Import Clock Offchain OffchainFacts LedgerRecords.

(** X15.  [getEscrowStats] partitions the table.  It returns without
    writing; [total] is the number of rows; on a table with rows the four
    other columns are the numbers of rows that are completed, disputed,
    refunded and active (created, funded or delivered), and they add up
    to [total]; on the empty table [total] is 0 and the four other
    columns are NULL. *)
Theorem getEscrowStats_partitions d :
  exists st,
    getEscrowStats d = (d, Return st) /\
    stats_total st = Z.of_nat (List.length (escrows d)) /\
    match escrows d with
    | [] =>
        stats_completed st = None /\ stats_disputed st = None /\
        stats_refunded st = None /\ stats_active st = None
    | _ :: _ =>
        exists c di r a,
          stats_completed st = Some c /\ stats_disputed st = Some di /\
          stats_refunded st = Some r /\ stats_active st = Some a /\
          c = Z.of_nat (List.length
                 (filter (fun x => status_eqb (status x) completed) (escrows d))) /\
          di = Z.of_nat (List.length
                  (filter (fun x => status_eqb (status x) disputed) (escrows d))) /\
          r = Z.of_nat (List.length
                 (filter (fun x => status_eqb (status x) refunded) (escrows d))) /\
          c + di + r + a = stats_total st
    end.
Proof.
  unfold getEscrowStats. eexists. split; [reflexivity|].
  cbn [stats_total stats_completed stats_disputed stats_refunded stats_active].
  split; [reflexivity|].
  destruct (escrows d) as [|x rows] eqn:Hrows; [repeat split|].
  unfold sql_sum. rewrite !sum_case_when.
  do 4 eexists. repeat split. apply status_partition.
Qed.

(** X16.  The engine keeps its records.  After any sequence of calls of
    [createEscrow], the five lifecycle functions and the sweep, returned
    or thrown, the table has the rows it had, in their order and with
    their id, buyer, seller, amount, description, criteria, deadline and
    creation time, possibly followed by new rows; and the event log has
    the events it had, followed by the new ones. *)
Theorem records_are_kept cs d :
  exists rows evs,
    map fixed_columns (escrows (perform_all cs d)) =
      map fixed_columns (escrows d) ++ rows /\
    escrow_events (perform_all cs d) = escrow_events d ++ evs.
Proof. apply grows_perform_all. Qed.

(** X17.  A second sweep finds nothing.  On a table whose ids are
    unique, running [processExpiredEscrows] again at the time of the
    sweep just run returns the counts 0 and 0 and leaves both tables as
    the first sweep left them. *)
Theorem second_sweep_finds_nothing now d :
  unique_ids d ->
  processExpiredEscrows now (escrowJob now d) =
    (escrowJob now d, Return (0%nat, 0%nat)).
Proof.
  intros Hu. apply nothing_due; rewrite (escrowJob_rows now d Hu);
    apply filter_none; intros r Hr; apply in_map_iff in Hr;
    destruct Hr as (r0 & <- & _); apply sweep_row_settled.
Qed.

Lemma second_sweep_finds_nothing_witness :
  status_of "esc_aa" (escrowJob 172800000 (mkDb [row_funded] [])) = Some refunded /\
  processExpiredEscrows 172800000 (escrowJob 172800000 (mkDb [row_funded] [])) =
    (escrowJob 172800000 (mkDb [row_funded] []), Return (0%nat, 0%nat)).
Proof.
  split; [vm_compute; reflexivity|].
  apply (second_sweep_finds_nothing 172800000 (mkDb [row_funded] [])).
  apply single_row_unique.
Defined.

(** X18.  [createEscrow] fails in two ways and then writes nothing.
    When the deadline, now + deadlineHours * 3600 * 1000 ms, lies more
    than 8.64e15 ms from the epoch, [toISOString] throws "Invalid time
    value" before any statement runs; when the deadline is a valid date
    and the table already has a row with the new id, the INSERT throws
    the UNIQUE constraint error; in both cases neither a row nor an event
    is stored. *)
Theorem createEscrow_failures now h b s a sd ac dh d :
  (MAX_TIME_VALUE < Z.abs (now + dh * 3600 * 1000) ->
   createEscrow now h b s a sd ac dh d = (d, Throw InvalidTimeValue)) /\
  (Z.abs (now + dh * 3600 * 1000) <= MAX_TIME_VALUE ->
   status_of ("esc_" ++ h) d <> None ->
   createEscrow now h b s a sd ac dh d = (d, Throw UniqueConstraint)).
Proof.
  rewrite createEscrow_run. unfold toISOString. split.
  - intros Hout. apply Z.leb_gt in Hout. rewrite Hout. reflexivity.
  - intros Hin Hold. apply Z.leb_le in Hin. rewrite Hin.
    destruct (existsb _ (escrows d)) eqn:Hex; [reflexivity|].
    exfalso. apply Hold. unfold status_of.
    now rewrite (existsb_find_none _ _ Hex).
Qed.

Lemma createEscrow_failures_witness :
  createEscrow 0 "aa" "0xB" "0xS" "100" "X" None 2400000001 empty_db =
    (empty_db, Throw InvalidTimeValue) /\
  createEscrow 5000 "aa" "0xC" "0xD" "7" "Y" None 24 db_created =
    (db_created, Throw UniqueConstraint).
Proof.
  split.
  - apply (createEscrow_failures 0 "aa" "0xB" "0xS" "100" "X" None 2400000001
             empty_db)%string.
    vm_compute. reflexivity.
  - apply (createEscrow_failures 5000 "aa" "0xC" "0xD" "7" "Y" None 24
             db_created)%string.
    + vm_compute. discriminate.
    + vm_compute. discriminate.
Defined.

(** X19.  [getEscrow] reads back what was written.  After a
    [createEscrow] that returned, [getEscrow] of the new id returns the
    row just inserted, in status created and with the deadline the reply
    states; after a lifecycle call on an id, returned or thrown,
    [getEscrow] of any other id returns what it returned before; and
    after an [acceptEscrow], [fundEscrow], [deliverEscrow],
    [disputeEscrow] or [resolveDispute] that returned, [getEscrow] of
    its id returns the former row with the new status and the new
    [updated_at]. *)
Theorem getEscrow_reads_back :
  (forall now h b s a sd ac dh d r,
     snd (createEscrow now h b s a sd ac dh d) = Return r ->
     exists dl,
       toISOString (now + dh * 3600 * 1000) = Some dl /\
       getEscrow (reply_id r) (fst (createEscrow now h b s a sd ac dh d)) =
         (fst (createEscrow now h b s a sd ac dh d),
          Return (Some (mkEscrow ("esc_" ++ h) b s a sd ac dl created
                          None None None None None None
                          (datetime now) (datetime now))))) /\
  (forall now o i d j,
     j <> i ->
     snd (getEscrow j (fst (apply_op now o i d))) = snd (getEscrow j d)) /\
  (forall now o i d r,
     snd (apply_op now o i d) = Return r ->
     exists esc,
       snd (getEscrow i d) = Return (Some esc) /\
       snd (getEscrow i (fst (apply_op now o i d))) =
         Return (Some (moved now o esc)) /\
       status (moved now o esc) = reply_status r /\
       updated_at (moved now o esc) = datetime now /\
       fixed_columns (moved now o esc) = fixed_columns esc).
Proof.
  split; [|split].
  - intros now h b s a sd ac dh d r. rewrite createEscrow_run.
    destruct (toISOString (now + dh * 3600 * 1000)) as [dl|];
      [|intros H; discriminate H].
    destruct (existsb _ (escrows d)) eqn:Hex; [intros H; discriminate H|].
    cbn [fst snd]. intros H.
    assert (Hr : mkReply ("esc_" ++ h) created None = r) by congruence.
    subst r. exists dl. split; [reflexivity|].
    unfold getEscrow, select_by_id. cbn [escrows reply_id].
    rewrite find_snoc, (existsb_find_none _ _ Hex). cbn [new_row id].
    now rewrite String.eqb_refl.
  - intros now o i d j Hne. rewrite apply_op_run.
    unfold getEscrow, select_by_id. cbn [snd].
    destruct (find (fun r => String.eqb (id r) i) (escrows d)) as [esc|];
      [|reflexivity].
    destruct (permitted_from o (status esc)); [|reflexivity].
    match goal with
    | |- context [escrows (fst ?run)] =>
        assert (Hrows : escrows (fst run) =
                        map (fun r => if String.eqb (id r) i then moved now o r else r)
                            (escrows d))
          by (destruct (logged now o i esc (List.length (escrow_events d)));
              reflexivity);
        rewrite Hrows; clear Hrows
    end.
    f_equal.
    induction (escrows d) as [|r rows IH]; [reflexivity|].
    cbn [map find]. destruct (String.eqb (id r) i) eqn:Ei.
    + rewrite moved_id. apply String.eqb_eq in Ei.
      destruct (String.eqb (id r) j) eqn:Ej; [|exact IH].
      apply String.eqb_eq in Ej. congruence.
    + destruct (String.eqb (id r) j); [reflexivity|exact IH].
  - intros now o i d r. rewrite apply_op_run.
    unfold getEscrow, select_by_id. cbn [snd].
    destruct (find (fun r => String.eqb (id r) i) (escrows d)) as [esc|] eqn:Hf;
      [|intros H; discriminate H].
    destruct (permitted_from o (status esc)) eqn:Hp; [|intros H; discriminate H].
    destruct (logged now o i esc (List.length (escrow_events d))) as [ev|];
      [|intros H; discriminate H].
    cbn [fst snd escrows]. intros H. injection H as <-.
    exists esc. split; [reflexivity|]. split.
    + f_equal. rewrite find_map_id
        by (intros x; destruct (String.eqb (id x) i); [apply moved_id|reflexivity]).
      rewrite Hf. cbn [option_map]. destruct (find_id_some _ _ _ Hf) as [Hid _].
      now rewrite Hid, String.eqb_refl.
    + destruct o; repeat split; reflexivity.
Qed.

Lemma getEscrow_reads_back_witness :
  snd (getEscrow "esc_aa" db_created) =
    Return (Some (mkEscrow "esc_aa" "0xB" "0xS" "100" "X" None
                    "1970-01-01T01:00:00.000Z" created
                    None None None None None None
                    "1970-01-01 00:00:00" "1970-01-01 00:00:00")) /\
  snd (getEscrow "esc_bb" (fst (apply_op 1000 (Fund "0xtx") "esc_aa" db_created))) =
    snd (getEscrow "esc_bb" db_created) /\
  exists esc,
    snd (getEscrow "esc_aa" (fst (apply_op 1000 (Fund "0xtx") "esc_aa" db_created))) =
      Return (Some esc) /\
    status esc = funded /\ updated_at esc = "1970-01-01 00:00:01"%string.
Proof.
  destruct getEscrow_reads_back as (Ha & Hb & Hc). split; [|split].
  - destruct (Ha 0 "aa" "0xB" "0xS" "100" "X" None 1 empty_db
                (mkReply "esc_aa" created None))%string as (dl & Hdl & Hget).
    + vm_compute. reflexivity.
    + assert (Hd : dl = "1970-01-01T01:00:00.000Z"%string).
      { vm_compute in Hdl. now injection Hdl as <-. }
      subst dl. cbn [reply_id] in Hget.
      change (fst (createEscrow 0 "aa" "0xB" "0xS" "100" "X" None 1 empty_db))
        with db_created in Hget.
      rewrite Hget. reflexivity.
  - apply (Hb 1000 (Fund "0xtx") "esc_aa" db_created "esc_bb")%string.
    discriminate.
  - destruct (Hc 1000 (Fund "0xtx") "esc_aa" db_created
                (mkReply "esc_aa" funded
                   (Some "Escrow funded. Seller can now perform the service.")))%string
      as (esc & _ & Hget & Hst & Hup & _).
    + vm_compute. reflexivity.
    + exists (moved 1000 (Fund "0xtx") esc). split; [exact Hget|].
      split; [exact Hst|]. rewrite Hup. vm_compute. reflexivity.
Defined.


End LedgerProperties.
